(** * Nia Voice Mac: turn orchestration and streaming playback

    A shallow embedding of [src/nia_voice_mac/main.py] (class
    [NiaMacClient]): the busy flag [_processing], the voice and text turns
    ([_run_voice], [_run_pipeline], [_run_text]), the wake-word callback
    ([_on_wake_detected]) and the interactive command loop of [start].

    Conventions of the embedding.
    - The collaborators that live outside the file (the hub client, the
      microphone, the player subprocess, the random source behind
      [uuid.uuid4]) are inputs: each call takes its outcome, a value or a
      raised exception, from an environment record.
    - Effects are written in a small monad that threads the client object
      and the local variables of [_run_pipeline], collects the observable
      events of a run in order, and carries Python exceptions, with
      combinators for [try/except] and [try/finally].
    - Writing to the terminal ([print], [_status]) is taken to succeed.
    - Text is a sequence of code points below 256 (Rocq's [string]). *)

From Stdlib Require Import List String Ascii ZArith Lia Bool Arith.
Import ListNotations.
Local Open Scope string_scope.
Local Open Scope list_scope.

Set Implicit Arguments.

(** ** Exceptions *)

Module Exn.

(** The classes the source distinguishes in its [except] clauses.
    [KeyboardInterrupt] and [OtherBaseException] (SystemExit and the
    like) derive from [BaseException] only, the others from
    [Exception]. *)
Inductive class :=
| BrokenPipeError
| TimeoutExpired
| EOFError
| OtherException
| KeyboardInterrupt
| OtherBaseException.

Record t := Build { cls : class; msg : string }.

(** [except Exception] *)
Definition is_Exception (e : t) : bool :=
  match cls e with
  | KeyboardInterrupt | OtherBaseException => false
  | _ => true
  end.

(** [except BrokenPipeError] *)
Definition is_BrokenPipeError (e : t) : bool :=
  match cls e with BrokenPipeError => true | _ => false end.

(** [except subprocess.TimeoutExpired] *)
Definition is_TimeoutExpired (e : t) : bool :=
  match cls e with TimeoutExpired => true | _ => false end.

(** [except (EOFError, KeyboardInterrupt)] *)
Definition is_EOF_or_Interrupt (e : t) : bool :=
  match cls e with EOFError | KeyboardInterrupt => true | _ => false end.

End Exn.

Definition exn : Type := Exn.t.

(** The outcome of a call: a value, or a raised exception. *)
Inductive result (A : Type) : Type :=
| Ok (a : A)
| Raise (e : exn).
Arguments Ok {A} a.
Arguments Raise {A} e.

(** ** Data *)

Definition bytes := list Byte.byte.

(** The background threads the client starts: [target=self._run_voice],
    [target=self._run_text, args=(text,)] and the closure [_run] of
    [_on_wake_detected]. *)
Inductive task :=
| VoiceTurn
| TextTurn (text : string)
| WakeTurn.

(** The messages of [_status]. *)
Inductive status :=
| Listening
| NothingCaptured
| ThinkingVoice
| Speaking
| NothingTranscribed
| ThinkingText
| ErrorStatus (e : exn).

(** The three forms of [_prompt]. *)
Inductive prompt_kind :=
| PromptText
| PromptWake (model : option string)
| PromptVoice.

(** The lines written with [print]. *)
Inductive printed :=
| NoPlayerWarning
| Blank
| YouSaid (transcript : string)
| NiaSaid (reply : string)
| Echo (text : string)
| Traceback
| Prompt (k : prompt_kind)
| ConversationReset (sid8 : string)
| StillProcessing
| Goodbye.

(** What a run does, in order.  [SetProcessing] records an assignment to
    [self._processing]; the others are calls that leave the client. *)
Inductive event :=
| EvStatus (s : status)
| EvPrint (p : printed)
| EvSetProcessing (b : bool)
| EvRecord
| EvVoicePipeline (wav : bytes) (sid : string)
| EvChat (text : string)
| EvResetConversation
| EvSpawn (cmd : list string)
| EvSpawnFailed (cmd : list string)
| EvWrite (chunk : bytes)
| EvStdinClose
| EvWait (timeout : nat)
| EvKill
| EvResume
| EvEngineStop
| EvThread (t : task).

Definition trace := list event.

(** The fields of [NiaMacClient] set in [__init__].  [wake_engine] tells
    whether [self._wake_engine] holds an engine or [None]; [player_cmd] is
    the command list of [_find_player], empty when no player was found. *)
Record client := Client {
  session_id  : string;
  processing  : bool;
  running     : bool;
  text_mode   : bool;
  wake_model  : option string;
  wake_engine : bool;
  player_cmd  : list string
}.

(** A [subprocess.Popen] started with [stdin=PIPE]: whether this process
    has closed its end of the pipe ([stdin.closed]) and how many writes it
    has issued. *)
Record proc := Proc {
  stdin_closed : bool;
  written      : nat
}.

(** The variables of [_run_pipeline] that [_on_chunk] shares
    ([nonlocal player_proc, first_chunk]). *)
Record frame := Frame {
  player_proc : option proc;
  first_chunk : bool
}.

Record world := World {
  cl : client;
  fr : frame
}.

Definition mk_world (c : client) (pp : option proc) (fc : bool) : world :=
  {| cl := c; fr := {| player_proc := pp; first_chunk := fc |} |}.

Definition with_processing (b : bool) (c : client) : client :=
  {| session_id := session_id c; processing := b; running := running c;
     text_mode := text_mode c; wake_model := wake_model c;
     wake_engine := wake_engine c; player_cmd := player_cmd c |}.

Definition with_session_id (s : string) (c : client) : client :=
  {| session_id := s; processing := processing c; running := running c;
     text_mode := text_mode c; wake_model := wake_model c;
     wake_engine := wake_engine c; player_cmd := player_cmd c |}.

Definition with_running (b : bool) (c : client) : client :=
  {| session_id := session_id c; processing := processing c; running := b;
     text_mode := text_mode c; wake_model := wake_model c;
     wake_engine := wake_engine c; player_cmd := player_cmd c |}.

Definition with_wake_engine (b : bool) (c : client) : client :=
  {| session_id := session_id c; processing := processing c;
     running := running c; text_mode := text_mode c;
     wake_model := wake_model c; wake_engine := b;
     player_cmd := player_cmd c |}.

(** ** The collaborators *)

(** [NiaHubClient.voice_pipeline]: during the call the hub hands zero or
    more chunks to [on_audio_chunk], then returns [(transcript, reply)] or
    raises.  After each chunk it goes on according to how the callback
    ended, so a hub that lets the callback's exception through and one
    that swallows it are both covered.  A script is finite: the stream of
    a turn ends. *)
Inductive hub_script :=
| HubReturn (transcript : option string) (reply : string)
| HubRaise (e : exn)
| HubChunk (chunk : bytes) (next : result unit -> hub_script).

(** The number of chunks delivered when the callback never raises. *)
Fixpoint chunks_delivered (h : hub_script) : nat :=
  match h with
  | HubChunk _ next => S (chunks_delivered (next (Ok tt)))
  | _ => 0
  end.

(** How a call on the player subprocess can fail.  These are operating
    system calls on a pipe and a child process: what they raise derives
    from [OSError] or [ValueError], hence from [Exception]. *)
Inductive os_error :=
| EPIPE
| OtherError (msg : string).

Definition exn_of (e : os_error) : exn :=
  match e with
  | EPIPE => {| Exn.cls := Exn.BrokenPipeError; Exn.msg := "Broken pipe" |}
  | OtherError msg => {| Exn.cls := Exn.OtherException; Exn.msg := msg |}
  end.

Definition timeout_expired : exn :=
  {| Exn.cls := Exn.TimeoutExpired; Exn.msg := "timed out" |}.

(** The outcome of an operating system call: [None] when it succeeds. *)
Definition os_call (r : option os_error) : result unit :=
  match r with
  | None => Ok tt
  | Some e => Raise (exn_of e)
  end.

(** What the outside does during one turn.  The microphone and the hub
    are code of another package and may raise anything; [wait] either
    returns or raises [TimeoutExpired]. *)
Record turn_env := TurnEnv {
  mic_record   : result bytes;             (* self._mic.record(auto_stop=True) *)
  hub_voice    : hub_script;               (* self._hub.voice_pipeline(...) *)
  hub_chat     : result string;            (* self._hub.chat(text) *)
  popen_result : option os_error;          (* subprocess.Popen(...) *)
  write_result : nat -> option os_error;   (* the n-th stdin.write(chunk) *)
  close_result : option os_error;          (* stdin.close() *)
  wait_timeout : bool                      (* wait(timeout=30) times out *)
}.

(** ** The monad *)

Definition M (A : Type) : Type := world -> result A * world * trace.

Definition ret {A} (a : A) : M A := fun w => (Ok a, w, []).

Definition raise {A} (e : exn) : M A := fun w => (Raise e, w, []).

Definition bind {A B} (m : M A) (f : A -> M B) : M B :=
  fun w =>
    match m w with
    | (Ok a, w1, t1) => let '(r, w2, t2) := f a w1 in (r, w2, t1 ++ t2)
    | (Raise e, w1, t1) => (Raise e, w1, t1)
    end.

Notation "x <- m ;; k" := (bind m (fun x => k))
  (at level 61, m at next level, right associativity).
Notation "m ;; k" := (bind m (fun _ => k))
  (at level 61, right associativity).

Definition emit (ev : event) : M unit := fun w => (Ok tt, w, [ev]).

Definition of_result {A} (r : result A) : M A := fun w => (r, w, []).

Definition get_client : M client := fun w => (Ok (cl w), w, []).

Definition get_frame : M frame := fun w => (Ok (fr w), w, []).

Definition put_frame (f : frame) : M unit :=
  fun w => (Ok tt, {| cl := cl w; fr := f |}, []).

Definition put_client (c : client) : M unit :=
  fun w => (Ok tt, {| cl := c; fr := fr w |}, []).

(** [try: body / except C as e: handler e] *)
Definition try_except {A} (body : M A) (catches : exn -> bool)
    (handler : exn -> M A) : M A :=
  fun w =>
    match body w with
    | (Raise e, w1, t1) =>
        if catches e
        then let '(r, w2, t2) := handler e w1 in (r, w2, t1 ++ t2)
        else (Raise e, w1, t1)
    | done => done
    end.

(** [try: body / finally: fin]: [fin] runs however [body] ended; the
    outcome is that of [body] unless [fin] itself raises. *)
Definition try_finally {A} (body : M A) (fin : M unit) : M A :=
  fun w =>
    let '(r, w1, t1) := body w in
    match fin w1 with
    | (Ok _, w2, t2) => (r, w2, t1 ++ t2)
    | (Raise e, w2, t2) => (Raise e, w2, t1 ++ t2)
    end.

Definition outcome {A} (x : result A * world * trace) : result A := fst (fst x).
Definition final {A} (x : result A * world * trace) : world := snd (fst x).
Definition events {A} (x : result A * world * trace) : trace := snd x.

(** ** Output helpers *)

Definition _status (s : status) : M unit := emit (EvStatus s).

Definition print (p : printed) : M unit := emit (EvPrint p).

(** [_prompt] *)
Definition _prompt : M unit :=
  c <- get_client ;;
  if text_mode c then print (Prompt PromptText)
  else if wake_engine c then print (Prompt (PromptWake (wake_model c)))
  else print (Prompt PromptVoice).

(** [self._processing = b] *)
Definition set_processing (b : bool) : M unit :=
  fun w => (Ok tt, {| cl := with_processing b (cl w); fr := fr w |},
            [EvSetProcessing b]).

(** ** Audio playback *)

(** [_start_player] *)
Definition _start_player (env : turn_env) : M (option proc) :=
  c <- get_client ;;
  match player_cmd c with
  | [] => ret None
  | cmd =>
      match popen_result env with
      | None => emit (EvSpawn cmd) ;;
                ret (Some {| stdin_closed := false; written := 0 |})
      | Some e => emit (EvSpawnFailed cmd) ;; raise (exn_of e)
      end
  end.

(** [player_proc.stdin.write(chunk)] *)
Definition stdin_write (env : turn_env) (p : proc) (chunk : bytes) : M unit :=
  f <- get_frame ;;
  put_frame {| player_proc := Some {| stdin_closed := stdin_closed p;
                                      written := S (written p) |};
               first_chunk := first_chunk f |} ;;
  emit (EvWrite chunk) ;;
  of_result (os_call (write_result env (written p))).

(** [player_proc.stdin.close()] *)
Definition stdin_close (env : turn_env) (p : proc) : M unit :=
  f <- get_frame ;;
  put_frame {| player_proc := Some {| stdin_closed := true;
                                      written := written p |};
               first_chunk := first_chunk f |} ;;
  emit EvStdinClose ;;
  of_result (os_call (close_result env)).

(** [player_proc.wait(timeout=30)] *)
Definition proc_wait (env : turn_env) (timeout : nat) : M unit :=
  emit (EvWait timeout) ;;
  if wait_timeout env then raise timeout_expired else ret tt.

(** [player_proc.kill()] *)
Definition proc_kill : M unit := emit EvKill.

(** The callback [_on_chunk] of [_run_pipeline]. *)
Definition _on_chunk (env : turn_env) (chunk : bytes) : M unit :=
  f <- get_frame ;;
  (if first_chunk f then
     put_frame {| player_proc := player_proc f; first_chunk := false |} ;;
     _status Speaking ;;
     p <- _start_player env ;;
     put_frame {| player_proc := p; first_chunk := false |} ;;
     match p with
     | None => print NoPlayerWarning
     | Some _ => ret tt
     end
   else ret tt) ;;
  f <- get_frame ;;
  match player_proc f with
  | Some p =>
      if negb (stdin_closed p)
      then try_except (stdin_write env p chunk)
                      Exn.is_BrokenPipeError (fun _ => ret tt)
      else ret tt
  | None => ret tt
  end.

(** [self._hub.voice_pipeline(wav_bytes, session_id=..., on_audio_chunk=...)]
    played against a script. *)
Fixpoint play_script (on_chunk : bytes -> M unit) (h : hub_script)
    : M (option string * string) :=
  match h with
  | HubReturn transcript reply => ret (transcript, reply)
  | HubRaise e => raise e
  | HubChunk chunk next =>
      fun w =>
        let '(r, w1, t1) := on_chunk chunk w in
        let '(r2, w2, t2) := play_script on_chunk (next r) w1 in
        (r2, w2, t1 ++ t2)
  end.

Definition voice_pipeline (env : turn_env) (wav : bytes)
    (on_chunk : bytes -> M unit) : M (option string * string) :=
  c <- get_client ;;
  emit (EvVoicePipeline wav (session_id c)) ;;
  play_script on_chunk (hub_voice env).

(** The [finally] block of [_run_pipeline]. *)
Definition close_player (env : turn_env) : M unit :=
  f <- get_frame ;;
  match player_proc f with
  | Some p =>
      try_except (stdin_close env p) Exn.is_Exception (fun _ => ret tt) ;;
      try_except (proc_wait env 30) Exn.is_TimeoutExpired (fun _ => proc_kill)
  | None => ret tt
  end.

(** [if transcript:] *)
Definition truthy (transcript : option string) : option string :=
  match transcript with
  | Some EmptyString | None => None
  | Some s => Some s
  end.

(** [_run_pipeline] *)
Definition _run_pipeline (env : turn_env) (wav_bytes : bytes) : M unit :=
  _status ThinkingVoice ;;
  put_frame {| player_proc := None; first_chunk := true |} ;;
  tr <- try_finally (voice_pipeline env wav_bytes (_on_chunk env))
                    (close_player env) ;;
  print Blank ;;
  match truthy (fst tr) with
  | Some transcript =>
      print (YouSaid transcript) ;; print (NiaSaid (snd tr))
  | None => _status NothingTranscribed
  end ;;
  print Blank.

(** ** Turns *)

(** [self._mic.record(auto_stop=True)] *)
Definition record (env : turn_env) : M bytes :=
  emit EvRecord ;; of_result (mic_record env).

(** The body of the [try] of [_run_voice]; the [return] after "Nothing
    captured" leaves the [try], so the pipeline is the other branch. *)
Definition voice_body (env : turn_env) : M unit :=
  _status Listening ;;
  wav_bytes <- record env ;;
  if Nat.ltb (List.length wav_bytes) 2500
  then _status NothingCaptured
  else _run_pipeline env wav_bytes.

(** The [finally] of [_run_voice] and of [_run_text]. *)
Definition leave : M unit :=
  set_processing false ;; _prompt.

(** [_run_voice] *)
Definition _run_voice (env : turn_env) : M unit :=
  set_processing true ;;
  try_finally
    (try_except (voice_body env) Exn.is_Exception
                (fun e => _status (ErrorStatus e) ;; print Traceback))
    leave.

(** [self._hub.chat(text)] *)
Definition chat (env : turn_env) (text : string) : M string :=
  emit (EvChat text) ;; of_result (hub_chat env).

Definition text_body (env : turn_env) (text : string) : M unit :=
  print (Echo text) ;;
  _status ThinkingText ;;
  reply <- chat env text ;;
  print Blank ;;
  print (NiaSaid reply) ;;
  print Blank.

(** [_run_text] *)
Definition _run_text (env : turn_env) (text : string) : M unit :=
  set_processing true ;;
  try_finally
    (try_except (text_body env text) Exn.is_Exception
                (fun e => _status (ErrorStatus e)))
    leave.

(** ** Wake word *)

(** [_on_wake_detected]: the closure [_run] is started as a thread. *)
Definition _on_wake_detected : M unit :=
  c <- get_client ;;
  if processing c then
    (if wake_engine c then emit EvResume else ret tt)
  else emit (EvThread WakeTurn).

(** The closure [_run] of [_on_wake_detected]. *)
Definition wake_run (env : turn_env) : M unit :=
  _run_voice env ;;
  c <- get_client ;;
  if wake_engine c then emit EvResume else ret tt.

(** What a started thread runs. *)
Definition run_task (env : turn_env) (t : task) : M unit :=
  match t with
  | VoiceTurn => _run_voice env
  | TextTurn text => _run_text env text
  | WakeTurn => wake_run env
  end.

(** ** Text of a command line *)

Module Str.

Local Open Scope nat_scope.

(** [str.isspace] below code point 256. *)
Definition isspace (c : ascii) : bool :=
  let n := nat_of_ascii c in
  ((9 <=? n) && (n <=? 13)) || ((28 <=? n) && (n <=? 32))
  || (n =? 133) || (n =? 160).

Fixpoint lstrip (s : string) : string :=
  match s with
  | String c s' => if isspace c then lstrip s' else s
  | EmptyString => EmptyString
  end.

Fixpoint rstrip (s : string) : string :=
  match s with
  | EmptyString => EmptyString
  | String c s' =>
      match rstrip s' with
      | EmptyString => if isspace c then EmptyString
                       else String c EmptyString
      | r => String c r
      end
  end.

(** [s.strip()] *)
Definition strip (s : string) : string := rstrip (lstrip s).

(** [str.lower] on one code point below 256: the letters A-Z and the
    Latin-1 capitals (all of 192..222 but the multiplication sign). *)
Definition lower_char (c : ascii) : ascii :=
  let n := nat_of_ascii c in
  if ((65 <=? n) && (n <=? 90))
     || ((192 <=? n) && (n <=? 222) && negb (n =? 215))
  then ascii_of_nat (n + 32)
  else c.

(** [s.lower()] *)
Fixpoint lower (s : string) : string :=
  match s with
  | EmptyString => EmptyString
  | String c s' => String (lower_char c) (lower s')
  end.

(** The capital of an ASCII letter. *)
Definition upper_char (c : ascii) : ascii :=
  let n := nat_of_ascii c in
  if (97 <=? n) && (n <=? 122) then ascii_of_nat (n - 32) else c.

(** [s.startswith(p)] *)
Definition startswith (s p : string) : bool := String.prefix p s.

(** [s[n:]] *)
Fixpoint drop (n : nat) (s : string) : string :=
  match n, s with
  | S n', String _ s' => drop n' s'
  | _, _ => s
  end.

(** [s[:n]] *)
Fixpoint take (n : nat) (s : string) : string :=
  match n, s with
  | S n', String c s' => String c (take n' s')
  | _, _ => EmptyString
  end.

(** [s in (t1, ..., tn)] *)
Definition mem (s : string) (ts : list string) : bool :=
  existsb (String.eqb s) ts.

(** [if s:] *)
Definition nonempty (s : string) : bool :=
  match s with EmptyString => false | _ => true end.

(** [s'] is [s] with some of its letters capitalised. *)
Inductive capitalization : string -> string -> Prop :=
| cap_nil : capitalization EmptyString EmptyString
| cap_keep c s s' :
    capitalization s s' -> capitalization (String c s) (String c s')
| cap_upper c s s' :
    capitalization s s' ->
    capitalization (String c s) (String (upper_char c) s').

End Str.

(** ** Session identifiers *)

Module Uuid.

Local Open Scope nat_scope.

(** [uuid.uuid4()] is [UUID(bytes=os.urandom(16), version=4)]: the 16
    random bytes read as a big-endian integer [rnd], with the variant
    and version bits overwritten as in [UUID.__init__]. *)
Definition uuid4 (rnd : Z) : Z :=
  let i := Z.land rnd (Z.lnot (Z.shiftl 0xc000 48)) in
  let i := Z.lor i (Z.shiftl 0x8000 48) in
  let i := Z.land i (Z.lnot (Z.shiftl 0xf000 64)) in
  Z.lor i (Z.shiftl 4 76).

Definition hex_digit (n : Z) : ascii :=
  match n with
  | 0 => "0" | 1 => "1" | 2 => "2" | 3 => "3" | 4 => "4" | 5 => "5"
  | 6 => "6" | 7 => "7" | 8 => "8" | 9 => "9" | 10 => "a" | 11 => "b"
  | 12 => "c" | 13 => "d" | 14 => "e" | _ => "f"
  end%Z%char.

(** The [k] lowest hexadecimal digits of [x], highest first. *)
Fixpoint hex_fixed (k : nat) (x : Z) : string :=
  match k with
  | O => EmptyString
  | S k' =>
      String (hex_digit (Z.land (Z.shiftr x (4 * Z.of_nat k')) 15))
             (hex_fixed k' x)
  end.

(** [UUID.hex], that is ['%032x' % self.int]; a UUID is below [2^128],
    so the 32 digits are all of it. *)
Definition hex (u : Z) : string := hex_fixed 32 u.

(** [uuid.uuid4().hex[:12]] *)
Definition new_session_id (rnd : Z) : string :=
  Str.take 12 (hex (uuid4 rnd)).

Definition is_hex_char (c : ascii) : bool :=
  let n := nat_of_ascii c in
  ((48 <=? n) && (n <=? 57)) || ((97 <=? n) && (n <=? 102)).

Fixpoint all_hex (s : string) : bool :=
  match s with
  | EmptyString => true
  | String c s' => is_hex_char c && all_hex s'
  end.

(** Reading a hexadecimal string back. *)
Definition digit_value (c : ascii) : Z :=
  let n := Z.of_nat (nat_of_ascii c) in
  (if n <=? 57 then n - 48 else n - 87)%Z.

Fixpoint hex_value (acc : Z) (s : string) : Z :=
  match s with
  | EmptyString => acc
  | String c s' => hex_value (16 * acc + digit_value c)%Z s'
  end.

End Uuid.

(** ** The command loop *)

(** What the outside does during one iteration of the loop of [start]:
    the line read (or the exception of [input()]), the 16 random bytes of
    [uuid4] as an integer, and how [reset_conversation] ends. *)
Record loop_env := LoopEnv {
  input_line   : result string;
  uuid_random  : Z;
  reset_result : result unit
}.

Inductive flow := Continue | Break.

Definition start_thread (t : task) : M unit := emit (EvThread t).

Definition set_session_id (s : string) : M unit :=
  c <- get_client ;; put_client (with_session_id s c).

(** [self._hub.reset_conversation()] *)
Definition reset_conversation (le : loop_env) : M unit :=
  emit EvResetConversation ;; of_result (reset_result le).

(** The part of an iteration after [line = input()]. *)
Definition dispatch (le : loop_env) (line : string) : M flow :=
  let cmd := Str.strip line in
  let lower := Str.lower cmd in
  if Str.mem lower ["q"; "quit"; "exit"] then ret Break
  else if Str.mem lower ["r"; "reset"] then
    set_session_id (Uuid.new_session_id (uuid_random le)) ;;
    reset_conversation le ;;
    c <- get_client ;;
    print (ConversationReset (Str.take 8 (session_id c))) ;;
    _prompt ;;
    ret Continue
  else
    c <- get_client ;;
    if processing c then
      print StillProcessing ;; _prompt ;; ret Continue
    else if Str.startswith lower "t " && (2 <? String.length cmd)%nat
            && Str.nonempty (Str.strip (Str.drop 2 cmd))
    then start_thread (TextTurn (Str.strip (Str.drop 2 cmd))) ;; ret Continue
    else if text_mode c then
      (if Str.nonempty cmd then start_thread (TextTurn cmd) else _prompt) ;;
      ret Continue
    else start_thread VoiceTurn ;; ret Continue.

(** One iteration of [while self._running]. *)
Definition iteration (le : loop_env) : M flow :=
  line <- try_except (l <- of_result (input_line le) ;; ret (Some l))
                     Exn.is_EOF_or_Interrupt (fun _ => ret None) ;;
  match line with
  | None => ret Break
  | Some l => dispatch le l
  end.

(** [stop] *)
Definition stop : M unit :=
  c <- get_client ;;
  put_client (with_running false c) ;;
  (if wake_engine c then
     emit EvEngineStop ;;
     c' <- get_client ;; put_client (with_wake_engine false c')
   else ret tt) ;;
  print Goodbye.

(** The loop, over what the outside does at each iteration.  When the
    list is used up the standard input is at its end and [input()] raises
    [EOFError]. *)
Fixpoint while_running (inputs : list loop_env) : M unit :=
  c <- get_client ;;
  if running c then
    match inputs with
    | [] => ret tt
    | le :: rest =>
        f <- iteration le ;;
        match f with
        | Break => ret tt
        | Continue => while_running rest
        end
    end
  else ret tt.

(** [start], from [self._running = True] on, when no signal arrives
    (the handlers it installs are in [Signals.start]). *)
Definition start (inputs : list loop_env) : M unit :=
  c <- get_client ;;
  put_client (with_running true c) ;;
  _prompt ;;
  while_running inputs ;;
  stop.

(** ** Signals *)

Module Signals.

(** Right after [self._running = True], [start] makes
    [lambda *_: self.stop()] the handler of SIGINT and of SIGTERM.
    Python runs a handler in the main thread, which from then on is
    waiting in [input()] but for the moments in which it handles a line:
    a signal that arrives there is handled while the read is pending, the
    handler returns without raising, and the read goes on to deliver its
    line or its exception.  [arrivals] is the number of signals handled
    during the read of one iteration; the rest of the iteration is
    [outside].  A signal handled between two other statements of the main
    thread is not part of this model. *)
Record read_env := ReadEnv {
  arrivals : nat;
  outside  : loop_env
}.

(** The handler, once for each signal. *)
Fixpoint handlers (n : nat) : M unit :=
  match n with
  | O => ret tt
  | S k => stop ;; handlers k
  end.

(** [input()] *)
Definition input (re : read_env) : M string :=
  handlers (arrivals re) ;; of_result (input_line (outside re)).

(** One iteration of [while self._running]. *)
Definition iteration (re : read_env) : M flow :=
  line <- try_except (l <- input re ;; ret (Some l))
                     Exn.is_EOF_or_Interrupt (fun _ => ret None) ;;
  match line with
  | None => ret Break
  | Some l => dispatch (outside re) l
  end.

Fixpoint while_running (inputs : list read_env) : M unit :=
  c <- get_client ;;
  if running c then
    match inputs with
    | [] => ret tt
    | re :: rest =>
        f <- iteration re ;;
        match f with
        | Break => ret tt
        | Continue => while_running rest
        end
    end
  else ret tt.

(** [start], from [self._running = True] on. *)
Definition start (inputs : list read_env) : M unit :=
  c <- get_client ;;
  put_client (with_running true c) ;;
  _prompt ;;
  while_running inputs ;;
  stop.

(** An iteration during which no signal arrives. *)
Definition undisturbed (le : loop_env) : read_env :=
  {| arrivals := 0; outside := le |}.

End Signals.

(** ** Threads *)

Module Interleaving.

(** The turns run on threads of their own, beside the main thread that
    reads the lines and the detector's thread that calls
    [_on_wake_detected].  The busy flag is all they share that matters
    here, so a thread is followed through three places only; its body,
    between the first statement and the [finally], does not touch the
    client. *)

(** Where a started thread is: not yet at its first statement, between
    [self._processing = True] and the [finally], or done. *)
Inductive pc := Spawned | InBody | Finished.

Record thread := Thread { job : task; at_pc : pc }.

(** The client object shared by the threads, the threads started so far,
    and whether the loop of [start] is still reading lines. *)
Record sys := Sys {
  shared : client;
  pool   : list thread;
  alive  : bool
}.

(** What can happen next: the main thread reads a line and handles it,
    the detector calls [_on_wake_detected], thread [i] executes its first
    statement, thread [i] executes its [finally]. *)
Inductive label :=
| Line (le : loop_env)
| Wake
| Enter (i : nat)
| Leave (i : nat).

Definition is_trigger (l : label) : bool :=
  match l with Line _ | Wake => true | _ => false end.

(** The threads started by a handler, from its [Thread(...).start()]. *)
Fixpoint threads_of (t : trace) : list thread :=
  match t with
  | [] => []
  | EvThread j :: t' => {| job := j; at_pc := Spawned |} :: threads_of t'
  | _ :: t' => threads_of t'
  end.

(** Handlers run outside [_run_pipeline]; its local variables are not
    theirs. *)
Definition on_client {A} (m : M A) (c : client) : result A * client * trace :=
  let '(r, w, t) := m (mk_world c None true) in (r, cl w, t).

(** Moves thread [i] from [from] to [to], if that is where it is. *)
Fixpoint advance (i : nat) (from to : pc) (p : list thread)
    : option (list thread) :=
  match p, i with
  | [], _ => None
  | th :: p', O =>
      match at_pc th, from with
      | Spawned, Spawned | InBody, InBody | Finished, Finished =>
          Some ({| job := job th; at_pc := to |} :: p')
      | _, _ => None
      end
  | th :: p', S i' =>
      match advance i' from to p' with
      | Some q => Some (th :: q)
      | None => None
      end
  end.

Definition step (l : label) (s : sys) : option sys :=
  match l with
  | Line le =>
      if alive s && running (shared s) then
        let '(r, c, t) := on_client (iteration le) (shared s) in
        match r with
        | Ok Continue =>
            Some {| shared := c; pool := pool s ++ threads_of t;
                    alive := true |}
        | Ok Break =>
            let '(_, c', _) := on_client stop c in
            Some {| shared := c'; pool := pool s ++ threads_of t;
                    alive := false |}
        | Raise _ =>
            Some {| shared := c; pool := pool s ++ threads_of t;
                    alive := false |}
        end
      else None
  | Wake =>
      let '(_, c, t) := on_client _on_wake_detected (shared s) in
      Some {| shared := c; pool := pool s ++ threads_of t; alive := alive s |}
  | Enter i =>
      match advance i Spawned InBody (pool s) with
      | Some p =>
          let '(_, c, _) := on_client (set_processing true) (shared s) in
          Some {| shared := c; pool := p; alive := alive s |}
      | None => None
      end
  | Leave i =>
      match advance i InBody Finished (pool s) with
      | Some p =>
          let '(_, c, _) := on_client leave (shared s) in
          Some {| shared := c; pool := p; alive := alive s |}
      | None => None
      end
  end.

(** A schedule, run from [s]; [None] when a step is not possible. *)
Fixpoint run (ls : list label) (s : sys) : option sys :=
  match ls with
  | [] => Some s
  | l :: ls' =>
      match step l s with
      | Some s' => run ls' s'
      | None => None
      end
  end.

Definition is_at (p : pc) (th : thread) : bool :=
  match at_pc th, p with
  | Spawned, Spawned | InBody, InBody | Finished, Finished => true
  | _, _ => false
  end.

(** The turn bodies executing, and the threads started but not yet at
    their first statement. *)
Definition bodies (s : sys) : nat := List.length (filter (is_at InBody) (pool s)).
Definition pending (s : sys) : nat := List.length (filter (is_at Spawned) (pool s)).

(** A schedule in which triggers are handled one after the other and
    none is handled while a started thread has yet to set the flag. *)
Fixpoint run_unhurried (ls : list label) (s : sys) : option sys :=
  match ls with
  | [] => Some s
  | l :: ls' =>
      if is_trigger l && negb (Nat.eqb (pending s) 0) then None
      else match step l s with
           | Some s' => run_unhurried ls' s'
           | None => None
           end
  end.

(** At most one thread is alive, and none is in its body unless the flag
    is set. *)
Definition single_flight (s : sys) : Prop :=
  pending s + bodies s <= 1 /\
  (processing (shared s) = false -> bodies s = 0).

Definition boot (c : client) : sys :=
  {| shared := with_running true (with_processing false c);
     pool := []; alive := true |}.

Definition enter_key : loop_env :=
  {| input_line := Ok ""; uuid_random := 0; reset_result := Ok tt |}.

End Interleaving.

(** ** Player discovery *)

(** How [subprocess.run([candidate, flag], capture_output=True,
    check=True)] ends: the program ran and exited with status 0, it is
    not there ([FileNotFoundError]), it exited with another status
    ([CalledProcessError]), or the call raised something else (a file
    that may not be executed, say), which [_find_player] does not
    catch. *)
Inductive probe_outcome :=
| Ran
| FileNotFound
| CalledProcessError
| ProbeRaises (e : exn).

(** One of the two [for] loops of [_find_player]: the first candidate
    that runs gives the command; [None] when the loop falls through. *)
Fixpoint first_player (probe : list string -> probe_outcome)
    (flag : string) (args : list string) (candidates : list string)
    : result (option (list string)) :=
  match candidates with
  | [] => Ok None
  | candidate :: rest =>
      match probe [candidate; flag] with
      | Ran => Ok (Some (candidate :: args))
      | FileNotFound | CalledProcessError => first_player probe flag args rest
      | ProbeRaises e => Raise e
      end
  end.

Definition ffplay_args : list string :=
  ["-nodisp"; "-autoexit"; "-i"; "pipe:0"; "-loglevel"; "quiet"].

Definition mpv_args : list string :=
  ["--no-video"; "--no-terminal"; "--no-cache"; "-"].

(** [_find_player] *)
Definition _find_player (probe : list string -> probe_outcome)
    : result (list string) :=
  match first_player probe "-version" ffplay_args
          ["/opt/homebrew/bin/ffplay"; "ffplay"] with
  | Raise e => Raise e
  | Ok (Some cmd) => Ok cmd
  | Ok None =>
      match first_player probe "--version" mpv_args
              ["/opt/homebrew/bin/mpv"; "mpv"] with
      | Raise e => Raise e
      | Ok (Some cmd) => Ok cmd
      | Ok None => Ok []
      end
  end.

(** ** Construction *)

(** What the outside does while a client is constructed: how the
    constructors of the hub client and of the microphone end, the 16
    random bytes of [uuid4] as an integer, and the probes of
    [_find_player]. *)
Record init_env := InitEnv {
  new_hub     : result unit;                       (* NiaHubClient() *)
  new_mic     : result unit;                       (* MicCapture() *)
  init_random : Z;                                 (* uuid.uuid4() *)
  probe       : list string -> probe_outcome
}.

(** [NiaMacClient.__init__] *)
Definition __init__ (ie : init_env) (text_mode : bool)
    (wake_model : option string) : result client :=
  match new_hub ie with
  | Raise e => Raise e
  | Ok _ =>
      match new_mic ie with
      | Raise e => Raise e
      | Ok _ =>
          match _find_player (probe ie) with
          | Raise e => Raise e
          | Ok cmd =>
              Ok {| session_id := Uuid.new_session_id (init_random ie);
                    processing := false;
                    running := false;
                    text_mode := text_mode;
                    wake_model := wake_model;
                    wake_engine := false;
                    player_cmd := cmd |}
          end
      end
  end.

(** ** Start-up *)

Module Boot.

(** The module [nia_voice_core.config], as far as this file reads it; an
    unset variable is the empty string, which Python also takes for
    false. *)
Record config := Config {
  NIA_HUB_URL  : string;
  NIA_API_KEY  : string;
  NIA_HUB_CERT : string;
  NIA_ROOM     : string
}.

(** The keys of the AI configuration that [_connect] prints; [None] for
    a key that is not there. *)
Record ai_config := AiConfig {
  llm_model    : option string;
  stt_base_url : option string;
  tts_base_url : option string
}.

(** [ai_cfg.get(key, default)] *)
Definition get (v : option string) (default : string) : string :=
  match v with Some s => s | None => default end.

(** What the outside does during start-up: the path [_load_env] found,
    how each call on the hub ends (an empty or missing AI configuration
    is [None]), and how the wake engine is created and started. *)
Record boot_env := BootEnv {
  env_path             : string;                      (* _ENV_PATH *)
  connect_with_retry   : result nat;
  fetch_device_config  : result unit;
  fetch_ai_config      : result (option ai_config);
  apply_ai_config      : result unit;
  fetch_system_context : result unit;
  apply_device_config  : result unit;
  first_reset          : result unit;                 (* reset_conversation() *)
  new_engine           : result unit;                 (* OpenWakeWordEngine(...) *)
  engine_start         : result bool                  (* self._wake_engine.start() *)
}.

Inductive mode := WakeMode (model : string) | TextMode | VoiceMode.

(** What start-up prints. *)
Inductive notice :=
| Banner
| ConfigPath (path : string)
| MissingVariable (name : string)
| Connecting (url : string)
| ToolsLoaded (n : nat)
| Room (room : string)
| Models (llm stt tts : string)
| ConnectionFailed (e : exn) (url : string)
| NoPlayerNotice
| Rule
| Ready (m : mode) (sid8 : string) (pinned : bool)
| EmptyLine.

(** The calls of start-up on the hub and on the wake engine. *)
Inductive hub_call :=
| ConnectWithRetry (max_retries : nat)
| FetchDeviceConfig
| FetchAiConfig
| ApplyAiConfig
| FetchSystemContext
| ApplyDeviceConfig
| ResetConversation.

Inductive setup_event :=
| Say (n : notice)
| Hub (c : hub_call)
| NewEngine (model : string)
| EngineStart.

(** Start-up collects its events and carries exceptions; it keeps no
    state but the client it hands on. *)
Definition S (A : Type) : Type := list setup_event * result A.

Definition unit_ {A} (a : A) : S A := ([], Ok a).

Definition then_ {A B} (m : S A) (f : A -> S B) : S B :=
  match m with
  | (t1, Ok a) => let '(t2, r) := f a in (t1 ++ t2, r)
  | (t1, Raise e) => (t1, Raise e)
  end.

Definition say (n : notice) : S unit := ([Say n], Ok tt).

Definition call {A} (c : hub_call) (r : result A) : S A := ([Hub c], r).

(** [try: m / except Exception as e: handler e] *)
Definition rescue {A} (m : S A) (handler : exn -> S A) : S A :=
  match m with
  | (t1, Raise e) =>
      if Exn.is_Exception e
      then let '(t2, r) := handler e in (t1 ++ t2, r)
      else (t1, Raise e)
  | done => done
  end.

(** [_connect] *)
Definition _connect (cfg : config) (be : boot_env) : S unit :=
  then_ (say (Connecting (NIA_HUB_URL cfg))) (fun _ =>
  then_ (call (ConnectWithRetry 3) (connect_with_retry be)) (fun n =>
  then_ (say (ToolsLoaded n)) (fun _ =>
  then_ (call FetchDeviceConfig (fetch_device_config be)) (fun _ =>
  then_ (call FetchAiConfig (fetch_ai_config be)) (fun ai_cfg =>
  then_ (call ApplyAiConfig (apply_ai_config be)) (fun _ =>
  then_ (call FetchSystemContext (fetch_system_context be)) (fun _ =>
  then_ (call ApplyDeviceConfig (apply_device_config be)) (fun _ =>
  then_ (call ResetConversation (first_reset be)) (fun _ =>
  then_ (if Str.nonempty (NIA_ROOM cfg) then say (Room (NIA_ROOM cfg))
         else unit_ tt) (fun _ =>
  match ai_cfg with
  | Some a =>
      say (Models (get (llm_model a) "?") (get (stt_base_url a) "openai")
                  (get (tts_base_url a) "openai"))
  | None => unit_ tt
  end)))))))))).

(** [if self._wake_model and not self._text_mode:] *)
Definition wants_engine (c : client) : option string :=
  match wake_model c with
  | Some (String a s) => if text_mode c then None else Some (String a s)
  | _ => None
  end.

(** The [mode] printed with "Ready!". *)
Definition mode_of (c : client) : mode :=
  if wake_engine c then
    WakeMode (match wake_model c with Some m => m | None => "None" end)
  else if text_mode c then TextMode
  else VoiceMode.

(** [start], down to the line before [self._running = True]: the client
    to run the loop with, or [None] when [start] has returned. *)
Definition startup (cfg : config) (be : boot_env) (c : client)
    : S (option client) :=
  then_ (say Banner) (fun _ =>
  then_ (if Str.nonempty (env_path be) then say (ConfigPath (env_path be))
         else unit_ tt) (fun _ =>
  if negb (Str.nonempty (NIA_HUB_URL cfg)) then
    then_ (say (MissingVariable "NIA_HUB_URL")) (fun _ => unit_ None)
  else if negb (Str.nonempty (NIA_API_KEY cfg)) then
    then_ (say (MissingVariable "NIA_API_KEY")) (fun _ => unit_ None)
  else
    then_ (rescue (then_ (_connect cfg be) (fun _ => unit_ true))
                  (fun e =>
                     then_ (say (ConnectionFailed e (NIA_HUB_URL cfg)))
                           (fun _ => unit_ false)))
          (fun connected =>
    if negb connected then unit_ None
    else
      then_ (if negb (text_mode c) && negb ((match player_cmd c with [] => false | _ => true end))
             then say NoPlayerNotice else unit_ tt) (fun _ =>
      then_ (match wants_engine c with
             | Some model =>
                 then_ ([NewEngine model], new_engine be) (fun _ =>
                 then_ ([EngineStart], engine_start be) (fun started =>
                 unit_ (with_wake_engine started c)))
             | None => unit_ c
             end) (fun c' =>
      then_ (say Rule) (fun _ =>
      then_ (say (Ready (mode_of c') (Str.take 8 (session_id c'))
                        (Str.nonempty (NIA_HUB_CERT cfg)))) (fun _ =>
      then_ (say Rule) (fun _ =>
      then_ (say EmptyLine) (fun _ =>
      unit_ (Some c')))))))))).

(** Everything [start] does, in order. *)
Inductive full_event :=
| Setup (e : setup_event)
| Run (e : event).

(** [start] as a whole. *)
Definition start_client (cfg : config) (be : boot_env)
    (inputs : list Signals.read_env) (c : client)
    : result unit * list full_event :=
  match startup cfg be c with
  | (t, Raise e) => (Raise e, map Setup t)
  | (t, Ok None) => (Ok tt, map Setup t)
  | (t, Ok (Some c')) =>
      let '(r, _, t') := Signals.start inputs (mk_world c' None true) in
      (r, map Setup t ++ map Run t')
  end.

(** ** The command line *)

(** The command line after [parse_args]; [--wake] may come without a
    model. *)
Record args := Args {
  arg_text : bool;
  arg_hub  : option string;
  arg_key  : option string;
  arg_cert : option string;
  arg_wake : option (option string)
}.

(** [nargs="?", const="hey_jarvis"] *)
Definition wake_of (a : args) : option string :=
  match arg_wake a with
  | None => None
  | Some None => Some "hey_jarvis"
  | Some (Some model) => Some model
  end.

(** [if args.x: nia_config.X = args.x] *)
Definition override (given : option string) (configured : string) : string :=
  match given with
  | Some (String c s) => String c s
  | _ => configured
  end.

Definition overridden (a : args) (cfg : config) : config :=
  {| NIA_HUB_URL := override (arg_hub a) (NIA_HUB_URL cfg);
     NIA_API_KEY := override (arg_key a) (NIA_API_KEY cfg);
     NIA_HUB_CERT := override (arg_cert a) (NIA_HUB_CERT cfg);
     NIA_ROOM := NIA_ROOM cfg |}.

(** [main], after [parse_args]; a constructor that raises ends the
    program before any event.  The default it sets for the variable
    [PORTAUDIO_HOSTAPI], which nothing here reads, is left out. *)
Definition main (a : args) (cfg : config) (ie : init_env) (be : boot_env)
    (inputs : list Signals.read_env) : result unit * list full_event :=
  match __init__ ie (arg_text a) (wake_of a) with
  | Raise e => (Raise e, [])
  | Ok c => start_client (overridden a cfg) be inputs c
  end.

End Boot.

(** * Vocabulary of the properties *)

(** ** Observations on a run *)

(** Every event [m] can emit, from any world, satisfies [P]. *)
Definition emits {A} (P : event -> Prop) (m : M A) : Prop :=
  forall w, Forall P (events (m w)).

(** [m] leaves the client object as it found it. *)
Definition keeps_client {A} (m : M A) : Prop :=
  forall w, cl (final (m w)) = cl w.

(** The events of the voice pipeline: everything but the busy flag, the
    detector and the threads. *)
Definition pipeline_event (ev : event) : Prop :=
  match ev with
  | EvSetProcessing _ | EvResume | EvEngineStop | EvThread _
  | EvResetConversation | EvChat _ => False
  | _ => True
  end.

Definition flag_free (ev : event) : Prop :=
  match ev with EvSetProcessing _ => False | _ => True end.

Definition is_release (ev : event) : bool :=
  match ev with EvSetProcessing false => true | _ => false end.

(** How many times a run assigns [False] to [self._processing]. *)
Definition releases (t : trace) : nat := List.length (filter is_release t).

Definition prompt_of (c : client) : prompt_kind :=
  if text_mode c then PromptText
  else if wake_engine c then PromptWake (wake_model c)
  else PromptVoice.

(** A run that took the flag, ran a body that does not touch it, and gave
    it back once, as its last act before the prompt. *)
Definition released_once (x : result unit * world * trace) : Prop :=
  processing (cl (final x)) = false /\
  releases (events x) = 1 /\
  exists body,
    events x = EvSetProcessing true :: body
               ++ [EvSetProcessing false;
                   EvPrint (Prompt (prompt_of (cl (final x))))] /\
    Forall flag_free body.

Definition is_remote_call (ev : event) : bool :=
  match ev with EvVoicePipeline _ _ => true | _ => false end.

Definition is_capture (ev : event) : bool :=
  match ev with EvRecord => true | _ => false end.

Definition is_resume (ev : event) : bool :=
  match ev with EvResume => true | _ => false end.

Definition is_thread (ev : event) : bool :=
  match ev with EvThread _ => true | _ => false end.

Definition opens_sink (ev : event) : bool :=
  match ev with
  | EvSpawn _ | EvSpawnFailed _ | EvPrint NoPlayerWarning => true
  | _ => false
  end.

Definition is_spawn (ev : event) : bool :=
  match ev with EvSpawn _ => true | _ => false end.

Definition is_close (ev : event) : bool :=
  match ev with EvStdinClose | EvWait _ | EvKill => true | _ => false end.

Definition is_report (ev : event) : bool :=
  match ev with
  | EvPrint Blank | EvPrint (YouSaid _) | EvPrint (NiaSaid _)
  | EvStatus NothingTranscribed => true
  | _ => false
  end.

Definition has_player (w : world) : bool :=
  match player_proc (fr w) with Some _ => true | None => false end.

(** What the [finally] of [_run_pipeline] does to a player. *)
Definition closing (env : turn_env) : trace :=
  EvStdinClose :: EvWait 30 :: (if wait_timeout env then [EvKill] else []).

(** What [_on_chunk] attempts on the first chunk. *)
Definition opening (env : turn_env) (c : client) : event :=
  match player_cmd c with
  | [] => EvPrint NoPlayerWarning
  | cmd => match popen_result env with
           | None => EvSpawn cmd
           | Some _ => EvSpawnFailed cmd
           end
  end.

Definition after_write (p : proc) : proc :=
  {| stdin_closed := stdin_closed p; written := S (written p) |}.

(** The write of [_on_chunk], with its [except BrokenPipeError: pass]. *)
Definition write_outcome (r : option os_error) : result unit :=
  match r with
  | None | Some EPIPE => Ok tt
  | Some (OtherError msg) => Raise (exn_of (OtherError msg))
  end.

(** The same outside, except that every write to the player succeeds. *)
Definition writes_succeed (env : turn_env) : turn_env :=
  {| mic_record := mic_record env;
     hub_voice := hub_voice env;
     hub_chat := hub_chat env;
     popen_result := popen_result env;
     write_result := fun _ => None;
     close_result := close_result env;
     wait_timeout := wait_timeout env |}.

(** The only way a write fails is a broken pipe. *)
Definition only_broken_pipes (env : turn_env) : Prop :=
  forall n e, write_result env n = Some e -> e = EPIPE.

Definition quit_tokens : list string := ["q"; "quit"; "exit"].
Definition reset_tokens : list string := ["r"; "reset"].

Definition is_quit (line : string) : bool :=
  Str.mem (Str.lower (Str.strip line)) quit_tokens.

Definition is_reset (line : string) : bool :=
  Str.mem (Str.lower (Str.strip line)) reset_tokens.

(** The client after a reset drawn from [rnd]. *)
Definition renamed (rnd : Z) (w : world) : world :=
  {| cl := with_session_id (Uuid.new_session_id rnd) (cl w); fr := fr w |}.

(** What an idle client starts for a line that is neither quit nor
    reset. *)
Definition started (c : client) (line : string) : trace :=
  let cmd := Str.strip line in
  let lower := Str.lower cmd in
  if Str.startswith lower "t " && (2 <? String.length cmd)%nat
     && Str.nonempty (Str.strip (Str.drop 2 cmd))
  then [EvThread (TextTurn (Str.strip (Str.drop 2 cmd)))]
  else if text_mode c then
    (if Str.nonempty cmd then [EvThread (TextTurn cmd)]
     else [EvPrint (Prompt PromptText)])
  else [EvThread VoiceTurn].

(** ** Sample inputs *)

Definition silence : bytes := repeat Byte.x00 2500.

(** A capture too short to be speech. *)
Definition murmur : bytes := repeat Byte.x00 1200.

Definition murmur_env : turn_env :=
  {| mic_record := Ok murmur;
     hub_voice := HubReturn (Some "never asked") "never said";
     hub_chat := Ok "";
     popen_result := None;
     write_result := fun _ => None;
     close_result := None;
     wait_timeout := false |}.

(** The shortest capture that is sent to the hub; the hub hears nothing. *)
Definition quiet_env : turn_env :=
  {| mic_record := Ok silence;
     hub_voice := HubReturn None "";
     hub_chat := Ok "";
     popen_result := None;
     write_result := fun _ => None;
     close_result := None;
     wait_timeout := false |}.

Definition idle_client : client :=
  {| session_id := "0123456789ab"; processing := false; running := true;
     text_mode := false; wake_model := None; wake_engine := false;
     player_cmd := ["ffplay"; "-nodisp"; "-autoexit"; "-i"; "pipe:0";
                    "-loglevel"; "quiet"] |}.

Definition idle : world :=
  {| cl := idle_client; fr := {| player_proc := None; first_chunk := true |} |}.

Definition idle_busy : world :=
  mk_world (with_processing true idle_client) None true.

Definition boom : exn :=
  {| Exn.cls := Exn.OtherException; Exn.msg := "connection reset" |}.

(** One chunk, then the hub call raises; the player does not exit within
    the 30 seconds. *)
Definition raising_env : turn_env :=
  {| mic_record := Ok silence;
     hub_voice := HubChunk [Byte.x49; Byte.x44; Byte.x33]
                           (fun _ => HubRaise boom);
     hub_chat := Ok "";
     popen_result := None;
     write_result := fun _ => None;
     close_result := None;
     wait_timeout := true |}.

(** Three chunks against a player that has gone away. *)
Definition deaf_env : turn_env :=
  {| mic_record := Ok silence;
     hub_voice :=
       HubChunk [Byte.x01] (fun r1 =>
       HubChunk [Byte.x02] (fun r2 =>
       HubChunk [Byte.x03] (fun r3 =>
       match r1, r2, r3 with
       | Ok _, Ok _, Ok _ => HubReturn (Some "turn on the lights") "Done."
       | Raise e, _, _ | _, Raise e, _ | _, _, Raise e => HubRaise e
       end)));
     hub_chat := Ok "";
     popen_result := None;
     write_result := fun _ => Some EPIPE;
     close_result := Some EPIPE;
     wait_timeout := false |}.

Definition armed_client : client :=
  {| session_id := "0123456789ab"; processing := false; running := true;
     text_mode := false; wake_model := Some "hey_jarvis"; wake_engine := true;
     player_cmd := ["ffplay"; "-nodisp"; "-autoexit"; "-i"; "pipe:0";
                    "-loglevel"; "quiet"] |}.

Definition armed : world := mk_world armed_client None true.


(** The identifier of [idle], drawn again. *)
Definition repeating_env : loop_env :=
  {| input_line := Ok "reset";
     uuid_random := 0x0123456789ab4def8123456789abcdef;
     reset_result := Ok tt |}.

Definition reset_env : loop_env :=
  {| input_line := Ok "  ReSet ";
     uuid_random := 0xfedcba98765443218123456789abcdef;
     reset_result := Ok tt |}.

(** A line typed at the prompt, with nothing else going wrong. *)
Definition typed (line : string) : loop_env :=
  {| input_line := Ok line; uuid_random := 0; reset_result := Ok tt |}.

Definition shouting_env : loop_env :=
  {| input_line := Ok "  QuIt ";
     uuid_random := 0;
     reset_result := Ok tt |}.

Definition calm_schedule : list Interleaving.label :=
  [Interleaving.Line Interleaving.enter_key; Interleaving.Enter 0;
   Interleaving.Line Interleaving.enter_key; Interleaving.Wake;
   Interleaving.Leave 0; Interleaving.Wake; Interleaving.Enter 1].

Definition calm_state : Interleaving.sys :=
  {| Interleaving.shared := with_processing true (with_running true idle_client);
     Interleaving.pool :=
       [{| Interleaving.job := VoiceTurn;
           Interleaving.at_pc := Interleaving.Finished |};
        {| Interleaving.job := WakeTurn;
           Interleaving.at_pc := Interleaving.InBody |}];
     Interleaving.alive := true |}.

(** ** Further observations *)

(** The chunks a script hands over when every callback returns. *)
Fixpoint stream (h : hub_script) : list bytes :=
  match h with
  | HubChunk chunk next => chunk :: stream (next (Ok tt))
  | _ => []
  end.

(** How the hub call ends when every callback returns. *)
Fixpoint verdict (h : hub_script) : result (option string * string) :=
  match h with
  | HubReturn transcript reply => Ok (transcript, reply)
  | HubRaise e => Raise e
  | HubChunk _ next => verdict (next (Ok tt))
  end.

(** What [_run_pipeline] prints after its [finally], given how the hub
    call ended: nothing when it raised. *)
Definition report_of (r : result (option string * string)) : trace :=
  match r with
  | Ok (transcript, reply) =>
      EvPrint Blank
      :: match truthy transcript with
         | Some t => [EvPrint (YouSaid t); EvPrint (NiaSaid reply)]
         | None => [EvStatus NothingTranscribed]
         end
      ++ [EvPrint Blank]
  | Raise _ => []
  end.

(** A process after [n] more writes. *)
Definition wrote (n : nat) (p : proc) : proc :=
  {| stdin_closed := stdin_closed p; written := n + written p |}.

Definition is_reply (ev : event) : bool :=
  match ev with EvPrint (NiaSaid _) => true | _ => false end.

Definition is_error (ev : event) : bool :=
  match ev with EvStatus (ErrorStatus _) => true | _ => false end.

(** The world in which [_run_voice] runs its [try]. *)
Definition taken (w : world) : world :=
  {| cl := with_processing true (cl w); fr := fr w |}.

(** ** Further sample inputs *)

(** A client for which [_find_player] found nothing. *)
Definition bare_client : client :=
  {| session_id := "0123456789ab"; processing := false; running := true;
     text_mode := false; wake_model := None; wake_engine := false;
     player_cmd := [] |}.

(** The player cannot be started; the hub lets the callback's exception
    through. *)
Definition jammed_env : turn_env :=
  {| mic_record := Ok silence;
     hub_voice :=
       HubChunk [Byte.x01]
         (fun r => match r with
                   | Ok _ => HubReturn (Some "hello") "Hi."
                   | Raise e => HubRaise e
                   end);
     hub_chat := Ok "";
     popen_result := Some (OtherError "Exec format error");
     write_result := fun _ => None;
     close_result := None;
     wait_timeout := false |}.

(** What [_on_chunk] can hand back to the hub: it returns, or it raises
    what a call on the player raised. *)
Definition callback_result (r : result unit) : Prop :=
  r = Ok tt \/ exists oe, r = Raise (exn_of oe).

(** A hub call that raises, if anything, an [Exception], whatever the
    callbacks hand back. *)
Fixpoint tame_script (h : hub_script) : Prop :=
  match h with
  | HubReturn _ _ => True
  | HubRaise e => Exn.is_Exception e = true
  | HubChunk _ next => forall r, callback_result r -> tame_script (next r)
  end.

(** How the hub call of a pipeline started in [w] ends. *)
Definition hub_call (env : turn_env) (w : world)
    : result (option string * string) :=
  outcome (play_script (_on_chunk env) (hub_voice env)
                       (mk_world (cl w) None true)).

(** What the [except] of [_run_voice] prints for an exception. *)
Definition voice_handler (e : exn) : trace :=
  if Exn.is_Exception e
  then [EvStatus (ErrorStatus e); EvPrint Traceback]
  else [].

(** How a turn ends when its [try] raised [e]: caught, or let through. *)
Definition after_except (e : exn) : result unit :=
  if Exn.is_Exception e then Ok tt else Raise e.

Definition system_exit : exn :=
  {| Exn.cls := Exn.OtherBaseException; Exn.msg := "SystemExit" |}.

(** The microphone code exits the interpreter. *)
Definition exiting_env : turn_env :=
  {| mic_record := Raise system_exit;
     hub_voice := HubReturn None "";
     hub_chat := Ok "";
     popen_result := None;
     write_result := fun _ => None;
     close_result := None;
     wait_timeout := false |}.

(** No input device. *)
Definition unplugged_env : turn_env :=
  {| mic_record := Raise boom;
     hub_voice := HubReturn None "";
     hub_chat := Raise boom;
     popen_result := None;
     write_result := fun _ => None;
     close_result := None;
     wait_timeout := false |}.

(** What the callbacks of a pipeline can emit. *)
Definition stream_event (ev : event) : Prop :=
  match ev with
  | EvStatus Speaking | EvPrint NoPlayerWarning
  | EvSpawn _ | EvSpawnFailed _ | EvWrite _ => True
  | _ => False
  end.

(** The hub hears nothing in what was said. *)
Definition unheard_env : turn_env :=
  {| mic_record := Ok silence;
     hub_voice := HubChunk [Byte.x01] (fun _ => HubReturn (Some "") "Sorry?");
     hub_chat := Ok "";
     popen_result := None;
     write_result := fun _ => None;
     close_result := None;
     wait_timeout := false |}.

(** Two clients that differ at most by their session identifier. *)
Definition same_but_session (c c' : client) : Prop :=
  c' = with_session_id (session_id c') c.

(** An iteration of the loop in which nothing raises past the loop: the
    read returns a line or stops on end of input or an interrupt, and
    [reset_conversation], if called, returns. *)
Definition calm (le : loop_env) : Prop :=
  reset_result le = Ok tt /\
  forall e, input_line le = Raise e -> Exn.is_EOF_or_Interrupt e = true.

Definition is_farewell (ev : event) : bool :=
  match ev with EvPrint Goodbye | EvEngineStop => true | _ => false end.

(** What [stop] does to the engine of a client. *)
Definition engine_stop (c : client) : trace :=
  if wake_engine c then [EvEngineStop] else [].


(** An idle client started with [--text]. *)
Definition typing : world :=
  mk_world {| session_id := "0123456789ab"; processing := false;
              running := true; text_mode := true; wake_model := None;
              wake_engine := false; player_cmd := [] |} None true.

(** ** Observations on signals *)

Definition is_engine_stop (ev : event) : bool :=
  match ev with EvEngineStop => true | _ => false end.

(** The client once [stop] has run. *)
Definition stopped (c : client) : client :=
  with_wake_engine false (with_running false c).

Definition calm_read (re : Signals.read_env) : Prop :=
  calm (Signals.outside re).

Definition no_arrival (re : Signals.read_env) : Prop :=
  Signals.arrivals re = 0.

(** Control-C while the line is being typed. *)
Definition interrupted (line : string) : Signals.read_env :=
  {| Signals.arrivals := 1; Signals.outside := typed line |}.

(** ** Observations on discovery and start-up *)

(** The candidates of [_find_player] in the order in which it tries
    them, each with the flag of its probe and the arguments of its
    command. *)
Definition candidates : list (string * string * list string) :=
  [("/opt/homebrew/bin/ffplay", "-version", ffplay_args);
   ("ffplay", "-version", ffplay_args);
   ("/opt/homebrew/bin/mpv", "--version", mpv_args);
   ("mpv", "--version", mpv_args)].

(** The probe of a candidate. *)
Definition probed (probe : list string -> probe_outcome)
    (c : string * string * list string) : probe_outcome :=
  probe [fst (fst c); snd (fst c)].

(** The probe found no usable program: one of the two exceptions that
    [_find_player] passes over. *)
Definition absent (o : probe_outcome) : Prop :=
  o = FileNotFound \/ o = CalledProcessError.

Definition touches_player (ev : event) : bool :=
  match ev with
  | EvSpawn _ | EvSpawnFailed _ | EvWrite _
  | EvStdinClose | EvWait _ | EvKill => true
  | _ => false
  end.

Fixpoint hub_calls (t : list Boot.setup_event) : list Boot.hub_call :=
  match t with
  | [] => []
  | Boot.Hub c :: t' => c :: hub_calls t'
  | _ :: t' => hub_calls t'
  end.

Definition is_engine_event (ev : Boot.setup_event) : bool :=
  match ev with Boot.NewEngine _ | Boot.EngineStart => true | _ => false end.

(** What start-up prints before it looks at the configuration. *)
Definition preamble (be : Boot.boot_env) : list Boot.setup_event :=
  Boot.Say Boot.Banner
  :: if Str.nonempty (Boot.env_path be)
     then [Boot.Say (Boot.ConfigPath (Boot.env_path be))]
     else [].

(** A laptop with [mpv] on the path only. *)
Definition only_mpv (argv : list string) : probe_outcome :=
  match argv with
  | ["mpv"; "--version"] => Ran
  | ["ffplay"; "-version"] => CalledProcessError
  | _ => FileNotFound
  end.

(** A machine without any player. *)
Definition no_player (argv : list string) : probe_outcome := FileNotFound.

Definition bare_init : init_env :=
  {| new_hub := Ok tt; new_mic := Ok tt;
     init_random := 0x0123456789ab4def8123456789abcdef;
     probe := no_player |}.

(** A machine on which the microphone cannot be opened. *)
Definition broken_init : init_env :=
  {| new_hub := Ok tt; new_mic := Raise boom;
     init_random := 0x0123456789ab4def8123456789abcdef;
     probe := no_player |}.

Definition home_config : Boot.config :=
  {| Boot.NIA_HUB_URL := "https://192.168.39.10:18080";
     Boot.NIA_API_KEY := "secret";
     Boot.NIA_HUB_CERT := "";
     Boot.NIA_ROOM := "study" |}.

(** The hub answers everything; the wake engine starts. *)
Definition good_boot : Boot.boot_env :=
  {| Boot.env_path := ".env";
     Boot.connect_with_retry := Ok 12;
     Boot.fetch_device_config := Ok tt;
     Boot.fetch_ai_config := Ok None;
     Boot.apply_ai_config := Ok tt;
     Boot.fetch_system_context := Ok tt;
     Boot.apply_device_config := Ok tt;
     Boot.first_reset := Ok tt;
     Boot.new_engine := Ok tt;
     Boot.engine_start := Ok true |}.

(** The hub is reached but cannot give the AI configuration. *)
Definition bad_boot : Boot.boot_env :=
  {| Boot.env_path := "";
     Boot.connect_with_retry := Ok 12;
     Boot.fetch_device_config := Ok tt;
     Boot.fetch_ai_config := Raise boom;
     Boot.apply_ai_config := Ok tt;
     Boot.fetch_system_context := Ok tt;
     Boot.apply_device_config := Ok tt;
     Boot.first_reset := Ok tt;
     Boot.new_engine := Ok tt;
     Boot.engine_start := Ok true |}.

(** [nia-mac --wake --key ""] *)
Definition blank_key_args : Boot.args :=
  {| Boot.arg_text := false; Boot.arg_hub := None; Boot.arg_key := Some "";
     Boot.arg_cert := None; Boot.arg_wake := Some None |}.

Definition keyless_config : Boot.config :=
  {| Boot.NIA_HUB_URL := "https://192.168.39.10:18080";
     Boot.NIA_API_KEY := ""; Boot.NIA_HUB_CERT := ""; Boot.NIA_ROOM := "" |}.

(** The exception a call ended with, if any. *)
Definition failure {A} (r : result A) : option exn :=
  match r with Ok _ => None | Raise e => Some e end.

(** How each of the calls of [_connect] on the hub ends. *)
Definition connect_failures (be : Boot.boot_env)
    : list (Boot.hub_call * option exn) :=
  [(Boot.ConnectWithRetry 3, failure (Boot.connect_with_retry be));
   (Boot.FetchDeviceConfig, failure (Boot.fetch_device_config be));
   (Boot.FetchAiConfig, failure (Boot.fetch_ai_config be));
   (Boot.ApplyAiConfig, failure (Boot.apply_ai_config be));
   (Boot.FetchSystemContext, failure (Boot.fetch_system_context be));
   (Boot.ApplyDeviceConfig, failure (Boot.apply_device_config be));
   (Boot.ResetConversation, failure (Boot.first_reset be))].

(** Calls made one after the other, each only if those before it
    returned: the calls made, and how the sequence ends. *)
Fixpoint until_raise (l : list (Boot.hub_call * option exn))
    : list Boot.hub_call * result unit :=
  match l with
  | [] => ([], Ok tt)
  | (c, Some e) :: _ => ([c], Raise e)
  | (c, None) :: rest =>
      let '(cs, r) := until_raise rest in (c :: cs, r)
  end.

(** A new client started with [--wake]: no engine yet. *)
Definition waking_client : client :=
  {| session_id := "0123456789ab"; processing := false; running := false;
     text_mode := false; wake_model := Some "hey_jarvis"; wake_engine := false;
     player_cmd := ["mpv"; "--no-video"; "--no-terminal"; "--no-cache"; "-"] |}.

(** A new client started with [--text --wake]. *)
Definition typing_with_wake : world :=
  mk_world {| session_id := "0123456789ab"; processing := false;
              running := false; text_mode := true;
              wake_model := Some "hey_jarvis"; wake_engine := false;
              player_cmd := [] |} None true.

(** * Properties *)

(** ** The monad *)

Section Emits.

Variable P : event -> Prop.

Lemma emits_ret A (a : A) : emits P (ret a).
Proof. intros w. constructor. Qed.

Lemma emits_raise A e : emits P (@raise A e).
Proof. intros w. constructor. Qed.

Lemma emits_of_result A (r : result A) : emits P (of_result r).
Proof. intros w. constructor. Qed.

Lemma emits_get_client : emits P get_client.
Proof. intros w. constructor. Qed.

Lemma emits_get_frame : emits P get_frame.
Proof. intros w. constructor. Qed.

Lemma emits_put_frame f : emits P (put_frame f).
Proof. intros w. constructor. Qed.

Lemma emits_put_client c : emits P (put_client c).
Proof. intros w. constructor. Qed.

Lemma emits_emit ev : P ev -> emits P (emit ev).
Proof. intros H w. repeat constructor. exact H. Qed.

Lemma emits_bind A B (m : M A) (f : A -> M B) :
  emits P m -> (forall a, emits P (f a)) -> emits P (bind m f).
Proof.
  intros Hm Hf w. unfold bind. specialize (Hm w).
  destruct (m w) as [[[a|e] w1] t1]; cbn in *; [|exact Hm].
  specialize (Hf a w1). destruct (f a w1) as [[r w2] t2]; cbn in *.
  apply Forall_app; split; assumption.
Qed.

Lemma emits_try_except A (m : M A) catches handler :
  emits P m -> (forall e, emits P (handler e)) ->
  emits P (try_except m catches handler).
Proof.
  intros Hm Hh w. unfold try_except. specialize (Hm w).
  destruct (m w) as [[[a|e] w1] t1]; cbn in *; [exact Hm|].
  destruct (catches e); [|exact Hm].
  specialize (Hh e w1). destruct (handler e w1) as [[r w2] t2]; cbn in *.
  apply Forall_app; split; assumption.
Qed.

Lemma emits_try_finally A (m : M A) fin :
  emits P m -> emits P fin -> emits P (try_finally m fin).
Proof.
  intros Hm Hf w. unfold try_finally. specialize (Hm w).
  destruct (m w) as [[r w1] t1]; cbn in *.
  specialize (Hf w1). destruct (fin w1) as [[[u|e] w2] t2]; cbn in *;
    apply Forall_app; split; assumption.
Qed.

Lemma emits_play_script on_chunk h :
  (forall c, emits P (on_chunk c)) -> emits P (play_script on_chunk h).
Proof.
  intros Hc. induction h as [t r|e|c next IH]; intros w; cbn.
  - constructor.
  - constructor.
  - specialize (Hc c w). destruct (on_chunk c w) as [[r w1] t1]; cbn in *.
    specialize (IH r w1).
    destruct (play_script on_chunk (next r) w1) as [[r2 w2] t2]; cbn in *.
    apply Forall_app; split; assumption.
Qed.

End Emits.

Section KeepsClient.

Lemma keeps_ret A (a : A) : keeps_client (ret a).
Proof. intros w. reflexivity. Qed.

Lemma keeps_raise A e : keeps_client (@raise A e).
Proof. intros w. reflexivity. Qed.

Lemma keeps_of_result A (r : result A) : keeps_client (of_result r).
Proof. intros w. reflexivity. Qed.

Lemma keeps_get_client : keeps_client get_client.
Proof. intros w. reflexivity. Qed.

Lemma keeps_get_frame : keeps_client get_frame.
Proof. intros w. reflexivity. Qed.

Lemma keeps_put_frame f : keeps_client (put_frame f).
Proof. intros w. reflexivity. Qed.

Lemma keeps_emit ev : keeps_client (emit ev).
Proof. intros w. reflexivity. Qed.

Lemma keeps_bind A B (m : M A) (f : A -> M B) :
  keeps_client m -> (forall a, keeps_client (f a)) -> keeps_client (bind m f).
Proof.
  intros Hm Hf w. unfold bind. specialize (Hm w).
  destruct (m w) as [[[a|e] w1] t1]; cbn in *; [|exact Hm].
  specialize (Hf a w1). destruct (f a w1) as [[r w2] t2]; cbn in *.
  congruence.
Qed.

Lemma keeps_try_except A (m : M A) catches handler :
  keeps_client m -> (forall e, keeps_client (handler e)) ->
  keeps_client (try_except m catches handler).
Proof.
  intros Hm Hh w. unfold try_except. specialize (Hm w).
  destruct (m w) as [[[a|e] w1] t1]; cbn in *; [exact Hm|].
  destruct (catches e); [|exact Hm].
  specialize (Hh e w1). destruct (handler e w1) as [[r w2] t2]; cbn in *.
  congruence.
Qed.

Lemma keeps_try_finally A (m : M A) fin :
  keeps_client m -> keeps_client fin -> keeps_client (try_finally m fin).
Proof.
  intros Hm Hf w. unfold try_finally. specialize (Hm w).
  destruct (m w) as [[r w1] t1]; cbn in *.
  specialize (Hf w1). destruct (fin w1) as [[[u|e] w2] t2]; cbn in *;
    congruence.
Qed.

Lemma keeps_play_script on_chunk h :
  (forall c, keeps_client (on_chunk c)) ->
  keeps_client (play_script on_chunk h).
Proof.
  intros Hc. induction h as [t r|e|c next IH]; intros w; cbn.
  - reflexivity.
  - reflexivity.
  - specialize (Hc c w). destruct (on_chunk c w) as [[r w1] t1]; cbn in *.
    specialize (IH r w1).
    destruct (play_script on_chunk (next r) w1) as [[r2 w2] t2]; cbn in *.
    congruence.
Qed.

End KeepsClient.

(** Walks through a computation built from the combinators, trying [base]
    first at each node and leaving the side conditions on single events. *)
Ltac walk_with base :=
  repeat first
    [ base
    | apply emits_bind; [ | intros ? ]
    | apply emits_try_except; [ | intros ? ]
    | apply emits_try_finally
    | apply emits_play_script; intros ?
    | apply emits_ret | apply emits_raise | apply emits_of_result
    | apply emits_get_client | apply emits_get_frame
    | apply emits_put_frame | apply emits_put_client
    | apply emits_emit
    | apply keeps_bind; [ | intros ? ]
    | apply keeps_try_except; [ | intros ? ]
    | apply keeps_try_finally
    | apply keeps_play_script; intros ?
    | apply keeps_ret | apply keeps_raise | apply keeps_of_result
    | apply keeps_get_client | apply keeps_get_frame
    | apply keeps_put_frame | apply keeps_emit
    | match goal with
      | |- emits _ (if ?b then _ else _) => destruct b
      | |- emits _ (match ?x with _ => _ end) => destruct x
      | |- keeps_client (if ?b then _ else _) => destruct b
      | |- keeps_client (match ?x with _ => _ end) => destruct x
      end
    | progress cbv zeta ].

Ltac walk := walk_with fail.

Lemma run_emit B ev (k : M B) w :
  (emit ev ;; k) w = (outcome (k w), final (k w), ev :: events (k w)).
Proof. unfold bind. cbn. destruct (k w) as [[r w2] t2]. reflexivity. Qed.

Lemma run_get_client B (k : client -> M B) w :
  (c <- get_client ;; k c) w = k (cl w) w.
Proof. unfold bind. cbn. destruct (k (cl w) w) as [[r w2] t2]. reflexivity. Qed.

Lemma run_put_frame B f (k : M B) w :
  (put_frame f ;; k) w = k {| cl := cl w; fr := f |}.
Proof. unfold bind. cbn. destruct (k _) as [[r w2] t2]. reflexivity. Qed.

Lemma run_bind A B (m : M A) (f : A -> M B) w :
  bind m f w =
  match outcome (m w) with
  | Ok a => let y := f a (final (m w)) in
            (outcome y, final y, events (m w) ++ events y)
  | Raise e => (Raise e, final (m w), events (m w))
  end.
Proof.
  unfold bind. destruct (m w) as [[[a|e] w1] t1]; cbn; [|reflexivity].
  destruct (f a w1) as [[r w2] t2]. reflexivity.
Qed.

Lemma run_try_finally A (m : M A) fin w :
  try_finally m fin w =
  let x := m w in
  let y := fin (final x) in
  (match outcome y with Ok _ => outcome x | Raise e => Raise e end,
   final y, events x ++ events y).
Proof.
  unfold try_finally. destruct (m w) as [[r w1] t1]; cbn.
  destruct (fin w1) as [[[u|e] w2] t2]; reflexivity.
Qed.

Lemma events_bind A B (m : M A) (f : A -> M B) w :
  exists rest, events (bind m f w) = events (m w) ++ rest.
Proof.
  unfold bind. destruct (m w) as [[[a|e] w1] t1]; cbn.
  - destruct (f a w1) as [[r w2] t2]. exists t2. reflexivity.
  - exists []. symmetry. apply app_nil_r.
Qed.

Lemma events_try_finally A (m : M A) fin w :
  exists rest, events (try_finally m fin w) = events (m w) ++ rest.
Proof.
  unfold try_finally. destruct (m w) as [[r w1] t1]; cbn.
  destruct (fin w1) as [[[u|e] w2] t2]; exists t2; reflexivity.
Qed.

Lemma events_try_except A (m : M A) catches handler w :
  exists rest, events (try_except m catches handler w) = events (m w) ++ rest.
Proof.
  unfold try_except. destruct (m w) as [[[a|e] w1] t1]; cbn.
  - exists []. symmetry. apply app_nil_r.
  - destruct (catches e).
    + destruct (handler e w1) as [[r w2] t2]. exists t2. reflexivity.
    + exists []. symmetry. apply app_nil_r.
Qed.

Lemma play_script_chunk on_chunk chunk next w :
  play_script on_chunk (HubChunk chunk next) w =
  let x := on_chunk chunk w in
  let y := play_script on_chunk (next (outcome x)) (final x) in
  (outcome y, final y, events x ++ events y).
Proof.
  cbn. destruct (on_chunk chunk w) as [[r w1] t1]. cbn.
  destruct (play_script on_chunk (next r) w1) as [[r2 w2] t2]. reflexivity.
Qed.

Section Congruence.

Lemma bind_ext A B (m m' : M A) (f f' : A -> M B) :
  (forall w, m w = m' w) -> (forall a w, f a w = f' a w) ->
  forall w, bind m f w = bind m' f' w.
Proof.
  intros Hm Hf w. unfold bind. rewrite Hm.
  destruct (m' w) as [[[a|e] w1] t1]; [|reflexivity].
  rewrite Hf. reflexivity.
Qed.

Lemma try_except_ext A (m m' : M A) catches (h h' : exn -> M A) :
  (forall w, m w = m' w) -> (forall e w, h e w = h' e w) ->
  forall w, try_except m catches h w = try_except m' catches h' w.
Proof.
  intros Hm Hh w. unfold try_except. rewrite Hm.
  destruct (m' w) as [[[a|e] w1] t1]; [reflexivity|].
  rewrite Hh. reflexivity.
Qed.

Lemma try_finally_ext A (m m' : M A) (fin fin' : M unit) :
  (forall w, m w = m' w) -> (forall w, fin w = fin' w) ->
  forall w, try_finally m fin w = try_finally m' fin' w.
Proof.
  intros Hm Hf w. unfold try_finally. rewrite Hm.
  destruct (m' w) as [[r w1] t1]. rewrite Hf. reflexivity.
Qed.

Lemma play_script_ext (f g : bytes -> M unit) h :
  (forall c w, f c w = g c w) ->
  forall w, play_script f h w = play_script g h w.
Proof.
  intros Hfg. induction h as [t r|e|chunk next IH]; intros w.
  - reflexivity.
  - reflexivity.
  - rewrite !play_script_chunk. cbv zeta. rewrite Hfg, IH. reflexivity.
Qed.

End Congruence.

Lemma emits_weaken A (P Q : event -> Prop) (m : M A) :
  (forall ev, P ev -> Q ev) -> emits P m -> emits Q m.
Proof. intros HPQ Hm w. eapply Forall_impl; [exact HPQ | apply Hm]. Qed.

Lemma filter_nil_emits (f : event -> bool) t :
  filter f t = [] <-> Forall (fun ev => f ev = false) t.
Proof.
  induction t as [|ev t IH]; cbn.
  - split; auto.
  - destruct (f ev) eqn:E; split; intros H.
    + discriminate.
    + inversion H; subst. congruence.
    + constructor; [exact E | apply IH, H].
    + inversion H; subst. apply IH. assumption.
Qed.

(** ** The voice pipeline, event by event *)

Lemma _on_chunk_emits env chunk : emits pipeline_event (_on_chunk env chunk).
Proof.
  unfold _on_chunk, _start_player, stdin_write, _status, print.
  walk; exact I.
Qed.

Lemma _run_pipeline_emits env wav : emits pipeline_event (_run_pipeline env wav).
Proof.
  unfold _run_pipeline, voice_pipeline, close_player, stdin_close, proc_wait,
    proc_kill, _status, print.
  walk_with ltac:(apply _on_chunk_emits); exact I.
Qed.

Lemma voice_body_emits env : emits pipeline_event (voice_body env).
Proof.
  unfold voice_body, record, _status.
  walk_with ltac:(apply _run_pipeline_emits); exact I.
Qed.

Lemma _on_chunk_keeps env chunk : keeps_client (_on_chunk env chunk).
Proof.
  unfold _on_chunk, _start_player, stdin_write, _status, print. walk.
Qed.

Lemma _run_pipeline_keeps env wav : keeps_client (_run_pipeline env wav).
Proof.
  unfold _run_pipeline, voice_pipeline, close_player, stdin_close, proc_wait,
    proc_kill, _status, print.
  walk_with ltac:(apply _on_chunk_keeps).
Qed.

Lemma voice_body_keeps env : keeps_client (voice_body env).
Proof.
  unfold voice_body, record, _status.
  walk_with ltac:(apply _run_pipeline_keeps).
Qed.

Lemma pipeline_event_flag_free ev : pipeline_event ev -> flag_free ev.
Proof. destruct ev; cbn; tauto. Qed.

Lemma pipeline_event_no_resume ev : pipeline_event ev -> is_resume ev = false.
Proof. destruct ev; cbn; tauto. Qed.

(** ** The busy flag around a turn *)

Lemma flag_free_no_release t : Forall flag_free t -> filter is_release t = [].
Proof.
  induction 1 as [|ev t Hev _ IH]; [reflexivity|].
  cbn. destruct ev; cbn in *; try exact IH. contradiction.
Qed.

Lemma leave_spec w :
  leave w = (Ok tt, {| cl := with_processing false (cl w); fr := fr w |},
             [EvSetProcessing false; EvPrint (Prompt (prompt_of (cl w)))]).
Proof.
  unfold leave, _prompt, bind, set_processing, get_client, print, emit,
    prompt_of.
  cbn. destruct (text_mode (cl w)); [reflexivity|].
  destruct (wake_engine (cl w)); reflexivity.
Qed.

(** The skeleton shared by [_run_voice] and [_run_text]. *)
Lemma turn_releases_once (body : M unit) catches handler :
  emits flag_free body -> (forall e, emits flag_free (handler e)) ->
  forall w,
    released_once
      ((set_processing true ;;
        try_finally (try_except body catches handler) leave) w).
Proof.
  intros Hb Hh w.
  assert (Hm : emits flag_free (try_except body catches handler))
    by (apply emits_try_except; assumption).
  unfold bind, set_processing, try_finally.
  set (w0 := {| cl := with_processing true (cl w); fr := fr w |}).
  specialize (Hm w0).
  destruct (try_except body catches handler w0) as [[r w1] t1].
  rewrite leave_spec. cbn in *.
  split; [reflexivity|]. split.
  - unfold releases. cbn. rewrite filter_app, (flag_free_no_release Hm).
    reflexivity.
  - exists t1. split; [|exact Hm].
    destruct (text_mode (cl w1)), (wake_engine (cl w1)); reflexivity.
Qed.

(** C1. Every turn, voice or text, gives the busy flag back exactly once,
    after its body, whatever the capture, the remote call or the playback
    raised: at the end [_processing] is false, the run assigned [False]
    to it once, and that assignment comes after every event of the
    body. *)
Theorem guard_release_is_total (env : turn_env) (w : world) :
  released_once (_run_voice env w) /\
  forall text, released_once (_run_text env text w).
Proof.
  split; [|intros text].
  - unfold _run_voice. apply turn_releases_once.
    + apply emits_weaken with (P := pipeline_event);
        [exact pipeline_event_flag_free | apply voice_body_emits].
    + intros e. unfold _status, print. walk; exact I.
  - unfold _run_text. apply turn_releases_once.
    + unfold text_body, chat, _status, print. walk; exact I.
    + intros e. unfold _status. walk; exact I.
Qed.

(** ** The short-capture threshold *)

Lemma _run_pipeline_head env wav w :
  exists rest,
    events (_run_pipeline env wav w)
    = EvStatus ThinkingVoice :: EvVoicePipeline wav (session_id (cl w)) :: rest.
Proof.
  unfold _run_pipeline, _status. rewrite run_emit. cbn [events snd].
  rewrite run_put_frame.
  match goal with |- context [events (bind ?m ?f ?w0)] =>
    destruct (events_bind m f w0) as [r1 H1];
    destruct (events_try_finally (voice_pipeline env wav (_on_chunk env))
                                 (close_player env) w0) as [r2 H2]
  end.
  rewrite H1, H2. unfold voice_pipeline.
  rewrite run_get_client, run_emit. cbn.
  eexists. reflexivity.
Qed.

Lemma voice_turn_after_capture (env : turn_env) (w : world) (wav : bytes) :
  mic_record env = Ok wav ->
  (List.length wav < 2500 ->
     events (_run_voice env w)
     = [EvSetProcessing true; EvStatus Listening; EvRecord;
        EvStatus NothingCaptured; EvSetProcessing false;
        EvPrint (Prompt (prompt_of (cl w)))]
     /\ filter is_remote_call (events (_run_voice env w)) = []) /\
  (2500 <= List.length wav ->
     exists rest,
       events (_run_voice env w)
       = [EvSetProcessing true; EvStatus Listening; EvRecord;
          EvStatus ThinkingVoice;
          EvVoicePipeline wav (session_id (cl w))] ++ rest).
Proof.
  intros Hmic.
  unfold _run_voice, voice_body, record, bind at 1 2, set_processing.
  unfold try_finally, try_except, bind, _status, emit, of_result.
  rewrite Hmic.
  set (w0 := {| cl := with_processing true (cl w); fr := fr w |}).
  split; intros Hlen.
  - apply Nat.ltb_lt in Hlen. rewrite Hlen. rewrite leave_spec.
    split; reflexivity.
  - apply Nat.ltb_ge in Hlen. rewrite Hlen.
    destruct (_run_pipeline_head env wav w0) as [rest Hrest].
    destruct (_run_pipeline env wav w0) as [[r w1] t1]. cbn in Hrest.
    subst t1.
    destruct r as [u|e]; [|destruct (Exn.is_Exception e)];
      cbn -[leave]; rewrite leave_spec; cbn; eexists; reflexivity.
Qed.

(** C2. In a voice turn whose capture returned [wav]: below 2500 bytes
    the turn ends with "Nothing captured" and makes no call to the hub's
    voice pipeline; from 2500 bytes on the call is made, with these bytes
    and the current session identifier. *)
Theorem short_capture_threshold (env : turn_env) (w : world) (wav : bytes) :
  mic_record env = Ok wav ->
  (List.length wav < 2500 ->
     events (_run_voice env w)
     = [EvSetProcessing true; EvStatus Listening; EvRecord;
        EvStatus NothingCaptured; EvSetProcessing false;
        EvPrint (Prompt (prompt_of (cl w)))]
     /\ filter is_remote_call (events (_run_voice env w)) = []) /\
  (2500 <= List.length wav ->
     exists rest,
       events (_run_voice env w)
       = [EvSetProcessing true; EvStatus Listening; EvRecord;
          EvStatus ThinkingVoice;
          EvVoicePipeline wav (session_id (cl w))] ++ rest).
Proof. exact (@voice_turn_after_capture env w wav). Qed.

Lemma short_capture_threshold_witness :
  (mic_record murmur_env = Ok murmur /\
   filter is_remote_call (events (_run_voice murmur_env idle)) = []) /\
  (mic_record quiet_env = Ok silence /\
   exists rest,
     events (_run_voice quiet_env idle)
     = [EvSetProcessing true; EvStatus Listening; EvRecord;
        EvStatus ThinkingVoice;
        EvVoicePipeline silence (session_id (cl idle))] ++ rest).
Proof.
  split; (split; [reflexivity|]).
  - apply (short_capture_threshold murmur_env idle (wav := murmur)).
    + reflexivity.
    + unfold murmur. rewrite repeat_length. apply Nat.leb_le. reflexivity.
  - apply (short_capture_threshold quiet_env idle (wav := silence)).
    + reflexivity.
    + unfold silence. rewrite repeat_length. apply Nat.le_refl.
Defined.

(** ** The playback sink *)

Lemma _on_chunk_later env chunk c pp :
  _on_chunk env chunk (mk_world c pp false) =
  match pp with
  | Some p =>
      if stdin_closed p then (Ok tt, mk_world c pp false, [])
      else (write_outcome (write_result env (written p)),
            mk_world c (Some (after_write p)) false, [EvWrite chunk])
  | None => (Ok tt, mk_world c pp false, [])
  end.
Proof.
  destruct pp as [[sc n]|]; [destruct sc|]; cbn; try reflexivity.
  destruct (write_result env n) as [[|msg]|]; reflexivity.
Qed.

Lemma _on_chunk_first env chunk c pp :
  _on_chunk env chunk (mk_world c pp true) =
  match player_cmd c with
  | [] => (Ok tt, mk_world c None false,
           [EvStatus Speaking; EvPrint NoPlayerWarning])
  | cmd =>
      match popen_result env with
      | Some e => (Raise (exn_of e), mk_world c pp false,
                   [EvStatus Speaking; EvSpawnFailed cmd])
      | None => (write_outcome (write_result env 0),
                 mk_world c (Some {| stdin_closed := false; written := 1 |})
                          false,
                 [EvStatus Speaking; EvSpawn cmd; EvWrite chunk])
      end
  end.
Proof.
  unfold _on_chunk, _start_player, mk_world, bind, get_frame, get_client.
  cbn.
  destruct (player_cmd c) as [|x cmd]; [reflexivity|].
  destruct (popen_result env) as [e|]; [reflexivity|].
  cbn. destruct (write_result env 0) as [[|msg]|]; reflexivity.
Qed.

(** The [finally] of [_run_pipeline] never raises: what [close] raises is
    swallowed, and a timeout of [wait] is answered by [kill]. *)
Lemma close_player_spec env c pp fc :
  close_player env (mk_world c pp fc) =
  match pp with
  | Some p =>
      (Ok tt,
       mk_world c (Some {| stdin_closed := true; written := written p |}) fc,
       closing env)
  | None => (Ok tt, mk_world c None fc, [])
  end.
Proof.
  unfold closing.
  destruct pp as [p|]; [|reflexivity].
  unfold close_player, stdin_close, proc_wait, proc_kill, mk_world.
  destruct (close_result env) as [[|msg]|], (wait_timeout env); reflexivity.
Qed.

Lemma no_opening_no_spawn t :
  filter opens_sink t = [] -> existsb is_spawn t = false.
Proof.
  induction t as [|ev t IH]; [reflexivity|].
  cbn. destruct ev; cbn; try exact IH; try discriminate.
  destruct p; cbn; try exact IH; discriminate.
Qed.

Section Stream.

Variable env : turn_env.

(** After the first chunk nothing opens a player any more, and the
    callbacks neither create nor drop the one there is. *)
Lemma play_script_later h : forall c pp,
  let x := play_script (_on_chunk env) h (mk_world c pp false) in
  filter opens_sink (events x) = [] /\
  filter is_close (events x) = [] /\
  has_player (final x) = has_player (mk_world c pp false) /\
  cl (final x) = c /\
  first_chunk (fr (final x)) = false.
Proof.
  induction h as [t r|e|chunk next IH]; intros c pp.
  - cbn. auto.
  - cbn. auto.
  - cbv zeta. rewrite play_script_chunk, _on_chunk_later.
    destruct pp as [p|]; [destruct (stdin_closed p)|]; cbv zeta;
      cbn [outcome final events fst snd];
      match goal with
      | |- context [play_script _ (next ?r) (mk_world c ?q false)] =>
          destruct (IH r c q) as (H1 & H2 & H3 & H4 & H5)
      end;
      rewrite ?filter_app, H1, H2, H3, H4, H5; cbn; auto.
Qed.

(** From the start of [_run_pipeline]: a player exists at the end
    exactly when one was spawned, which can only happen on the first
    chunk. *)
Lemma play_script_first h c :
  let x := play_script (_on_chunk env) h (mk_world c None true) in
  has_player (final x) = existsb is_spawn (events x) /\
  filter is_close (events x) = [] /\
  cl (final x) = c /\
  match h with
  | HubChunk _ _ =>
      exists rest,
        events x = EvStatus Speaking :: opening env c :: rest /\
        filter opens_sink rest = []
  | _ => events x = []
  end.
Proof.
  destruct h as [t r|e|chunk next]; cbv zeta.
  - cbn. auto.
  - cbn. auto.
  - rewrite play_script_chunk, _on_chunk_first. unfold opening.
    destruct (player_cmd c) as [|a cmd];
      [|destruct (popen_result env) as [e|]]; cbv zeta;
      cbn [outcome final events fst snd];
      match goal with
      | |- context [play_script _ (next ?r) (mk_world c ?q false)] =>
          destruct (play_script_later (next r) c q)
            as (H1 & H2 & H3 & H4 & H5)
      end;
      rewrite ?filter_app, ?existsb_app, H2, H3, H4,
        (no_opening_no_spawn _ H1); cbn;
      (split; [reflexivity|]); (split; [reflexivity|]);
      (split; [reflexivity|]); eexists; (split; [reflexivity|]).
    + exact H1.
    + exact H1.
    + exact H1.
Qed.

End Stream.

Lemma reports_are_neutral t :
  forallb is_report t = true ->
  filter is_close t = [] /\ filter opens_sink t = [].
Proof.
  induction t as [|ev t IH]; [auto|].
  cbn. intros H. apply andb_prop in H. destruct H as [Hev Ht].
  destruct (IH Ht) as [IH1 IH2].
  destruct ev; try discriminate; cbn; auto.
  destruct p; try discriminate; cbn; auto.
Qed.

(** The events of [_run_pipeline]: the two announcements, what the
    callbacks did during the hub call, the [finally], and the report. *)
Lemma _run_pipeline_events env wav w :
  let x := play_script (_on_chunk env) (hub_voice env)
                       (mk_world (cl w) None true) in
  exists reported,
    events (_run_pipeline env wav w)
    = EvStatus ThinkingVoice :: EvVoicePipeline wav (session_id (cl w))
      :: events x ++ (if has_player (final x) then closing env else [])
      ++ reported /\
    forallb is_report reported = true /\
    (has_player (final x) = true ->
     match player_proc (fr (final (_run_pipeline env wav w))) with
     | Some p => stdin_closed p = true
     | None => False
     end).
Proof.
  cbv zeta.
  unfold _run_pipeline, _status. rewrite run_emit, run_put_frame.
  fold (mk_world (cl w) None true).
  rewrite run_bind, run_try_finally. unfold voice_pipeline.
  rewrite run_get_client, run_emit. cbv zeta.
  cbn [cl outcome final events fst snd mk_world].
  fold (mk_world (cl w) None true).
  destruct (play_script (_on_chunk env) (hub_voice env)
                        (mk_world (cl w) None true))
    as [[r [c1 [pp1 fc1]]] t1].
  cbn [outcome final events fst snd].
  fold (mk_world c1 pp1 fc1). rewrite close_player_spec.
  unfold has_player.
  destruct pp1 as [p1|], r as [tr|e]; cbn -[closing];
    try (destruct (truthy (fst tr)); cbn -[closing]);
    rewrite <- ?app_assoc;
    first [ eexists; split; [reflexivity|]
          | exists []; rewrite ?app_nil_r; split; [reflexivity|] ];
    (split; [reflexivity|]); intros; try discriminate; reflexivity.
Qed.

(** C3. When a voice pipeline spawned a player, its run closes it once,
    after the last chunk and whatever way the hub call ended: the events
    on the player after the stream are exactly [stdin.close()], then
    [wait(timeout=30)], then [kill()] if and only if the wait timed out;
    none occurs during the stream or after, and at the end the pipe is
    closed on the client's side. *)
Theorem sink_closed_exactly_once (env : turn_env) (wav : bytes) (w : world) :
  existsb is_spawn (events (_run_pipeline env wav w)) = true ->
  exists streamed reported,
    events (_run_pipeline env wav w)
    = EvStatus ThinkingVoice :: EvVoicePipeline wav (session_id (cl w))
      :: streamed ++ closing env ++ reported /\
    filter is_close streamed = [] /\
    filter is_close reported = [] /\
    filter is_close (events (_run_pipeline env wav w)) = closing env /\
    match player_proc (fr (final (_run_pipeline env wav w))) with
    | Some p => stdin_closed p = true
    | None => False
    end.
Proof.
  intros Hspawn.
  destruct (_run_pipeline_events env wav w) as (reported & Hev & Hrep & Hfin).
  destruct (play_script_first env (hub_voice env) (cl w))
    as (Hplayer & Hquiet & _ & _).
  destruct (reports_are_neutral _ Hrep) as [Hrc Hro].
  set (x := play_script (_on_chunk env) (hub_voice env)
                        (mk_world (cl w) None true)) in *.
  assert (Hhas : has_player (final x) = true).
  { rewrite Hplayer. rewrite Hev in Hspawn. cbn in Hspawn.
    rewrite !existsb_app in Hspawn.
    destruct (existsb is_spawn (events x)); [reflexivity|].
    cbn in Hspawn. rewrite (no_opening_no_spawn _ Hro), orb_false_r in Hspawn.
    destruct (has_player (final x)); [|discriminate].
    unfold closing in Hspawn. destruct (wait_timeout env); discriminate. }
  rewrite Hhas in Hev.
  exists (events x), reported.
  repeat split; try assumption.
  - rewrite Hev. cbn [filter is_close]. rewrite !filter_app, Hquiet, Hrc.
    rewrite app_nil_r. cbn.
    unfold closing. destruct (wait_timeout env); reflexivity.
  - apply Hfin. exact Hhas.
Qed.

Lemma sink_closed_exactly_once_witness :
  existsb is_spawn (events (_run_pipeline raising_env silence idle)) = true /\
  filter is_close (events (_run_pipeline raising_env silence idle))
  = [EvStdinClose; EvWait 30; EvKill].
Proof.
  split; [reflexivity|].
  destruct (@sink_closed_exactly_once raising_env silence idle)
    as (streamed & reported & _ & _ & _ & H & _); [reflexivity|].
  exact H.
Defined.

(** ** Lazy opening *)

Lemma _run_pipeline_no_chunk env wav :
  chunks_delivered (hub_voice env) = 0 ->
  emits (fun ev => opens_sink ev = false) (_run_pipeline env wav).
Proof.
  intros Hzero w. apply filter_nil_emits.
  destruct (_run_pipeline_events env wav w) as (reported & Hev & Hrep & _).
  destruct (play_script_first env (hub_voice env) (cl w))
    as (Hplayer & _ & _ & Hshape).
  destruct (reports_are_neutral _ Hrep) as [_ Hro].
  rewrite Hev, Hplayer.
  destruct (hub_voice env); try discriminate; rewrite Hshape; exact Hro.
Qed.

(** C5. The player is opened by the first chunk, not before.  A pipeline
    (and a whole voice turn) whose hub call delivers no chunk spawns no
    player and prints no "no player" warning.  When a first chunk comes,
    the callback announces "Speaking" and then spawns the player, or
    warns that there is none when no player command was found; nothing
    later in the pipeline spawns or warns again. *)
Theorem sink_opens_on_first_chunk (env : turn_env) (wav : bytes) (w : world) :
  (chunks_delivered (hub_voice env) = 0 ->
     filter opens_sink (events (_run_pipeline env wav w)) = [] /\
     filter opens_sink (events (_run_voice env w)) = []) /\
  (forall chunk next, hub_voice env = HubChunk chunk next ->
     exists rest,
       events (_run_pipeline env wav w)
       = EvStatus ThinkingVoice :: EvVoicePipeline wav (session_id (cl w))
         :: EvStatus Speaking :: opening env (cl w) :: rest /\
       filter opens_sink rest = []).
Proof.
  split.
  - intros Hzero. split; apply filter_nil_emits.
    + apply _run_pipeline_no_chunk. exact Hzero.
    + unfold _run_voice, voice_body, leave, _prompt, record, set_processing,
        _status, print.
      walk_with ltac:(apply _run_pipeline_no_chunk; exact Hzero);
        reflexivity.
  - intros chunk next Hhub.
    destruct (_run_pipeline_events env wav w) as (reported & Hev & Hrep & _).
    destruct (play_script_first env (hub_voice env) (cl w))
      as (_ & _ & _ & Hshape).
    destruct (reports_are_neutral _ Hrep) as [_ Hro].
    rewrite Hhub in Hshape. destruct Hshape as (rest & Hx & Hrest).
    rewrite Hhub in Hev. rewrite Hx in Hev. rewrite Hev.
    eexists. split; [reflexivity|].
    rewrite !filter_app, Hrest, Hro.
    destruct (has_player _); [|reflexivity].
    unfold closing. destruct (wait_timeout env); reflexivity.
Qed.

Lemma sink_opens_on_first_chunk_witness :
  filter opens_sink (events (_run_voice quiet_env idle)) = [] /\
  exists rest,
    events (_run_pipeline raising_env silence idle)
    = EvStatus ThinkingVoice :: EvVoicePipeline silence "0123456789ab"
      :: EvStatus Speaking :: EvSpawn (player_cmd idle_client) :: rest /\
    filter opens_sink rest = [].
Proof.
  split.
  - apply (@sink_opens_on_first_chunk quiet_env silence idle). reflexivity.
  - eapply (@sink_opens_on_first_chunk raising_env silence idle). reflexivity.
Defined.

(** ** Broken pipes *)

Lemma write_outcome_broken_pipe r :
  (forall e, r = Some e -> e = EPIPE) -> write_outcome r = Ok tt.
Proof.
  intros H. destruct r as [[|msg]|]; try reflexivity.
  specialize (H _ eq_refl). discriminate.
Qed.

Lemma _on_chunk_broken_pipes env :
  only_broken_pipes env ->
  forall chunk w, _on_chunk env chunk w = _on_chunk (writes_succeed env) chunk w.
Proof.
  intros Hpipe chunk [c [pp [|]]]; fold (mk_world c pp true);
    fold (mk_world c pp false).
  - rewrite !_on_chunk_first. cbn [popen_result write_result writes_succeed].
    rewrite (write_outcome_broken_pipe (Hpipe 0)). reflexivity.
  - rewrite !_on_chunk_later. cbn [write_result writes_succeed].
    destruct pp as [p|]; [|reflexivity].
    rewrite (write_outcome_broken_pipe (Hpipe (written p))). reflexivity.
Qed.

Lemma _run_pipeline_broken_pipes env :
  only_broken_pipes env ->
  forall wav w, _run_pipeline env wav w = _run_pipeline (writes_succeed env) wav w.
Proof.
  intros Hpipe wav w. unfold _run_pipeline.
  apply bind_ext; [reflexivity|]. intros _ w1.
  apply bind_ext; [reflexivity|]. intros _ w2.
  apply bind_ext; [|reflexivity]. intros w3.
  apply try_finally_ext; [|reflexivity]. intros w4.
  unfold voice_pipeline.
  apply bind_ext; [reflexivity|]. intros c w5.
  apply bind_ext; [reflexivity|]. intros _ w6.
  apply play_script_ext. apply _on_chunk_broken_pipes. exact Hpipe.
Qed.

Lemma _run_voice_broken_pipes env :
  only_broken_pipes env ->
  forall w, _run_voice env w = _run_voice (writes_succeed env) w.
Proof.
  intros Hpipe w. unfold _run_voice.
  apply bind_ext; [reflexivity|]. intros _ w1.
  apply try_finally_ext; [|reflexivity]. intros w2.
  apply try_except_ext; [|reflexivity]. intros w3.
  unfold voice_body.
  apply bind_ext; [reflexivity|]. intros _ w4.
  apply bind_ext; [reflexivity|]. intros wav w5.
  destruct (Nat.ltb (List.length wav) 2500); [reflexivity|].
  apply _run_pipeline_broken_pipes. exact Hpipe.
Qed.

(** C6. A chunk that cannot reach the player is dropped without a sound.
    When the client has closed the pipe, the callback does nothing and
    returns.  When the write raises [BrokenPipeError], the callback
    returns normally after the attempt.  And a voice turn in which the
    writes fail only by broken pipes ends, prints and leaves the client
    exactly as the turn in which every write succeeded: no error status,
    no exception. *)
Theorem broken_pipe_is_silent (env : turn_env) :
  (forall chunk c p,
     stdin_closed p = true ->
     _on_chunk env chunk (mk_world c (Some p) false)
     = (Ok tt, mk_world c (Some p) false, [])) /\
  (forall chunk c p,
     stdin_closed p = false ->
     write_result env (written p) = Some EPIPE ->
     _on_chunk env chunk (mk_world c (Some p) false)
     = (Ok tt, mk_world c (Some (after_write p)) false, [EvWrite chunk])) /\
  (only_broken_pipes env ->
   forall w, _run_voice env w = _run_voice (writes_succeed env) w).
Proof.
  split; [|split].
  - intros chunk c p Hclosed. rewrite _on_chunk_later, Hclosed. reflexivity.
  - intros chunk c p Hopen Hpipe.
    rewrite _on_chunk_later, Hopen, Hpipe. reflexivity.
  - apply _run_voice_broken_pipes.
Qed.

Lemma broken_pipe_is_silent_witness :
  _on_chunk deaf_env [Byte.x02]
    (mk_world idle_client (Some {| stdin_closed := true; written := 1 |}) false)
  = (Ok tt,
     mk_world idle_client (Some {| stdin_closed := true; written := 1 |}) false,
     []) /\
  outcome (_on_chunk deaf_env [Byte.x02]
             (mk_world idle_client
                (Some {| stdin_closed := false; written := 1 |}) false))
  = Ok tt /\
  only_broken_pipes deaf_env /\
  outcome (_run_voice deaf_env idle) = Ok tt /\
  filter is_report (events (_run_voice deaf_env idle))
  = [EvPrint Blank; EvPrint (YouSaid "turn on the lights");
     EvPrint (NiaSaid "Done."); EvPrint Blank].
Proof.
  assert (H : only_broken_pipes deaf_env).
  { intros n e He. cbn in He. congruence. }
  destruct (broken_pipe_is_silent deaf_env) as (Hclosed & Hpipe & Hturn).
  split; [apply Hclosed; reflexivity|].
  split; [rewrite Hpipe; reflexivity|].
  split; [exact H|].
  rewrite (Hturn H idle). split; reflexivity.
Defined.

(** ** Wake events *)

Lemma _run_voice_no_resume env w :
  filter is_resume (events (_run_voice env w)) = [].
Proof.
  apply filter_nil_emits.
  unfold _run_voice, leave, _prompt, set_processing, _status, print.
  walk_with ltac:(apply emits_weaken with (P := pipeline_event);
                  [exact pipeline_event_no_resume | apply voice_body_emits]);
    reflexivity.
Qed.


(** A turn changes nothing of the client but the busy flag. *)
Lemma _run_voice_final_client env w :
  cl (final (_run_voice env w)) = with_processing false (cl w).
Proof.
  unfold _run_voice.
  assert (Hk : keeps_client
                 (try_except (voice_body env) Exn.is_Exception
                    (fun e => _status (ErrorStatus e) ;; print Traceback))).
  { apply keeps_try_except; [apply voice_body_keeps|].
    intros e. unfold _status, print. walk. }
  unfold bind at 1. unfold set_processing.
  rewrite run_try_finally. cbv zeta.
  set (w0 := {| cl := with_processing true (cl w); fr := fr w |}).
  specialize (Hk w0). rewrite leave_spec. cbn [final fst snd cl].
  rewrite Hk. reflexivity.
Qed.

Lemma _on_wake_detected_spec w :
  _on_wake_detected w =
  (Ok tt, w,
   if processing (cl w)
   then (if wake_engine (cl w) then [EvResume] else [])
   else [EvThread WakeTurn]).
Proof.
  unfold _on_wake_detected. rewrite run_get_client.
  destruct (processing (cl w)); [|reflexivity].
  destruct (wake_engine (cl w)); reflexivity.
Qed.





(** ** Session identifiers *)

Module UuidFacts.

Import Uuid.
Local Open Scope Z_scope.

Lemma hex_fixed_length k x : String.length (hex_fixed k x) = k.
Proof. induction k as [|k IH]; cbn; [reflexivity | now rewrite IH]. Qed.

Lemma hex_digit_is_hex n : is_hex_char (hex_digit n) = true.
Proof.
  destruct n as [|p|p]; [reflexivity| |reflexivity].
  do 4 (try destruct p as [p|p|]; try reflexivity).
Qed.

Lemma hex_fixed_all_hex k x : all_hex (hex_fixed k x) = true.
Proof.
  induction k as [|k IH]; cbn [hex_fixed all_hex]; [reflexivity|].
  now rewrite hex_digit_is_hex, IH.
Qed.

(** The first [n] of [n + m] digits are the digits of the number
    shifted right by [m] digits. *)
Lemma take_hex_fixed n m u :
  Str.take n (hex_fixed (n + m) u)
  = hex_fixed n (Z.shiftr u (4 * Z.of_nat m)).
Proof.
  induction n as [|n IH]; [reflexivity|].
  cbn [Nat.add hex_fixed Str.take]. rewrite IH. f_equal. f_equal. f_equal.
  rewrite Z.shiftr_shiftr by lia. f_equal. lia.
Qed.

Lemma nibble_range x k : 0 <= Z.land (Z.shiftr x k) 15 < 16.
Proof.
  change 15 with (Z.ones 4). rewrite Z.land_ones by lia.
  apply Z.mod_pos_bound. reflexivity.
Qed.

Lemma digit_value_hex_digit d : 0 <= d < 16 -> digit_value (hex_digit d) = d.
Proof.
  intros H. destruct d as [|p|p]; [reflexivity| |lia].
  do 4 (try destruct p as [p|p|]; try reflexivity; try lia).
Qed.

Lemma hex_value_hex_fixed k : forall acc x,
  hex_value acc (hex_fixed k x) = acc * 16 ^ Z.of_nat k + x mod 16 ^ Z.of_nat k.
Proof.
  induction k as [|k IH]; intros acc x.
  - cbn. rewrite Z.mod_1_r. lia.
  - cbn [hex_fixed hex_value]. rewrite IH.
    rewrite digit_value_hex_digit by apply nibble_range.
    change 15 with (Z.ones 4). rewrite Z.land_ones by lia.
    rewrite Z.shiftr_div_pow2 by lia.
    replace (2 ^ (4 * Z.of_nat k)) with (16 ^ Z.of_nat k)
      by (change 16 with (2 ^ 4); rewrite <- Z.pow_mul_r by lia; reflexivity).
    change (2 ^ 4) with 16.
    rewrite Nat2Z.inj_succ, Z.pow_succ_r by lia.
    assert (Hpos : 0 < 16 ^ Z.of_nat k) by (apply Z.pow_pos_nonneg; lia).
    rewrite (Z.mul_comm 16 (16 ^ Z.of_nat k)).
    rewrite (Z.rem_mul_r x (16 ^ Z.of_nat k) 16) by lia.
    ring.
Qed.

Lemma hex_fixed_inj k x y :
  0 <= x < 16 ^ Z.of_nat k -> 0 <= y < 16 ^ Z.of_nat k ->
  hex_fixed k x = hex_fixed k y -> x = y.
Proof.
  intros Hx Hy H. apply (f_equal (hex_value 0)) in H.
  rewrite !hex_value_hex_fixed in H.
  rewrite !Z.mod_small in H by assumption. lia.
Qed.

(** The version and variant bits lie below bit 80. *)
Lemma uuid4_top rnd : Z.shiftr (uuid4 rnd) 80 = Z.shiftr rnd 80.
Proof.
  apply Z.bits_inj'. intros n Hn. unfold uuid4.
  rewrite !Z.shiftr_spec by assumption.
  rewrite Z.lor_spec, Z.land_spec, Z.lor_spec, Z.land_spec, !Z.lnot_spec
    by lia.
  assert (Hc : forall c, 0 <= c -> Z.log2 c < 80 ->
                         Z.testbit c (n + 80) = false)
    by (intros c H0 Hlog; apply Z.bits_above_log2; lia).
  repeat match goal with
         | |- context [Z.testbit (Z.shiftl ?a ?b) _] =>
             rewrite (Hc (Z.shiftl a b)) by (cbn; lia)
         end.
  cbn. now rewrite !andb_true_r, !orb_false_r.
Qed.

Lemma new_session_id_top rnd :
  new_session_id rnd = hex_fixed 12 (Z.shiftr rnd 80).
Proof.
  unfold new_session_id, hex.
  change (hex_fixed 32 (uuid4 rnd)) with (hex_fixed (12 + 20) (uuid4 rnd)).
  rewrite (take_hex_fixed 12 20 (uuid4 rnd)).
  change (4 * Z.of_nat 20) with 80. now rewrite uuid4_top.
Qed.

(** The format of a session identifier: 12 hexadecimal characters. *)
Lemma new_session_id_format rnd :
  String.length (new_session_id rnd) = 12%nat /\
  all_hex (new_session_id rnd) = true.
Proof.
  rewrite new_session_id_top. split.
  - apply hex_fixed_length.
  - apply hex_fixed_all_hex.
Qed.

(** Two draws give the same identifier only if their first 48 bits
    agree. *)
Lemma new_session_id_inj r1 r2 :
  0 <= r1 < 2 ^ 128 -> 0 <= r2 < 2 ^ 128 ->
  new_session_id r1 = new_session_id r2 -> Z.shiftr r1 80 = Z.shiftr r2 80.
Proof.
  intros H1 H2. rewrite !new_session_id_top.
  assert (Hr : forall r, 0 <= r < 2 ^ 128 ->
                         0 <= Z.shiftr r 80 < 16 ^ Z.of_nat 12).
  { intros r Hr. rewrite Z.shiftr_div_pow2 by lia.
    change (16 ^ Z.of_nat 12) with (2 ^ 48). split.
    - apply Z.div_pos; lia.
    - apply Z.div_lt_upper_bound; [lia|].
      change (2 ^ 80 * 2 ^ 48) with (2 ^ 128). lia. }
  apply hex_fixed_inj; apply Hr; assumption.
Qed.

End UuidFacts.

(** ** The command loop *)

Lemma tokens_disjoint s :
  Str.mem s reset_tokens = true -> Str.mem s quit_tokens = false.
Proof.
  unfold Str.mem, reset_tokens, quit_tokens. cbn [existsb].
  intros H. apply orb_prop in H. destruct H as [H|H].
  - apply String.eqb_eq in H. subst s. reflexivity.
  - apply orb_prop in H. destruct H as [H|H]; [|discriminate].
    apply String.eqb_eq in H. subst s. reflexivity.
Qed.

Lemma dispatch_quit le line w :
  is_quit line = true -> dispatch le line w = (Ok Break, w, []).
Proof.
  unfold is_quit, quit_tokens, dispatch. cbv zeta. intros H. rewrite H.
  reflexivity.
Qed.

Lemma dispatch_reset le line w :
  is_reset line = true ->
  dispatch le line w =
  match reset_result le with
  | Ok _ =>
      (Ok Continue, renamed (uuid_random le) w,
       [EvResetConversation;
        EvPrint (ConversationReset
                   (Str.take 8 (Uuid.new_session_id (uuid_random le))));
        EvPrint (Prompt (prompt_of (cl w)))])
  | Raise e => (Raise e, renamed (uuid_random le) w, [EvResetConversation])
  end.
Proof.
  unfold is_reset, dispatch. cbv zeta. intros H.
  fold quit_tokens. fold reset_tokens.
  rewrite (tokens_disjoint _ H), H.
  unfold set_session_id, reset_conversation, _prompt, print, renamed,
    prompt_of, bind, get_client, put_client, emit, of_result.
  cbn. destruct (reset_result le) as [u|e]; [|reflexivity].
  cbn. destruct (text_mode (cl w)); [reflexivity|].
  destruct (wake_engine (cl w)); reflexivity.
Qed.

Lemma dispatch_busy le line w :
  is_quit line = false -> is_reset line = false ->
  processing (cl w) = true ->
  dispatch le line w
  = (Ok Continue, w,
     [EvPrint StillProcessing; EvPrint (Prompt (prompt_of (cl w)))]).
Proof.
  unfold is_quit, is_reset, quit_tokens, reset_tokens, dispatch. cbv zeta.
  intros Hq Hr Hbusy. rewrite Hq, Hr, run_get_client, Hbusy.
  unfold _prompt, print, prompt_of, bind, get_client, emit. cbn.
  destruct (text_mode (cl w)); [reflexivity|].
  destruct (wake_engine (cl w)); reflexivity.
Qed.

Lemma dispatch_idle le line w :
  is_quit line = false -> is_reset line = false ->
  processing (cl w) = false ->
  dispatch le line w = (Ok Continue, w, started (cl w) line).
Proof.
  unfold is_quit, is_reset, quit_tokens, reset_tokens, dispatch, started.
  cbv zeta.
  intros Hq Hr Hidle. rewrite Hq, Hr, run_get_client, Hidle.
  destruct (Str.startswith _ _ && _ && _); [reflexivity|].
  unfold _prompt, start_thread, print, bind, get_client, emit. cbn.
  destruct (text_mode (cl w)) eqn:Ht; [|reflexivity].
  destruct (Str.nonempty (Str.strip line)); cbn; rewrite ?Ht; reflexivity.
Qed.

(** A busy client starts no thread, whatever the line and whatever the
    wake detector reports. *)
Lemma busy_starts_nothing le line w :
  processing (cl w) = true ->
  filter is_thread (events (dispatch le line w)) = [] /\
  filter is_thread (events (_on_wake_detected w)) = [].
Proof.
  intros Hbusy. split.
  - destruct (is_quit line) eqn:Hq; [now rewrite dispatch_quit|].
    destruct (is_reset line) eqn:Hr.
    + rewrite dispatch_reset by assumption.
      destruct (reset_result le); reflexivity.
    + now rewrite dispatch_busy.
  - rewrite _on_wake_detected_spec, Hbusy.
    destruct (wake_engine (cl w)); reflexivity.
Qed.

(** [dispatch] never touches the busy flag. *)
Lemma dispatch_keeps_flag le line w :
  processing (cl (final (dispatch le line w))) = processing (cl w).
Proof.
  destruct (is_quit line) eqn:Hq; [now rewrite dispatch_quit|].
  destruct (is_reset line) eqn:Hr.
  - rewrite dispatch_reset by assumption.
    destruct (reset_result le); reflexivity.
  - destruct (processing (cl w)) eqn:Hp.
    + rewrite dispatch_busy by assumption. exact Hp.
    + rewrite dispatch_idle by assumption. exact Hp.
Qed.

(** ** Reset *)

(** C8, as stated, fails: when the random bytes of the new draw begin
    with the six bytes that gave the previous identifier, the reset
    leaves the identifier as it was. *)
Lemma reset_changes_identity_counterexample :
  is_reset "reset" = true /\
  session_id (cl (final (dispatch repeating_env "reset" idle)))
  = session_id (cl idle).
Proof. split; reflexivity. Qed.

(** C8, amended. A reset line is obeyed whatever the busy flag.  After
    it the session identifier is the 12 hexadecimal characters that
    print the first 48 bits of a new [uuid4] draw, [reset_conversation]
    has been called, and the busy flag is as before.  The identifier
    differs from one drawn earlier whenever the two draws differ in
    their first 48 bits. *)
Theorem reset_draws_new_identity (le : loop_env) (line : string) (w : world) :
  is_reset line = true ->
  let x := dispatch le line w in
  session_id (cl (final x)) = Uuid.new_session_id (uuid_random le) /\
  String.length (session_id (cl (final x))) = 12 /\
  Uuid.all_hex (session_id (cl (final x))) = true /\
  (exists rest, events x = EvResetConversation :: rest) /\
  processing (cl (final x)) = processing (cl w) /\
  (forall previous,
     session_id (cl w) = Uuid.new_session_id previous ->
     (0 <= previous < 2 ^ 128)%Z ->
     (0 <= uuid_random le < 2 ^ 128)%Z ->
     Z.shiftr previous 80 <> Z.shiftr (uuid_random le) 80 ->
     session_id (cl (final x)) <> session_id (cl w)).
Proof.
  intros Hreset x.
  assert (Hid : session_id (cl (final x)) = Uuid.new_session_id (uuid_random le)).
  { unfold x. rewrite dispatch_reset by assumption.
    destruct (reset_result le); reflexivity. }
  destruct (UuidFacts.new_session_id_format (uuid_random le)) as [Hlen Hhex].
  rewrite Hid. repeat split; try assumption.
  - unfold x. rewrite dispatch_reset by assumption.
    destruct (reset_result le); eexists; reflexivity.
  - apply dispatch_keeps_flag.
  - intros previous Hprev Hp Hr Hdiff Heq. apply Hdiff.
    rewrite Hprev in Heq. symmetry.
    apply UuidFacts.new_session_id_inj; assumption.
Qed.

Lemma reset_draws_new_identity_witness :
  is_reset "  ReSet " = true /\
  processing (cl idle_busy) = true /\
  session_id (cl (final (dispatch reset_env "  ReSet " idle_busy)))
  = "fedcba987654" /\
  session_id (cl (final (dispatch reset_env "  ReSet " idle_busy)))
  <> session_id (cl idle_busy).
Proof.
  split; [reflexivity|]. split; [reflexivity|].
  destruct (@reset_draws_new_identity reset_env "  ReSet " idle_busy eq_refl)
    as (Hid & _ & _ & _ & _ & Hdiff).
  split; [exact Hid|].
  apply (Hdiff 0x0123456789ab4def8123456789abcdef%Z).
  - reflexivity.
  - split; [discriminate | reflexivity].
  - split; [discriminate | reflexivity].
  - vm_compute. discriminate.
Defined.

(** ** The turn body and the busy flag *)

(** C9, as stated, fails: started on a busy client, [_run_voice] records
    from the microphone and calls the hub all the same. *)
Lemma run_voice_second_guard_counterexample :
  processing (cl idle_busy) = true /\
  filter is_capture (events (_run_voice quiet_env idle_busy)) = [EvRecord] /\
  filter is_remote_call (events (_run_voice quiet_env idle_busy))
  = [EvVoicePipeline silence "0123456789ab"].
Proof. split; [reflexivity|]. split; reflexivity. Qed.

Lemma _run_voice_head env w :
  exists rest,
    events (_run_voice env w)
    = EvSetProcessing true :: EvStatus Listening :: EvRecord :: rest.
Proof.
  unfold _run_voice. unfold bind at 1. unfold set_processing.
  set (w0 := {| cl := with_processing true (cl w); fr := fr w |}).
  destruct (events_try_finally
              (try_except (voice_body env) Exn.is_Exception
                 (fun e => _status (ErrorStatus e) ;; print Traceback))
              leave w0) as [r1 H1].
  destruct (events_try_except (voice_body env) Exn.is_Exception
              (fun e => _status (ErrorStatus e) ;; print Traceback) w0)
    as [r2 H2].
  assert (H3 : exists r3, events (voice_body env w0)
                          = EvStatus Listening :: EvRecord :: r3).
  { unfold voice_body, _status, record. rewrite run_emit. cbn [events snd].
    match goal with |- context [events (bind ?m ?f ?v)] =>
      destruct (events_bind m f v) as [r3 H3] end.
    rewrite H3, run_emit. cbn. eexists. reflexivity. }
  destruct H3 as [r3 H3].
  destruct (try_finally _ _ w0) as [[r w1] t1]. cbn in *.
  rewrite H1, H2, H3. cbn. eexists. reflexivity.
Qed.

(** C9, amended. [_run_voice] has no test of the busy flag: it sets the
    flag and runs its body, so it behaves the same whether the flag was
    set or not when it started, and it always records from the
    microphone.  The test is made by the callers only: on a busy client
    neither the command loop nor the wake callback starts a thread. *)
Theorem run_voice_takes_flag_unconditionally (env : turn_env) (w : world) :
  (forall b,
     _run_voice env {| cl := with_processing b (cl w); fr := fr w |}
     = _run_voice env w) /\
  (exists rest,
     events (_run_voice env w)
     = EvSetProcessing true :: EvStatus Listening :: EvRecord :: rest) /\
  (processing (cl w) = true ->
   (forall le line, filter is_thread (events (dispatch le line w)) = []) /\
   filter is_thread (events (_on_wake_detected w)) = []).
Proof.
  split; [|split].
  - intros b. unfold _run_voice, bind at 1 3, set_processing. reflexivity.
  - apply _run_voice_head.
  - intros Hbusy. split.
    + intros le line. apply (busy_starts_nothing le line w Hbusy).
    + apply (busy_starts_nothing repeating_env "" w Hbusy).
Qed.

Lemma run_voice_takes_flag_unconditionally_witness :
  processing (cl idle_busy) = true /\
  _run_voice quiet_env idle_busy = _run_voice quiet_env idle /\
  filter is_thread
    (events (dispatch repeating_env "t hello" idle_busy)) = [].
Proof.
  split; [reflexivity|].
  destruct (run_voice_takes_flag_unconditionally quiet_env idle)
    as (Hsame & _ & _).
  split; [exact (Hsame true)|].
  apply (run_voice_takes_flag_unconditionally quiet_env idle_busy).
  reflexivity.
Defined.

(** ** Capital letters *)

Module StrFacts.

Import Str.

Lemma lower_upper_char c : lower_char (upper_char c) = lower_char c.
Proof. destruct c as [[] [] [] [] [] [] [] []]; reflexivity. Qed.

(** Lowering undoes any capitalisation. *)
Lemma capitalization_lower s s' :
  capitalization s s' -> lower s' = lower s.
Proof.
  induction 1 as [|c s s' _ IH|c s s' _ IH]; cbn.
  - reflexivity.
  - now rewrite IH.
  - now rewrite IH, lower_upper_char.
Qed.

Lemma rstrip_cons c s :
  rstrip s <> EmptyString -> rstrip (String c s) = String c (rstrip s).
Proof.
  intros H. cbn. destruct (rstrip s); [contradiction|reflexivity].
Qed.

Lemma rstrip_cons_visible c s :
  isspace c = false -> rstrip (String c s) = String c (rstrip s).
Proof.
  intros H. cbn. rewrite H. destruct (rstrip s); reflexivity.
Qed.

Lemma rstrip_idempotent s : rstrip (rstrip s) = rstrip s.
Proof.
  induction s as [|c s IH]; [reflexivity|].
  cbn. destruct (rstrip s) as [|d r] eqn:E.
  - destruct (isspace c) eqn:Hc; [reflexivity|]. cbn. now rewrite Hc.
  - rewrite rstrip_cons by (rewrite IH; discriminate). now rewrite IH.
Qed.

(** Stripping one side does not disturb the other. *)
Lemma lstrip_rstrip s : lstrip (rstrip s) = rstrip (lstrip s).
Proof.
  induction s as [|c s IH]; [reflexivity|].
  destruct (isspace c) eqn:Hc.
  - cbn [lstrip]. rewrite Hc, <- IH. cbn [rstrip].
    destruct (rstrip s) as [|d r]; [now rewrite Hc|].
    cbn [lstrip]. now rewrite Hc.
  - cbn [lstrip]. rewrite Hc, rstrip_cons_visible by assumption.
    cbn [lstrip]. now rewrite Hc.
Qed.

Lemma strip_rstrip s : strip (rstrip s) = strip s.
Proof.
  unfold strip. now rewrite lstrip_rstrip, rstrip_idempotent.
Qed.

Lemma strip_nonempty s : nonempty (strip s) = true -> rstrip s <> EmptyString.
Proof.
  intros H E. rewrite <- strip_rstrip, E in H. discriminate.
Qed.

(** The command read from a line that begins with a letter, a blank and
    a text that is not blank. *)
Lemma strip_inline c rest :
  isspace c = false -> nonempty (strip rest) = true ->
  strip (String c (String " " rest)) = String c (String " " (rstrip rest)).
Proof.
  intros Hc Hrest. unfold strip. cbn [lstrip]. rewrite Hc.
  rewrite rstrip_cons_visible by assumption.
  rewrite rstrip_cons by (apply strip_nonempty; assumption).
  reflexivity.
Qed.

End StrFacts.

Lemma dispatch_inline le c rest w :
  c = "t"%char \/ c = "T"%char ->
  Str.nonempty (Str.strip rest) = true ->
  processing (cl w) = false ->
  dispatch le (String c (String " " rest)) w
  = (Ok Continue, w, [EvThread (TextTurn (Str.strip rest))]).
Proof.
  intros Hc Hrest Hidle.
  assert (Hcmd : Str.strip (String c (String " " rest))
                 = String c (String " " (Str.rstrip rest))).
  { apply StrFacts.strip_inline; [|assumption].
    destruct Hc; subst c; reflexivity. }
  assert (Hlow : Str.lower (Str.strip (String c (String " " rest)))
                 = String "t" (String " " (Str.lower (Str.rstrip rest)))).
  { rewrite Hcmd. destruct Hc; subst c; reflexivity. }
  rewrite dispatch_idle; try assumption.
  - unfold started. cbv zeta. rewrite Hlow, Hcmd.
    cbn [Str.drop]. rewrite StrFacts.strip_rstrip, Hrest.
    assert (Hne := StrFacts.strip_nonempty _ Hrest).
    destruct (Str.rstrip rest) as [|d r]; [contradiction|].
    reflexivity.
  - unfold is_quit. rewrite Hlow. reflexivity.
  - unfold is_reset. rewrite Hlow. reflexivity.
Qed.

Lemma while_running_quit le rest w line :
  running (cl w) = true -> input_line le = Ok line -> is_quit line = true ->
  while_running (le :: rest) w = (Ok tt, w, []).
Proof.
  intros Hrun Hline Hquit. cbn [while_running].
  rewrite run_get_client, Hrun. unfold iteration.
  rewrite Hline. unfold bind, try_except, of_result, ret. cbn.
  rewrite dispatch_quit by assumption. reflexivity.
Qed.

(** A session at the keyboard of an idle client: an inline text, a
    reset, a plain Enter, and quit; what follows quit is not read. *)
Lemma start_session :
  events (start [typed "t lights on"; typed "R"; typed ""; typed "Exit";
                 typed "never read"] idle)
  = [EvPrint (Prompt PromptVoice);
     EvThread (TextTurn "lights on");
     EvResetConversation; EvPrint (ConversationReset "00000000");
     EvPrint (Prompt PromptVoice);
     EvThread VoiceTurn;
     EvPrint Goodbye].
Proof. reflexivity. Qed.

(** C10. Commands are read without regard to capital letters.  When the
    stripped line is [q], [quit] or [exit] with any of its letters
    capitalised, the iteration breaks and the loop ends without reading
    further.  When it is [r] or [reset] so written, the line does what
    the lower-case word does, and that calls [reset_conversation].  And a
    line that begins with [T] and a blank starts the same text turn as
    one that begins with [t] and a blank. *)
Theorem commands_ignore_case (le : loop_env) (line : string) (w : world) :
  (forall tok,
     Str.capitalization tok (Str.strip line) -> In tok quit_tokens ->
     dispatch le line w = (Ok Break, w, []) /\
     (running (cl w) = true -> input_line le = Ok line ->
      forall rest, while_running (le :: rest) w = (Ok tt, w, []))) /\
  (forall tok,
     Str.capitalization tok (Str.strip line) -> In tok reset_tokens ->
     dispatch le line w = dispatch le tok w /\
     exists rest, events (dispatch le line w) = EvResetConversation :: rest) /\
  (forall rest,
     Str.nonempty (Str.strip rest) = true -> processing (cl w) = false ->
     dispatch le (String "T" (String " " rest)) w
     = (Ok Continue, w, [EvThread (TextTurn (Str.strip rest))]) /\
     dispatch le (String "t" (String " " rest)) w
     = (Ok Continue, w, [EvThread (TextTurn (Str.strip rest))])).
Proof.
  split; [|split].
  - intros tok Hcap Htok.
    assert (Hquit : is_quit line = true).
    { unfold is_quit. rewrite (StrFacts.capitalization_lower Hcap).
      cbn in Htok. decompose [or] Htok; subst; try reflexivity.
      contradiction. }
    split; [now apply dispatch_quit|].
    intros Hrun Hline rest. now apply while_running_quit with (line := line).
  - intros tok Hcap Htok.
    assert (Hreset : is_reset line = true).
    { unfold is_reset. rewrite (StrFacts.capitalization_lower Hcap).
      cbn in Htok. decompose [or] Htok; subst; try reflexivity.
      contradiction. }
    assert (Htok' : is_reset tok = true).
    { cbn in Htok. decompose [or] Htok; subst; try reflexivity.
      contradiction. }
    rewrite !dispatch_reset by assumption.
    split; [reflexivity|].
    destruct (reset_result le); eexists; reflexivity.
  - intros rest Hrest Hidle.
    split; apply dispatch_inline; auto.
Qed.

Lemma commands_ignore_case_witness :
  Str.capitalization "quit" (Str.strip "  QuIt ") /\
  while_running [shouting_env; repeating_env] idle = (Ok tt, idle, []) /\
  Str.capitalization "reset" (Str.strip "RESET") /\
  dispatch shouting_env "RESET" idle = dispatch shouting_env "reset" idle /\
  dispatch shouting_env "T  lights on " idle
  = (Ok Continue, idle, [EvThread (TextTurn "lights on")]).
Proof.
  assert (Hq : Str.capitalization "quit" (Str.strip "  QuIt ")).
  { apply (Str.cap_upper "q"), Str.cap_keep, (Str.cap_upper "i"),
      Str.cap_keep, Str.cap_nil. }
  assert (Hr : Str.capitalization "reset" (Str.strip "RESET")).
  { apply (Str.cap_upper "r"), (Str.cap_upper "e"), (Str.cap_upper "s"),
      (Str.cap_upper "e"), (Str.cap_upper "t"), Str.cap_nil. }
  split; [exact Hq|]. split.
  - destruct (commands_ignore_case shouting_env "  QuIt " idle)
      as (Hquit & _ & _).
    destruct (Hquit "quit" Hq) as [_ Hloop].
    + cbn. auto.
    + apply Hloop; reflexivity.
  - split; [exact Hr|]. split.
    + destruct (commands_ignore_case shouting_env "RESET" idle)
        as (_ & Hreset & _).
      apply (Hreset "reset" Hr). cbn. auto.
    + destruct (commands_ignore_case shouting_env "" idle) as (_ & _ & Hinline).
      apply (Hinline " lights on "); reflexivity.
Defined.

(** ** Threads *)

Module InterleavingFacts.

Import Interleaving.

Lemma threads_of_spawned t :
  filter (is_at Spawned) (threads_of t) = threads_of t /\
  filter (is_at InBody) (threads_of t) = [].
Proof.
  induction t as [|ev t [IH1 IH2]]; [auto|].
  destruct ev; cbn; try (split; assumption).
  rewrite IH1. auto.
Qed.

Lemma threads_of_none t : filter is_thread t = [] -> threads_of t = [].
Proof.
  induction t as [|ev t IH]; [reflexivity|].
  destruct ev; cbn; try exact IH. discriminate.
Qed.

Lemma advance_enter i : forall p q,
  advance i Spawned InBody p = Some q ->
  List.length (filter (is_at Spawned) q) + 1
  = List.length (filter (is_at Spawned) p) /\
  List.length (filter (is_at InBody) q)
  = List.length (filter (is_at InBody) p) + 1.
Proof.
  induction i as [|i IH]; intros [|th p] q H; cbn in H; try discriminate.
  - destruct th as [j []]; cbn in H; try discriminate.
    injection H as <-. cbn. lia.
  - destruct (advance i Spawned InBody p) as [q'|] eqn:E; [|discriminate].
    injection H as <-. destruct (IH p q' E) as [H1 H2].
    destruct th as [j []]; cbn; lia.
Qed.

Lemma advance_leave i : forall p q,
  advance i InBody Finished p = Some q ->
  List.length (filter (is_at Spawned) q)
  = List.length (filter (is_at Spawned) p) /\
  List.length (filter (is_at InBody) q) + 1
  = List.length (filter (is_at InBody) p).
Proof.
  induction i as [|i IH]; intros [|th p] q H; cbn in H; try discriminate.
  - destruct th as [j []]; cbn in H; try discriminate.
    injection H as <-. cbn. lia.
  - destruct (advance i InBody Finished p) as [q'|] eqn:E; [|discriminate].
    injection H as <-. destruct (IH p q' E) as [H1 H2].
    destruct th as [j []]; cbn; lia.
Qed.

Lemma iteration_spec le w :
  iteration le w =
  match input_line le with
  | Ok line => dispatch le line w
  | Raise e => if Exn.is_EOF_or_Interrupt e then (Ok Break, w, [])
               else (Raise e, w, [])
  end.
Proof.
  unfold iteration, bind, try_except, of_result, ret.
  destruct (input_line le) as [line|e]; cbn.
  - destruct (dispatch le line w) as [[r w1] t1]. reflexivity.
  - destruct (Exn.is_EOF_or_Interrupt e); reflexivity.
Qed.

Lemma started_one c line : List.length (threads_of (started c line)) <= 1.
Proof.
  unfold started. cbv zeta.
  destruct (Str.startswith _ _ && _ && _); [cbn; lia|].
  destruct (text_mode c); [|cbn; lia].
  destruct (Str.nonempty _); cbn; lia.
Qed.

(** A handled line leaves the flag alone, starts at most one thread, and
    none when the flag is set. *)
Lemma iteration_threads le w :
  processing (cl (final (iteration le w))) = processing (cl w) /\
  List.length (threads_of (events (iteration le w))) <= 1 /\
  (processing (cl w) = true -> threads_of (events (iteration le w)) = []).
Proof.
  rewrite iteration_spec. destruct (input_line le) as [line|e].
  - split; [apply dispatch_keeps_flag|]. split.
    + destruct (is_quit line) eqn:Hq; [rewrite dispatch_quit; cbn; auto|].
      destruct (is_reset line) eqn:Hr.
      * rewrite dispatch_reset by assumption.
        destruct (reset_result le); cbn; lia.
      * destruct (processing (cl w)) eqn:Hp.
        -- rewrite dispatch_busy by assumption. cbn. lia.
        -- rewrite dispatch_idle by assumption. apply started_one.
    + intros Hbusy. apply threads_of_none.
      apply (busy_starts_nothing le line w Hbusy).
  - destruct (Exn.is_EOF_or_Interrupt e); cbn; auto.
Qed.

Lemma stop_keeps_flag w : processing (cl (final (stop w))) = processing (cl w).
Proof.
  unfold stop, bind, get_client, put_client, print, emit. cbn.
  destruct (wake_engine (cl w)); reflexivity.
Qed.

Lemma step_single_flight l s s' :
  single_flight s -> (is_trigger l = true -> pending s = 0) ->
  step l s = Some s' -> single_flight s'.
Proof.
  unfold single_flight, pending, bodies.
  intros [Hone Hidle] Hcalm Hstep. destruct l as [le| |i|i]; cbn in Hstep.
  - specialize (Hcalm eq_refl).
    destruct (alive s && running (shared s)); [|discriminate].
    unfold on_client in Hstep.
    destruct (iteration_threads le (mk_world (shared s) None true))
      as (Hflag & Hlen & Hbusy).
    destruct (iteration le (mk_world (shared s) None true))
      as [[r w1] t1] eqn:E. cbn in Hflag, Hlen, Hbusy.
    destruct (threads_of_spawned t1) as [Hsp Hin].
    assert (Hsum :
              List.length (filter (is_at Spawned) (pool s ++ threads_of t1))
              + List.length (filter (is_at InBody) (pool s ++ threads_of t1))
              <= 1 /\
              (processing (cl w1) = false ->
               List.length (filter (is_at InBody) (pool s ++ threads_of t1))
               = 0)).
    { rewrite !filter_app, !length_app, Hsp, Hin. cbn [List.length].
      rewrite Hflag.
      destruct (processing (shared s)) eqn:Hp.
      - rewrite (Hbusy eq_refl). cbn. split; [lia|discriminate].
      - specialize (Hidle eq_refl). split; [lia|]. intros _. lia. }
    destruct r as [[|]|e].
    + injection Hstep as <-. exact Hsum.
    + pose proof (stop_keeps_flag w1) as Hstop.
      fold (mk_world (cl w1) None true) in Hstep.
      destruct (stop (mk_world (cl w1) None true)) as [[r2 w2] t2] eqn:E2.
      injection Hstep as <-. cbn [shared pool].
      assert (Hs : processing (cl w2) = processing (cl w1)).
      { pose proof (stop_keeps_flag (mk_world (cl w1) None true)) as H.
        rewrite E2 in H. exact H. }
      rewrite Hs. exact Hsum.
    + injection Hstep as <-. exact Hsum.
  - specialize (Hcalm eq_refl). unfold on_client in Hstep.
    rewrite _on_wake_detected_spec in Hstep. cbn [cl mk_world] in Hstep.
    injection Hstep as <-. cbn [shared pool].
    destruct (processing (shared s)) eqn:Hp.
    + destruct (wake_engine (shared s)); cbn [threads_of];
        rewrite app_nil_r; split; (assumption || discriminate).
    + specialize (Hidle eq_refl). cbn [threads_of].
      rewrite !filter_app, !length_app. cbn. split; [lia|]. intros _. lia.
  - destruct (advance i Spawned InBody (pool s)) as [q|] eqn:E;
      [|discriminate].
    injection Hstep as <-. destruct (advance_enter _ _ E) as [H1 H2].
    cbn. split; [lia|discriminate].
  - destruct (advance i InBody Finished (pool s)) as [q|] eqn:E;
      [|discriminate].
    unfold on_client in Hstep. rewrite leave_spec in Hstep.
    injection Hstep as <-. destruct (advance_leave _ _ E) as [H1 H2].
    cbn. split; [lia|]. intros _. lia.
Qed.

Lemma run_unhurried_single_flight ls : forall s s',
  single_flight s -> run_unhurried ls s = Some s' -> single_flight s'.
Proof.
  induction ls as [|l ls IH]; intros s s' Hinv Hrun; cbn in Hrun.
  - injection Hrun as <-. exact Hinv.
  - destruct (is_trigger l && negb (Nat.eqb (pending s) 0)) eqn:Hcalm;
      [discriminate|].
    destruct (step l s) as [s1|] eqn:Hstep; [|discriminate].
    apply (IH s1 s'); [|exact Hrun].
    apply (step_single_flight l Hinv); [|exact Hstep].
    intros Htrig. rewrite Htrig in Hcalm. cbn in Hcalm.
    apply negb_false_iff, Nat.eqb_eq in Hcalm. exact Hcalm.
Qed.

(** A trigger handled while the flag is set starts nothing. *)
Lemma busy_trigger_rejected l s s' :
  is_trigger l = true -> processing (shared s) = true ->
  step l s = Some s' -> pool s' = pool s.
Proof.
  intros Htrig Hbusy Hstep. destruct l as [le| |i|i]; try discriminate;
    cbn in Hstep.
  - destruct (alive s && running (shared s)); [|discriminate].
    unfold on_client in Hstep.
    destruct (iteration_threads le (mk_world (shared s) None true))
      as (_ & _ & Hnone).
    specialize (Hnone Hbusy).
    destruct (iteration le (mk_world (shared s) None true)) as [[r w1] t1].
    cbn in Hnone. rewrite Hnone, app_nil_r in Hstep.
    destruct r as [[|]|e].
    + injection Hstep as <-. reflexivity.
    + destruct (stop _) as [[r2 w2] t2]. injection Hstep as <-. reflexivity.
    + injection Hstep as <-. reflexivity.
  - unfold on_client in Hstep. rewrite _on_wake_detected_spec in Hstep.
    cbn [cl mk_world] in Hstep. rewrite Hbusy in Hstep.
    injection Hstep as <-. cbn.
    destruct (wake_engine (shared s)); cbn; apply app_nil_r.
Qed.

End InterleavingFacts.

(** C4, as stated, fails: the flag is tested by the handler and set by
    the started thread, two separate steps.  Two presses of Enter handled
    before the first thread has reached its first statement start two
    threads, and both are then in their turn body. *)
Lemma try_enter_atomic_counterexample :
  option_map Interleaving.bodies
    (Interleaving.run
       [Interleaving.Line Interleaving.enter_key;
        Interleaving.Line Interleaving.enter_key;
        Interleaving.Enter 0; Interleaving.Enter 1]
       (Interleaving.boot idle_client))
  = Some 2.
Proof. reflexivity. Qed.

(** C4, amended. The busy flag is read by the handlers (the command loop
    and the wake callback) and set by the first statement of the started
    thread.  In every schedule in which the triggers are handled one
    after the other, none of them while a started thread has yet to set
    the flag, at most one turn body executes at any time.  And in any
    state whatever, a trigger handled while the flag is set starts no
    thread. *)
Theorem single_flight_when_unhurried
    (c : client) (ls : list Interleaving.label) (s : Interleaving.sys) :
  (Interleaving.run_unhurried ls (Interleaving.boot c) = Some s ->
   Interleaving.bodies s <= 1) /\
  (forall l s',
     Interleaving.is_trigger l = true ->
     processing (Interleaving.shared s) = true ->
     Interleaving.step l s = Some s' ->
     Interleaving.pool s' = Interleaving.pool s).
Proof.
  split.
  - intros Hrun.
    assert (Hboot : Interleaving.single_flight (Interleaving.boot c)).
    { split; [cbn; lia | reflexivity]. }
    destruct (InterleavingFacts.run_unhurried_single_flight ls Hboot Hrun)
      as [Hone _].
    lia.
  - intros l s' Htrig Hbusy Hstep.
    exact (InterleavingFacts.busy_trigger_rejected l s Htrig Hbusy Hstep).
Qed.

Lemma single_flight_when_unhurried_witness :
  Interleaving.run_unhurried calm_schedule (Interleaving.boot idle_client)
  = Some calm_state /\
  Interleaving.bodies calm_state <= 1 /\
  Interleaving.pool calm_state
  = Interleaving.pool
      {| Interleaving.shared := Interleaving.shared calm_state;
         Interleaving.pool := Interleaving.pool calm_state;
         Interleaving.alive := true |}.
Proof.
  split; [reflexivity|].
  destruct (single_flight_when_unhurried idle_client calm_schedule calm_state)
    as [Hone Hreject].
  split; [apply Hone; reflexivity|].
  symmetry.
  apply (Hreject (Interleaving.Line Interleaving.enter_key)); reflexivity.
Defined.

(** * Further properties *)

(** ** The whole pipeline *)

(** [_run_pipeline] in terms of the hub call: its [finally] never raises
    and its report never fails, so it ends as the hub call ended. *)
Lemma _run_pipeline_run env wav w :
  let x := play_script (_on_chunk env) (hub_voice env)
                       (mk_world (cl w) None true) in
  let y := close_player env (final x) in
  _run_pipeline env wav w
  = (match outcome x with Ok _ => Ok tt | Raise e => Raise e end,
     final y,
     EvStatus ThinkingVoice :: EvVoicePipeline wav (session_id (cl w))
     :: events x ++ events y ++ report_of (outcome x)).
Proof.
  cbv zeta.
  unfold _run_pipeline, _status. rewrite run_emit, run_put_frame.
  fold (mk_world (cl w) None true).
  rewrite run_bind, run_try_finally. unfold voice_pipeline.
  rewrite run_get_client, run_emit. cbv zeta.
  cbn [cl outcome final events fst snd mk_world].
  fold (mk_world (cl w) None true).
  destruct (play_script (_on_chunk env) (hub_voice env)
                        (mk_world (cl w) None true))
    as [[r [c1 [pp1 fc1]]] t1].
  cbn [outcome final events fst snd].
  fold (mk_world c1 pp1 fc1). rewrite close_player_spec.
  destruct pp1 as [p1|], r as [[t rp]|e]; cbn -[closing];
    try (destruct (truthy t); cbn -[closing]);
    rewrite <- ?app_assoc, ?app_nil_r; reflexivity.
Qed.

Section Streaming.

Variable env : turn_env.

(** With a player whose pipe is open and writes that fail at worst by a
    broken pipe, every callback writes its chunk and returns. *)
Lemma play_script_open :
  only_broken_pipes env ->
  forall h c p, stdin_closed p = false ->
    play_script (_on_chunk env) h (mk_world c (Some p) false)
    = (verdict h,
       mk_world c (Some (wrote (List.length (stream h)) p)) false,
       map EvWrite (stream h)).
Proof.
  intros Hpipe h. induction h as [t r|e|chunk next IH]; intros c [sc n] Hopen;
    cbn in Hopen; subst sc.
  - reflexivity.
  - reflexivity.
  - rewrite play_script_chunk, _on_chunk_later. cbv zeta.
    cbn [stdin_closed written outcome final events fst snd].
    rewrite (write_outcome_broken_pipe (Hpipe n)).
    rewrite (IH (Ok tt) c (after_write (Proc false n)) eq_refl).
    cbn [outcome final events fst snd stream verdict map List.length app].
    unfold wrote, after_write. cbn [stdin_closed written].
    rewrite Nat.add_succ_r. reflexivity.
Qed.

(** Without a player the callbacks do nothing. *)
Lemma play_script_mute h : forall c,
  play_script (_on_chunk env) h (mk_world c None false)
  = (verdict h, mk_world c None false, []).
Proof.
  induction h as [t r|e|chunk next IH]; intros c.
  - reflexivity.
  - reflexivity.
  - rewrite play_script_chunk, _on_chunk_later. cbv zeta.
    cbn [outcome final events fst snd]. rewrite IH. reflexivity.
Qed.

End Streaming.

Lemma close_player_events env w :
  events (close_player env w) = if has_player w then closing env else [].
Proof.
  destruct w as [c [pp fc]]. fold (mk_world c pp fc).
  rewrite close_player_spec. unfold has_player.
  destruct pp; reflexivity.
Qed.

(** X1. A voice pipeline with a player command, a spawn that succeeds and
    writes that fail at worst by a broken pipe does exactly this: it
    announces the call, and if the hub streams chunks it announces
    "Speaking", spawns the player once, writes every chunk once in the
    order received, closes the player, and only then prints the report.
    It ends as the hub call ended. *)
Theorem pipeline_streams_in_order (env : turn_env) (wav : bytes) (w : world) :
  player_cmd (cl w) <> [] ->
  popen_result env = None ->
  only_broken_pipes env ->
  events (_run_pipeline env wav w)
  = EvStatus ThinkingVoice :: EvVoicePipeline wav (session_id (cl w))
    :: match stream (hub_voice env) with
       | [] => []
       | chunks =>
           EvStatus Speaking :: EvSpawn (player_cmd (cl w))
           :: map EvWrite chunks ++ closing env
       end
    ++ report_of (verdict (hub_voice env)) /\
  outcome (_run_pipeline env wav w)
  = match verdict (hub_voice env) with Ok _ => Ok tt | Raise e => Raise e end.
Proof.
  intros Hcmd Hpopen Hpipe. rewrite _run_pipeline_run. cbv zeta.
  cbn [outcome events fst snd]. rewrite close_player_events.
  destruct (hub_voice env) as [t r|e|chunk next].
  - split; reflexivity.
  - split; reflexivity.
  - rewrite play_script_chunk, _on_chunk_first.
    destruct (player_cmd (cl w)) as [|a cmd] eqn:Ecmd; [contradiction|].
    rewrite Hpopen. cbv zeta. cbn [outcome final events fst snd].
    rewrite (write_outcome_broken_pipe (Hpipe 0)).
    rewrite (play_script_open Hpipe (next (Ok tt)) (cl w)
               (Proc false 1) eq_refl).
    cbn [outcome final events fst snd stream verdict map app has_player
         mk_world fr player_proc].
    rewrite <- !app_assoc. split; reflexivity.
Qed.

Lemma pipeline_streams_in_order_witness :
  events (_run_pipeline deaf_env silence idle)
  = [EvStatus ThinkingVoice; EvVoicePipeline silence "0123456789ab";
     EvStatus Speaking; EvSpawn (player_cmd idle_client);
     EvWrite [Byte.x01]; EvWrite [Byte.x02]; EvWrite [Byte.x03];
     EvStdinClose; EvWait 30;
     EvPrint Blank; EvPrint (YouSaid "turn on the lights");
     EvPrint (NiaSaid "Done."); EvPrint Blank].
Proof.
  apply (@pipeline_streams_in_order deaf_env silence idle).
  - discriminate.
  - reflexivity.
  - intros n e He. cbn in He. congruence.
Defined.

Lemma _run_pipeline_mute (env : turn_env) (wav : bytes) (w : world) :
  player_cmd (cl w) = [] ->
  events (_run_pipeline env wav w)
  = EvStatus ThinkingVoice :: EvVoicePipeline wav (session_id (cl w))
    :: match hub_voice env with
       | HubChunk _ _ => [EvStatus Speaking; EvPrint NoPlayerWarning]
       | _ => []
       end
    ++ report_of (verdict (hub_voice env)) /\
  outcome (_run_pipeline env wav w)
  = match verdict (hub_voice env) with Ok _ => Ok tt | Raise e => Raise e end.
Proof.
  intros Hcmd. rewrite _run_pipeline_run. cbv zeta.
  cbn [outcome events fst snd]. rewrite close_player_events.
  destruct (hub_voice env) as [t r|e|chunk next].
  - split; reflexivity.
  - split; reflexivity.
  - rewrite play_script_chunk, _on_chunk_first, Hcmd. cbv zeta.
    cbn [outcome final events fst snd]. rewrite play_script_mute.
    split; reflexivity.
Qed.

(** X2. A client for which no player command was found goes through the
    voice pipeline without audio: it warns once, on the first chunk, and
    never spawns, writes or closes anything; the report is printed as
    usual and the pipeline ends as the hub call ended. *)
Theorem pipeline_without_player (env : turn_env) (wav : bytes) (w : world) :
  player_cmd (cl w) = [] ->
  events (_run_pipeline env wav w)
  = EvStatus ThinkingVoice :: EvVoicePipeline wav (session_id (cl w))
    :: match hub_voice env with
       | HubChunk _ _ => [EvStatus Speaking; EvPrint NoPlayerWarning]
       | _ => []
       end
    ++ report_of (verdict (hub_voice env)) /\
  outcome (_run_pipeline env wav w)
  = match verdict (hub_voice env) with Ok _ => Ok tt | Raise e => Raise e end.
Proof. exact (@_run_pipeline_mute env wav w). Qed.

Lemma pipeline_without_player_witness :
  events (_run_pipeline deaf_env silence (mk_world bare_client None true))
  = [EvStatus ThinkingVoice; EvVoicePipeline silence "0123456789ab";
     EvStatus Speaking; EvPrint NoPlayerWarning;
     EvPrint Blank; EvPrint (YouSaid "turn on the lights");
     EvPrint (NiaSaid "Done."); EvPrint Blank].
Proof.
  apply (@pipeline_without_player deaf_env silence
           (mk_world bare_client None true)).
  reflexivity.
Defined.

(** X3. When spawning the player fails on the first chunk, the exception
    leaves the callback into the hub call, the spawn is not tried again
    on later chunks, nothing is written, and the [finally] has nothing
    to close; the pipeline ends as the hub call goes on to end. *)
Theorem pipeline_spawn_failure (env : turn_env) (wav : bytes) (w : world)
    (e : os_error) (chunk : bytes) (next : result unit -> hub_script) :
  player_cmd (cl w) <> [] ->
  popen_result env = Some e ->
  hub_voice env = HubChunk chunk next ->
  events (_run_pipeline env wav w)
  = [EvStatus ThinkingVoice; EvVoicePipeline wav (session_id (cl w));
     EvStatus Speaking; EvSpawnFailed (player_cmd (cl w))]
    ++ report_of (verdict (next (Raise (exn_of e)))) /\
  outcome (_run_pipeline env wav w)
  = match verdict (next (Raise (exn_of e))) with
    | Ok _ => Ok tt
    | Raise e' => Raise e'
    end.
Proof.
  intros Hcmd Hpopen Hhub. rewrite _run_pipeline_run. cbv zeta.
  cbn [outcome events fst snd]. rewrite close_player_events, Hhub.
  rewrite play_script_chunk, _on_chunk_first.
  destruct (player_cmd (cl w)) as [|a cmd] eqn:Ecmd; [contradiction|].
  rewrite Hpopen. cbv zeta. cbn [outcome final events fst snd].
  rewrite play_script_mute. split; reflexivity.
Qed.

Lemma pipeline_spawn_failure_witness :
  events (_run_pipeline jammed_env silence idle)
  = [EvStatus ThinkingVoice; EvVoicePipeline silence "0123456789ab";
     EvStatus Speaking; EvSpawnFailed (player_cmd idle_client)] /\
  outcome (_run_pipeline jammed_env silence idle)
  = Raise (exn_of (OtherError "Exec format error")).
Proof.
  apply (@pipeline_spawn_failure jammed_env silence idle
           (OtherError "Exec format error") [Byte.x01]
           (fun r => match r with
                     | Ok _ => HubReturn (Some "hello") "Hi."
                     | Raise e => HubRaise e
                     end)).
  - discriminate.
  - reflexivity.
  - reflexivity.
Defined.

(** ** How a turn ends *)

Lemma voice_body_run env w :
  voice_body env w =
  match mic_record env with
  | Raise e => (Raise e, w, [EvStatus Listening; EvRecord])
  | Ok wav =>
      if Nat.ltb (List.length wav) 2500
      then (Ok tt, w, [EvStatus Listening; EvRecord; EvStatus NothingCaptured])
      else let p := _run_pipeline env wav w in
           (outcome p, final p, EvStatus Listening :: EvRecord :: events p)
  end.
Proof.
  unfold voice_body, _status, record. rewrite run_emit, run_bind.
  rewrite run_emit. cbn [outcome final events fst snd of_result].
  destruct (mic_record env) as [wav|e]; [|reflexivity].
  cbv zeta. cbn [app].
  destruct (Nat.ltb (List.length wav) 2500); [reflexivity|].
  destruct (_run_pipeline env wav w) as [[r w1] t1]. reflexivity.
Qed.

(** [_run_voice] in terms of its [try] block. *)
Lemma _run_voice_run env w :
  let b := voice_body env (taken w) in
  _run_voice env w
  = (match outcome b with Ok _ => Ok tt | Raise e => after_except e end,
     {| cl := with_processing false (cl w); fr := fr (final b) |},
     EvSetProcessing true :: events b
     ++ match outcome b with Ok _ => [] | Raise e => voice_handler e end
     ++ [EvSetProcessing false; EvPrint (Prompt (prompt_of (cl w)))]).
Proof.
  cbv zeta. unfold _run_voice. unfold bind at 1. unfold set_processing.
  fold (taken w). rewrite run_try_finally. cbv zeta.
  pose proof (voice_body_keeps env (taken w)) as Hk.
  unfold try_except, after_except, voice_handler.
  destruct (voice_body env (taken w)) as [[[u|e] w1] t1];
    cbn [outcome final events fst snd] in *.
  - rewrite leave_spec. cbn [outcome final events fst snd cl fr].
    rewrite Hk. destruct u. reflexivity.
  - destruct (Exn.is_Exception e).
    + cbn -[leave]. rewrite leave_spec.
      cbn [outcome final events fst snd cl fr]. rewrite Hk.
      rewrite <- app_assoc. reflexivity.
    + rewrite leave_spec. cbn [outcome final events fst snd cl fr].
      rewrite Hk. reflexivity.
Qed.

Lemma _on_chunk_callback_result env chunk w :
  callback_result (outcome (_on_chunk env chunk w)).
Proof.
  assert (Hw : forall r, callback_result (write_outcome r)).
  { intros [[|msg]|]; [left|right; eexists|left]; reflexivity. }
  destruct w as [c [pp [|]]].
  - fold (mk_world c pp true). rewrite _on_chunk_first.
    destruct (player_cmd c); [left; reflexivity|].
    destruct (popen_result env) as [oe|]; [right; eexists; reflexivity|].
    apply Hw.
  - fold (mk_world c pp false). rewrite _on_chunk_later.
    destruct pp as [p|]; [|left; reflexivity].
    destruct (stdin_closed p); [left; reflexivity|]. apply Hw.
Qed.

Lemma play_script_tame env h :
  tame_script h ->
  forall w e, outcome (play_script (_on_chunk env) h w) = Raise e ->
              Exn.is_Exception e = true.
Proof.
  induction h as [t r|e0|chunk next IH]; intros Htame w e Hout.
  - discriminate.
  - cbn in Hout. injection Hout as <-. exact Htame.
  - rewrite play_script_chunk in Hout. cbv zeta in Hout.
    cbn [outcome fst] in Hout.
    eapply IH; [|exact Hout].
    apply Htame. apply _on_chunk_callback_result.
Qed.

(** X4. Failures inside a turn do not end the thread.  When the
    microphone raises at worst an [Exception] and so does the hub call,
    whatever the callbacks hand back to it, [_run_voice] returns
    normally; when [chat] raises at worst an [Exception], so does
    [_run_text]. *)
Theorem turn_survives_exceptions (env : turn_env) (w : world) :
  ((forall e, mic_record env = Raise e -> Exn.is_Exception e = true) ->
   tame_script (hub_voice env) ->
   outcome (_run_voice env w) = Ok tt) /\
  ((forall e, hub_chat env = Raise e -> Exn.is_Exception e = true) ->
   forall text, outcome (_run_text env text w) = Ok tt).
Proof.
  split.
  - intros Hmic Hhub. rewrite _run_voice_run. cbv zeta.
    cbn [outcome fst]. rewrite voice_body_run.
    destruct (mic_record env) as [wav|e] eqn:Emic.
    + destruct (Nat.ltb (List.length wav) 2500); [reflexivity|].
      cbv zeta. cbn [outcome fst]. rewrite _run_pipeline_run. cbv zeta.
      cbn [outcome fst].
      destruct (outcome (play_script _ _ _)) as [tr|e] eqn:Eout;
        [reflexivity|].
      unfold after_except.
      rewrite (play_script_tame _ _ Hhub _ Eout). reflexivity.
    + cbn [outcome fst]. unfold after_except.
      rewrite (Hmic e eq_refl). reflexivity.
  - intros Hchat text.
    unfold _run_text, text_body, chat, leave, _prompt, set_processing,
      try_finally, try_except, bind, get_client, _status, print, emit,
      of_result.
    cbn. destruct (hub_chat env) as [reply|e] eqn:Echat; cbn.
    + destruct (text_mode (cl w)), (wake_engine (cl w)); reflexivity.
    + rewrite (Hchat e eq_refl). cbn.
      destruct (text_mode (cl w)), (wake_engine (cl w)); reflexivity.
Qed.

Lemma turn_survives_exceptions_witness :
  outcome (_run_voice raising_env idle) = Ok tt /\
  outcome (_run_voice unplugged_env idle) = Ok tt /\
  outcome (_run_text unplugged_env "lights on" idle) = Ok tt.
Proof.
  split; [|split].
  - apply (turn_survives_exceptions raising_env idle).
    + intros e He. discriminate.
    + intros r Hr. reflexivity.
  - apply (turn_survives_exceptions unplugged_env idle).
    + intros e He. injection He as <-. reflexivity.
    + exact I.
  - apply (turn_survives_exceptions unplugged_env idle).
    intros e He. injection He as <-. reflexivity.
Defined.

(** X5. When the capture raises, the voice turn makes no call to the hub
    and touches no player.  An [Exception] is reported as an error
    status followed by the traceback and the turn returns normally;
    anything else is let through, without a status; in both cases the
    flag is given back and the prompt redrawn. *)
Theorem capture_failure (env : turn_env) (w : world) (e : exn) :
  mic_record env = Raise e ->
  events (_run_voice env w)
  = [EvSetProcessing true; EvStatus Listening; EvRecord]
    ++ (if Exn.is_Exception e
        then [EvStatus (ErrorStatus e); EvPrint Traceback]
        else [])
    ++ [EvSetProcessing false; EvPrint (Prompt (prompt_of (cl w)))] /\
  outcome (_run_voice env w)
  = (if Exn.is_Exception e then Ok tt else Raise e).
Proof.
  intros Hmic. rewrite _run_voice_run. cbv zeta.
  rewrite voice_body_run, Hmic. cbn [outcome final events fst snd].
  unfold voice_handler, after_except. split; reflexivity.
Qed.

Lemma capture_failure_witness :
  events (_run_voice unplugged_env idle)
  = [EvSetProcessing true; EvStatus Listening; EvRecord;
     EvStatus (ErrorStatus boom); EvPrint Traceback;
     EvSetProcessing false; EvPrint (Prompt PromptVoice)] /\
  outcome (_run_voice exiting_env idle) = Raise system_exit.
Proof.
  split.
  - apply (@capture_failure unplugged_env idle boom). reflexivity.
  - apply (@capture_failure exiting_env idle system_exit). reflexivity.
Defined.

(** X6. A text turn is this and nothing else: it echoes the text, asks
    [chat] once with it, prints the reply between two blank lines if
    [chat] returned, or an error status (and no traceback) if it raised an
    [Exception], gives the flag back and redraws the prompt.  It never
    records, never calls the voice pipeline, never touches a player, and
    leaves the client as it found it but for the flag. *)
Theorem text_turn_trace (env : turn_env) (text : string) (w : world) :
  events (_run_text env text w)
  = [EvSetProcessing true; EvPrint (Echo text); EvStatus ThinkingText;
     EvChat text]
    ++ match hub_chat env with
       | Ok reply => [EvPrint Blank; EvPrint (NiaSaid reply); EvPrint Blank]
       | Raise e =>
           if Exn.is_Exception e then [EvStatus (ErrorStatus e)] else []
       end
    ++ [EvSetProcessing false; EvPrint (Prompt (prompt_of (cl w)))] /\
  outcome (_run_text env text w)
  = match hub_chat env with
    | Ok _ => Ok tt
    | Raise e => if Exn.is_Exception e then Ok tt else Raise e
    end /\
  final (_run_text env text w)
  = {| cl := with_processing false (cl w); fr := fr w |}.
Proof.
  unfold _run_text, text_body, chat, leave, _prompt, set_processing,
    try_finally, try_except, bind, get_client, _status, print, emit,
    of_result, prompt_of.
  cbn. destruct (hub_chat env) as [reply|e]; cbn.
  - destruct (text_mode (cl w)), (wake_engine (cl w)); repeat split.
  - destruct (Exn.is_Exception e); cbn;
      destruct (text_mode (cl w)), (wake_engine (cl w)); repeat split.
Qed.

(** ** What is reported *)

Lemma _on_chunk_stream_events env chunk :
  emits stream_event (_on_chunk env chunk).
Proof.
  unfold _on_chunk, _start_player, stdin_write, _status, print.
  walk; exact I.
Qed.

Lemma stream_events_silent t :
  Forall stream_event t ->
  filter is_report t = [] /\ filter is_reply t = [] /\ filter is_error t = [].
Proof.
  induction 1 as [|ev t Hev _ (IH1 & IH2 & IH3)]; [auto|].
  destruct ev; cbn in Hev; try contradiction; cbn; auto.
  - destruct s; try contradiction. cbn. auto.
  - destruct p; try contradiction. cbn. auto.
Qed.

Lemma closing_silent env :
  filter is_report (closing env) = [] /\ filter is_reply (closing env) = [] /\
  filter is_error (closing env) = [].
Proof. unfold closing. destruct (wait_timeout env); auto. Qed.

(** What a pipeline emits before its report is neither a report, nor a
    reply, nor an error status. *)
Lemma pipeline_silent_before_report env wav w :
  exists before,
    events (_run_pipeline env wav w) = before ++ report_of (hub_call env w) /\
    filter is_report before = [] /\ filter is_reply before = [] /\
    filter is_error before = [].
Proof.
  rewrite _run_pipeline_run. cbv zeta. cbn [events snd].
  rewrite close_player_events. fold (hub_call env w).
  pose proof (emits_play_script (P := stream_event) (_on_chunk env)
                (hub_voice env) (_on_chunk_stream_events env)
                (mk_world (cl w) None true)) as Hs.
  destruct (stream_events_silent Hs) as (H1 & H2 & H3).
  destruct (closing_silent env) as (C1 & C2 & C3).
  set (x := play_script (_on_chunk env) (hub_voice env)
                        (mk_world (cl w) None true)) in *.
  exists (EvStatus ThinkingVoice :: EvVoicePipeline wav (session_id (cl w))
          :: events x ++ (if has_player (final x) then closing env else [])).
  split; [cbn; rewrite <- app_assoc; reflexivity|].
  cbn [filter is_report is_reply is_error]. rewrite !filter_app, H1, H2, H3.
  destruct (has_player (final x)); rewrite ?C1, ?C2, ?C3; auto.
Qed.

Lemma report_of_reports r : filter is_report (report_of r) = report_of r.
Proof.
  destruct r as [[t rp]|e]; [|reflexivity].
  cbn. destruct (truthy t); reflexivity.
Qed.

(** X7. What a pipeline reports once the hub call has returned
    [(transcript, reply)]: a blank line, then "You:" with the transcript
    and "Nia:" with the reply, or, when the transcript is missing or
    empty, the status "Nothing transcribed" alone, and a blank line.  So
    with no transcript the reply is never printed, whatever it says. *)
Theorem report_needs_transcript (env : turn_env) (wav : bytes) (w : world)
    (transcript : option string) (reply : string) :
  hub_call env w = Ok (transcript, reply) ->
  filter is_report (events (_run_pipeline env wav w))
  = EvPrint Blank
    :: match transcript with
       | Some (String c s) =>
           [EvPrint (YouSaid (String c s)); EvPrint (NiaSaid reply)]
       | _ => [EvStatus NothingTranscribed]
       end
    ++ [EvPrint Blank] /\
  (transcript = None \/ transcript = Some EmptyString ->
   filter is_reply (events (_run_pipeline env wav w)) = []).
Proof.
  intros Hcall.
  destruct (pipeline_silent_before_report env wav w)
    as (before & Hev & H1 & H2 & _).
  rewrite Hev, Hcall, !filter_app, H1, H2, report_of_reports. split.
  - cbn. destruct transcript as [[|c s]|]; reflexivity.
  - intros [->| ->]; reflexivity.
Qed.

Lemma report_needs_transcript_witness :
  hub_call unheard_env idle = Ok (Some "", "Sorry?") /\
  filter is_report (events (_run_pipeline unheard_env silence idle))
  = [EvPrint Blank; EvStatus NothingTranscribed; EvPrint Blank] /\
  filter is_reply (events (_run_pipeline unheard_env silence idle)) = [].
Proof.
  split; [reflexivity|].
  destruct (@report_needs_transcript unheard_env silence idle
              (Some EmptyString) "Sorry?" eq_refl) as [Hrep Hnone].
  split; [exact Hrep|]. apply Hnone. right. reflexivity.
Defined.

(** X8. When the hub call of a voice turn raises an [Exception], after
    any number of chunks, the turn prints no report at all, shows one
    error status, with that exception, followed by the traceback, after
    everything the pipeline did (the closing of the player included),
    gives the flag back and returns normally. *)
Theorem pipeline_failure_is_reported (env : turn_env) (w : world)
    (wav : bytes) (e : exn) :
  mic_record env = Ok wav ->
  2500 <= List.length wav ->
  hub_call env (taken w) = Raise e ->
  Exn.is_Exception e = true ->
  events (_run_voice env w)
  = [EvSetProcessing true; EvStatus Listening; EvRecord]
    ++ events (_run_pipeline env wav (taken w))
    ++ [EvStatus (ErrorStatus e); EvPrint Traceback;
        EvSetProcessing false; EvPrint (Prompt (prompt_of (cl w)))] /\
  filter is_report (events (_run_voice env w)) = [] /\
  filter is_error (events (_run_voice env w)) = [EvStatus (ErrorStatus e)] /\
  outcome (_run_voice env w) = Ok tt.
Proof.
  intros Hmic Hlen Hcall Hexc.
  apply Nat.ltb_ge in Hlen.
  assert (Hout : outcome (_run_pipeline env wav (taken w)) = Raise e).
  { rewrite _run_pipeline_run. cbv zeta. cbn [outcome fst].
    fold (hub_call env (taken w)). rewrite Hcall. reflexivity. }
  destruct (pipeline_silent_before_report env wav (taken w))
    as (before & Hev & H1 & _ & H3).
  rewrite Hcall in Hev. cbn [report_of] in Hev. rewrite app_nil_r in Hev.
  rewrite _run_voice_run. cbv zeta. rewrite voice_body_run, Hmic, Hlen.
  cbv zeta. cbn [outcome final events fst snd]. rewrite Hout.
  unfold voice_handler, after_except. rewrite Hexc.
  split; [reflexivity|]. rewrite Hev.
  cbn [app filter is_report is_error]. rewrite !filter_app, H1, H3.
  repeat split.
Qed.

Lemma pipeline_failure_is_reported_witness :
  filter is_error (events (_run_voice raising_env idle))
  = [EvStatus (ErrorStatus boom)] /\
  filter is_report (events (_run_voice raising_env idle)) = [] /\
  filter is_close (events (_run_voice raising_env idle))
  = [EvStdinClose; EvWait 30; EvKill].
Proof.
  destruct (@pipeline_failure_is_reported raising_env idle silence boom)
    as (_ & Hrep & Herr & _).
  - reflexivity.
  - unfold silence. rewrite repeat_length. apply Nat.le_refl.
  - reflexivity.
  - reflexivity.
  - split; [exact Herr|]. split; [exact Hrep|]. reflexivity.
Defined.

(** ** Exceptions that are not caught *)

(** X9. What [except Exception] does not catch leaves the turn: when the
    capture raises such an exception, [_run_voice] gives the flag back
    and then raises it, and a turn started by the wake word then never
    resumes the detector, which the engine left paused. *)
Theorem escaped_exception_leaves_detector_paused
    (env : turn_env) (w : world) (e : exn) :
  mic_record env = Raise e ->
  Exn.is_Exception e = false ->
  outcome (_run_voice env w) = Raise e /\
  processing (cl (final (_run_voice env w))) = false /\
  outcome (run_task env WakeTurn w) = Raise e /\
  filter is_resume (events (run_task env WakeTurn w)) = [].
Proof.
  intros Hmic Hexc.
  assert (Hout : outcome (_run_voice env w) = Raise e).
  { rewrite _run_voice_run. cbv zeta. rewrite voice_body_run, Hmic.
    cbn [outcome fst]. unfold after_except. rewrite Hexc. reflexivity. }
  split; [exact Hout|]. split.
  - rewrite _run_voice_final_client. reflexivity.
  - cbn [run_task]. unfold wake_run. rewrite run_bind, Hout.
    cbn [outcome events fst snd]. split; [reflexivity|].
    apply _run_voice_no_resume.
Qed.

Lemma escaped_exception_leaves_detector_paused_witness :
  wake_engine (cl armed) = true /\
  outcome (run_task exiting_env WakeTurn armed) = Raise system_exit /\
  filter is_resume (events (run_task exiting_env WakeTurn armed)) = [].
Proof.
  split; [reflexivity|].
  apply (@escaped_exception_leaves_detector_paused exiting_env armed
           system_exit); reflexivity.
Defined.

(** ** Reading lines *)

Module LineFacts.

Import Str.

Lemma lstrip_empty s : lstrip s = EmptyString -> rstrip s = EmptyString.
Proof.
  induction s as [|c s IH]; [reflexivity|].
  cbn. destruct (isspace c) eqn:Hc; [|discriminate].
  intros H. rewrite (IH H). reflexivity.
Qed.

Lemma lstrip_visible s c r : lstrip s = String c r -> isspace c = false.
Proof.
  induction s as [|d s IH]; [discriminate|].
  cbn. destruct (isspace d) eqn:Hd; [exact IH|].
  intros H. injection H as <- _. exact Hd.
Qed.

Lemma strip_visible line c r : strip line = String c r -> isspace c = false.
Proof.
  unfold strip. rewrite <- StrFacts.lstrip_rstrip. apply lstrip_visible.
Qed.

Lemma strip_fixed line : rstrip (strip line) = strip line.
Proof. unfold strip. apply StrFacts.rstrip_idempotent. Qed.

Lemma lower_char_space c :
  lower_char c = " "%char -> c = " "%char.
Proof.
  destruct c as [[] [] [] [] [] [] [] []]; intros H; vm_compute in H;
    first [discriminate H | reflexivity].
Qed.

Lemma startswith_two s a b :
  startswith s (String a (String b EmptyString)) = true ->
  exists rest, s = String a (String b rest).
Proof.
  unfold startswith. destruct s as [|c [|d rest]]; cbn [prefix].
  - discriminate.
  - destruct (ascii_dec a c); discriminate.
  - destruct (ascii_dec a c); [|discriminate].
    destruct (ascii_dec b d); [|discriminate].
    subst. intros _. eexists. reflexivity.
Qed.

(** A stripped line that begins, in lower case, with [t] and a blank
    goes on with a text that is not blank: after [strip] the tests
    [len(cmd) > 2] and [if text:] of the source cannot fail. *)
Lemma inline_has_text line :
  startswith (lower (strip line)) "t " = true ->
  (2 <? String.length (strip line))%nat = true /\
  nonempty (strip (drop 2 (strip line))) = true.
Proof.
  intros H. pose proof (strip_fixed line) as Hfix.
  destruct (startswith_two _ _ _ H) as [low Hlow].
  destruct (strip line) as [|c [|d rest]] eqn:E; cbn [lower] in Hlow;
    try discriminate.
  injection Hlow as Hc Hd _.
  apply lower_char_space in Hd. subst d.
  assert (Hvis : isspace c = false) by (eapply strip_visible; exact E).
  rewrite StrFacts.rstrip_cons_visible in Hfix by assumption.
  injection Hfix as Hfix.
  assert (Hrest : rstrip rest <> EmptyString).
  { intros Hr. cbn in Hfix. rewrite Hr in Hfix. discriminate. }
  assert (Hne : nonempty (strip rest) = true).
  { unfold strip. destruct (lstrip rest) as [|x y] eqn:El.
    - exfalso. apply Hrest. now apply lstrip_empty.
    - pose proof (lstrip_visible _ El) as Hx.
      rewrite StrFacts.rstrip_cons_visible by assumption. reflexivity. }
  cbn [drop]. split; [|exact Hne].
  destruct rest; [discriminate Hne|reflexivity].
Qed.

End LineFacts.

(** X10. In voice mode an idle client takes every line that is not quit
    or reset in one of two ways: a line that begins with [t] or [T] and a
    blank starts a text turn with the rest of the line, stripped and with
    its capitals; every other line, whatever is typed on it, starts an
    audio turn and its text is dropped. *)
Theorem voice_mode_lines (le : loop_env) (line : string) (w : world) :
  text_mode (cl w) = false ->
  processing (cl w) = false ->
  is_quit line = false ->
  is_reset line = false ->
  dispatch le line w
  = (Ok Continue, w,
     [EvThread
        (if Str.startswith (Str.lower (Str.strip line)) "t "
         then TextTurn (Str.strip (Str.drop 2 (Str.strip line)))
         else VoiceTurn)]).
Proof.
  intros Hmode Hidle Hq Hr. rewrite dispatch_idle by assumption.
  unfold started. cbv zeta. rewrite Hmode.
  destruct (Str.startswith _ "t ") eqn:Hs.
  - destruct (LineFacts.inline_has_text line Hs) as [Hlen Htext].
    rewrite Hlen, Htext. reflexivity.
  - reflexivity.
Qed.

Lemma voice_mode_lines_witness :
  dispatch (typed "what time is it") "what time is it" idle
  = (Ok Continue, idle, [EvThread VoiceTurn]) /\
  dispatch (typed "T  What time is it ") "T  What time is it " idle
  = (Ok Continue, idle, [EvThread (TextTurn "What time is it")]) /\
  dispatch (typed "t") "t" idle = (Ok Continue, idle, [EvThread VoiceTurn]).
Proof.
  split; [|split].
  - apply (@voice_mode_lines (typed "what time is it") "what time is it" idle);
      reflexivity.
  - apply (@voice_mode_lines (typed "T  What time is it ")
             "T  What time is it " idle); reflexivity.
  - apply (@voice_mode_lines (typed "t") "t" idle); reflexivity.
Defined.

(** X11. In text mode an idle client takes every line that is not quit or
    reset as text for [_run_text]: the rest of the line when it begins
    with [t] or [T] and a blank, the whole stripped line otherwise, in
    both cases with its capitals; a blank line only redraws the prompt.
    No line starts an audio turn. *)
Theorem text_mode_lines (le : loop_env) (line : string) (w : world) :
  text_mode (cl w) = true ->
  processing (cl w) = false ->
  is_quit line = false ->
  is_reset line = false ->
  dispatch le line w
  = (Ok Continue, w,
     if Str.startswith (Str.lower (Str.strip line)) "t "
     then [EvThread (TextTurn (Str.strip (Str.drop 2 (Str.strip line))))]
     else match Str.strip line with
          | EmptyString => [EvPrint (Prompt PromptText)]
          | cmd => [EvThread (TextTurn cmd)]
          end).
Proof.
  intros Hmode Hidle Hq Hr. rewrite dispatch_idle by assumption.
  unfold started. cbv zeta. rewrite Hmode.
  destruct (Str.startswith _ "t ") eqn:Hs.
  - destruct (LineFacts.inline_has_text line Hs) as [Hlen Htext].
    rewrite Hlen, Htext. reflexivity.
  - cbn [andb]. destruct (Str.strip line); reflexivity.
Qed.

Lemma text_mode_lines_witness :
  dispatch (typed "  Turn ON the lights ") "  Turn ON the lights " typing
  = (Ok Continue, typing, [EvThread (TextTurn "Turn ON the lights")]) /\
  dispatch (typed "   ") "   " typing
  = (Ok Continue, typing, [EvPrint (Prompt PromptText)]).
Proof.
  split.
  - apply (@text_mode_lines (typed "  Turn ON the lights ")
             "  Turn ON the lights " typing); reflexivity.
  - apply (@text_mode_lines (typed "   ") "   " typing); reflexivity.
Defined.

(** ** The loop as a whole *)

Lemma while_running_step le rest w :
  running (cl w) = true ->
  while_running (le :: rest) w
  = let x := iteration le w in
    match outcome x with
    | Ok Continue =>
        let y := while_running rest (final x) in
        (outcome y, final y, events x ++ events y)
    | Ok Break => (Ok tt, final x, events x)
    | Raise e => (Raise e, final x, events x)
    end.
Proof.
  intros Hrun. cbn [while_running]. rewrite run_get_client, Hrun, run_bind.
  cbv zeta. destruct (outcome (iteration le w)) as [[|]|e]; try reflexivity.
  cbn. rewrite app_nil_r. reflexivity.
Qed.

Lemma same_but_session_refl c : same_but_session c c.
Proof. unfold same_but_session. destruct c; reflexivity. Qed.

Lemma same_but_session_trans c1 c2 c3 :
  same_but_session c1 c2 -> same_but_session c2 c3 -> same_but_session c1 c3.
Proof.
  unfold same_but_session. intros H12 H23. rewrite H23, H12. reflexivity.
Qed.

(** An iteration in which nothing raises past the loop returns, changes
    at most the session identifier, and neither stops the engine nor says
    goodbye. *)
Lemma iteration_calm le w :
  calm le ->
  (exists f, outcome (iteration le w) = Ok f) /\
  same_but_session (cl w) (cl (final (iteration le w))) /\
  filter is_farewell (events (iteration le w)) = [].
Proof.
  intros [Hreset Hinput]. rewrite InterleavingFacts.iteration_spec.
  destruct (input_line le) as [line|e].
  - destruct (is_quit line) eqn:Hq.
    { rewrite dispatch_quit by assumption.
      split; [eexists; reflexivity|]. split; [apply same_but_session_refl|].
      reflexivity. }
    destruct (is_reset line) eqn:Hr.
    { rewrite dispatch_reset, Hreset by assumption.
      split; [eexists; reflexivity|]. split; [reflexivity|]. reflexivity. }
    destruct (processing (cl w)) eqn:Hp.
    + rewrite dispatch_busy by assumption.
      split; [eexists; reflexivity|]. split; [apply same_but_session_refl|].
      reflexivity.
    + rewrite dispatch_idle by assumption.
      split; [eexists; reflexivity|]. split; [apply same_but_session_refl|].
      unfold started. cbv zeta.
      destruct (Str.startswith _ _ && _ && _); [reflexivity|].
      destruct (text_mode (cl w)); [|reflexivity].
      destruct (Str.nonempty _); reflexivity.
  - rewrite (Hinput e eq_refl).
    split; [eexists; reflexivity|]. split; [apply same_but_session_refl|].
    reflexivity.
Qed.

Lemma while_running_calm inputs : forall w,
  Forall calm inputs ->
  outcome (while_running inputs w) = Ok tt /\
  same_but_session (cl w) (cl (final (while_running inputs w))) /\
  filter is_farewell (events (while_running inputs w)) = [].
Proof.
  induction inputs as [|le rest IH]; intros w Hcalm.
  - cbn [while_running]. rewrite run_get_client.
    destruct (running (cl w)); cbn;
      (split; [reflexivity|]); (split; [apply same_but_session_refl|]);
      reflexivity.
  - destruct (running (cl w)) eqn:Hrun.
    + inversion Hcalm as [|? ? Hle Hrest]; subst.
      rewrite while_running_step by assumption. cbv zeta.
      destruct (@iteration_calm le w Hle) as ([f Hf] & Hsame & Hquiet).
      rewrite Hf. destruct f.
      * destruct (IH (final (iteration le w)) Hrest) as (H1 & H2 & H3).
        cbn [outcome final events fst snd].
        split; [exact H1|]. split.
        -- eapply same_but_session_trans; eassumption.
        -- rewrite filter_app, Hquiet, H3. reflexivity.
      * cbn [outcome final events fst snd]. auto.
    + cbn [while_running]. rewrite run_get_client, Hrun. cbn.
      split; [reflexivity|]. split; [apply same_but_session_refl|].
      reflexivity.
Qed.

Lemma stop_spec w :
  stop w
  = (Ok tt,
     {| cl := with_wake_engine false (with_running false (cl w)); fr := fr w |},
     engine_stop (cl w) ++ [EvPrint Goodbye]).
Proof.
  unfold stop, engine_stop, bind, get_client, put_client, print, emit. cbn.
  destruct (wake_engine (cl w)) eqn:Hw; cbn; [reflexivity|].
  unfold with_wake_engine, with_running. cbn. rewrite Hw. reflexivity.
Qed.

(** [start] in terms of its loop. *)
Lemma start_run inputs w :
  let y := while_running inputs
             {| cl := with_running true (cl w); fr := fr w |} in
  start inputs w
  = match outcome y with
    | Ok _ =>
        (Ok tt,
         {| cl := with_wake_engine false (with_running false (cl (final y)));
            fr := fr (final y) |},
         EvPrint (Prompt (prompt_of (cl w))) :: events y
         ++ engine_stop (cl (final y)) ++ [EvPrint Goodbye])
    | Raise e =>
        (Raise e, final y, EvPrint (Prompt (prompt_of (cl w))) :: events y)
    end.
Proof.
  cbv zeta. unfold start.
  rewrite run_get_client. unfold bind at 1. cbn [put_client].
  set (w0 := {| cl := with_running true (cl w); fr := fr w |}).
  assert (Hprompt : _prompt w0 = (Ok tt, w0,
                                  [EvPrint (Prompt (prompt_of (cl w)))])).
  { unfold _prompt, prompt_of. rewrite run_get_client. cbn.
    destruct (text_mode (cl w)); [reflexivity|].
    destruct (wake_engine (cl w)); reflexivity. }
  rewrite run_bind, Hprompt. cbn [outcome final events fst snd]. cbv zeta.
  rewrite run_bind.
  destruct (outcome (while_running inputs w0)) as [u|e]; [|reflexivity].
  cbv zeta. rewrite stop_spec. reflexivity.
Qed.

(** ** Signals during the loop *)

(** [Signals.start] in terms of its loop. *)
Lemma signals_start_run inputs w :
  let y := Signals.while_running inputs
             {| cl := with_running true (cl w); fr := fr w |} in
  Signals.start inputs w
  = match outcome y with
    | Ok _ =>
        (Ok tt,
         {| cl := stopped (cl (final y)); fr := fr (final y) |},
         EvPrint (Prompt (prompt_of (cl w))) :: events y
         ++ engine_stop (cl (final y)) ++ [EvPrint Goodbye])
    | Raise e =>
        (Raise e, final y, EvPrint (Prompt (prompt_of (cl w))) :: events y)
    end.
Proof.
  cbv zeta. unfold Signals.start.
  rewrite run_get_client. unfold bind at 1. cbn [put_client].
  set (w0 := {| cl := with_running true (cl w); fr := fr w |}).
  assert (Hprompt : _prompt w0 = (Ok tt, w0,
                                  [EvPrint (Prompt (prompt_of (cl w)))])).
  { unfold _prompt, prompt_of. rewrite run_get_client. cbn.
    destruct (text_mode (cl w)); [reflexivity|].
    destruct (wake_engine (cl w)); reflexivity. }
  rewrite run_bind, Hprompt. cbn [outcome final events fst snd]. cbv zeta.
  rewrite run_bind.
  destruct (outcome (Signals.while_running inputs w0)) as [u|e]; [|reflexivity].
  cbv zeta. rewrite stop_spec. reflexivity.
Qed.

(** The handler run once or more: the engine is stopped by the first run
    only, every run says goodbye. *)
Lemma handlers_spec k : forall w,
  Signals.handlers (S k) w
  = (Ok tt, {| cl := stopped (cl w); fr := fr w |},
     engine_stop (cl w) ++ repeat (EvPrint Goodbye) (S k)).
Proof.
  induction k as [|k IH]; intros w.
  - cbn [Signals.handlers]. rewrite run_bind, stop_spec.
    cbn [outcome final events fst snd ret]. cbv zeta.
    cbn [outcome final events fst snd ret repeat]. rewrite app_nil_r.
    reflexivity.
  - change (Signals.handlers (S (S k)))
      with (stop ;; Signals.handlers (S k)).
    rewrite run_bind, stop_spec. cbn [outcome final events fst snd].
    cbv zeta. rewrite IH. cbn [outcome final events fst snd cl fr].
    unfold engine_stop at 2. cbn [stopped wake_engine with_wake_engine app].
    rewrite <- app_assoc. reflexivity.
Qed.

Lemma handlers_outcome n w : outcome (Signals.handlers n w) = Ok tt.
Proof. destruct n; [reflexivity|]. rewrite handlers_spec. reflexivity. Qed.

(** An iteration is the handlers, then the iteration without signals. *)
Lemma signals_iteration_spec re w :
  Signals.iteration re w
  = let h := Signals.handlers (Signals.arrivals re) w in
    let x := iteration (Signals.outside re) (final h) in
    (outcome x, final x, events h ++ events x).
Proof.
  cbv zeta. rewrite InterleavingFacts.iteration_spec.
  pose proof (handlers_outcome (Signals.arrivals re) w) as Hok.
  unfold Signals.iteration, Signals.input, bind, try_except, of_result, ret.
  destruct (Signals.handlers (Signals.arrivals re) w) as [[r w1] t1].
  cbn [outcome fst] in Hok. subst r. cbn [final events fst snd].
  destruct (input_line (Signals.outside re)) as [line|e];
    cbn [app]; rewrite ?app_nil_r.
  - destruct (dispatch (Signals.outside re) line w1) as [[r w2] t2].
    reflexivity.
  - destruct (Exn.is_EOF_or_Interrupt e); cbn; rewrite ?app_nil_r;
      reflexivity.
Qed.

Lemma signals_while_running_step re rest w :
  running (cl w) = true ->
  Signals.while_running (re :: rest) w
  = let x := Signals.iteration re w in
    match outcome x with
    | Ok Continue =>
        let y := Signals.while_running rest (final x) in
        (outcome y, final y, events x ++ events y)
    | Ok Break => (Ok tt, final x, events x)
    | Raise e => (Raise e, final x, events x)
    end.
Proof.
  intros Hrun. cbn [Signals.while_running].
  rewrite run_get_client, Hrun, run_bind.
  cbv zeta. destruct (outcome (Signals.iteration re w)) as [[|]|e];
    try reflexivity.
  cbn. rewrite app_nil_r. reflexivity.
Qed.

Lemma signals_while_running_stopped inputs w :
  running (cl w) = false ->
  Signals.while_running inputs w = (Ok tt, w, []).
Proof.
  intros Hrun. destruct inputs; cbn [Signals.while_running];
    rewrite run_get_client, Hrun; reflexivity.
Qed.

(** Without a signal the loop is [while_running]. *)
Lemma signals_while_running_undisturbed inputs : forall w,
  Forall no_arrival inputs ->
  Signals.while_running inputs w
  = while_running (map Signals.outside inputs) w.
Proof.
  induction inputs as [|re rest IH]; intros w Hnone; [reflexivity|].
  inversion Hnone as [|? ? Hre Hrest]; subst.
  destruct (running (cl w)) eqn:Hrun.
  - cbn [map]. rewrite signals_while_running_step, while_running_step
      by assumption.
    rewrite signals_iteration_spec. unfold no_arrival in Hre. rewrite Hre.
    cbv zeta. cbn [Signals.handlers ret outcome final events fst snd app].
    destruct (outcome (iteration (Signals.outside re) w)) as [[|]|e];
      try reflexivity.
    rewrite IH by assumption. reflexivity.
  - rewrite signals_while_running_stopped by assumption.
    cbn [map while_running]. rewrite run_get_client, Hrun. reflexivity.
Qed.

(** [start] is [Signals.start] when no signal arrives. *)
Lemma signals_start_undisturbed inputs w :
  Signals.start (map Signals.undisturbed inputs) w = start inputs w.
Proof.
  rewrite signals_start_run, start_run. cbv zeta.
  rewrite signals_while_running_undisturbed.
  - rewrite map_map. cbn [Signals.outside Signals.undisturbed].
    rewrite map_id. reflexivity.
  - apply Forall_map. apply Forall_forall. intros le _. reflexivity.
Qed.

Lemma filter_engine_stop_farewell t :
  filter is_farewell t = [] -> filter is_engine_stop t = [].
Proof.
  induction t as [|ev t IH]; [reflexivity|].
  cbn [filter]. destruct ev; cbn [is_farewell is_engine_stop];
    try exact IH; try discriminate.
  destruct p; first [exact IH | discriminate].
Qed.

Lemma filter_engine_stop_goodbyes n :
  filter is_engine_stop (repeat (EvPrint Goodbye) n) = [].
Proof. induction n; [reflexivity|exact IHn]. Qed.

Lemma filter_engine_stop_engine_stop c :
  filter is_engine_stop (engine_stop c) = engine_stop c.
Proof. unfold engine_stop. destruct (wake_engine c); reflexivity. Qed.

(** The handlers stop the engine if it is there, and leave none. *)
Lemma handlers_engine n w :
  filter is_engine_stop (events (Signals.handlers n w))
  ++ engine_stop (cl (final (Signals.handlers n w)))
  = engine_stop (cl w).
Proof.
  destruct n; [reflexivity|]. rewrite handlers_spec.
  cbn [events final fst snd cl].
  rewrite filter_app, filter_engine_stop_engine_stop,
    filter_engine_stop_goodbyes.
  unfold engine_stop at 2. cbn. rewrite !app_nil_r. reflexivity.
Qed.

(** Over a loop in which nothing raises, signals or not, the engine is
    stopped by the first handler that runs, if any, and stays for the
    [stop] after the loop otherwise. *)
Lemma signals_while_running_calm inputs : forall w,
  Forall calm_read inputs ->
  outcome (Signals.while_running inputs w) = Ok tt /\
  filter is_engine_stop (events (Signals.while_running inputs w))
  ++ engine_stop (cl (final (Signals.while_running inputs w)))
  = engine_stop (cl w).
Proof.
  induction inputs as [|re rest IH]; intros w Hcalm.
  - cbn [Signals.while_running]. rewrite run_get_client.
    destruct (running (cl w)); split; reflexivity.
  - destruct (running (cl w)) eqn:Hrun;
      [|rewrite signals_while_running_stopped by assumption;
        split; reflexivity].
    inversion Hcalm as [|? ? Hre Hrest]; subst.
    rewrite signals_while_running_step by assumption.
    rewrite signals_iteration_spec. cbv zeta.
    set (h := Signals.handlers (Signals.arrivals re) w).
    destruct (@iteration_calm (Signals.outside re) (final h) Hre)
      as ([f Hf] & Hsame & Hquiet).
    pose proof (handlers_engine (Signals.arrivals re) w) as Hh.
    fold h in Hh.
    assert (Hengine : engine_stop
                        (cl (final (iteration (Signals.outside re) (final h))))
                      = engine_stop (cl (final h))).
    { unfold engine_stop. rewrite Hsame. reflexivity. }
    apply filter_engine_stop_farewell in Hquiet.
    cbn [outcome final events fst snd]. rewrite Hf. destruct f.
    + destruct (IH (final (iteration (Signals.outside re) (final h))) Hrest)
        as (H1 & H2).
      cbn [outcome final events fst snd]. split; [exact H1|].
      rewrite !filter_app, Hquiet, app_nil_r, <- app_assoc, H2, Hengine.
      exact Hh.
    + cbn [outcome final events fst snd]. split; [reflexivity|].
      rewrite filter_app, Hquiet, app_nil_r, Hengine. exact Hh.
Qed.

(** X12. However many lines are typed and however many signals arrive
    while they are read, when nothing raises past the loop (reads end at
    worst by end of input or an interrupt, resets reach the hub), [start]
    ends normally.  It leaves the client not running and without engine,
    it has stopped the wake engine exactly once if one was installed and
    never otherwise, and saying goodbye is its last act.  When no signal
    arrives it says goodbye once only, just after stopping the engine, and
    nothing before stops the engine or says goodbye. *)
Theorem loop_exits_cleanly (inputs : list Signals.read_env) (w : world) :
  Forall calm_read inputs ->
  outcome (Signals.start inputs w) = Ok tt /\
  running (cl (final (Signals.start inputs w))) = false /\
  wake_engine (cl (final (Signals.start inputs w))) = false /\
  filter is_engine_stop (events (Signals.start inputs w))
  = engine_stop (cl w) /\
  (exists body,
     events (Signals.start inputs w)
     = EvPrint (Prompt (prompt_of (cl w))) :: body ++ [EvPrint Goodbye]) /\
  (Forall no_arrival inputs ->
   exists body,
     events (Signals.start inputs w)
     = EvPrint (Prompt (prompt_of (cl w))) :: body
       ++ engine_stop (cl w) ++ [EvPrint Goodbye] /\
     filter is_farewell body = []).
Proof.
  intros Hcalm. rewrite signals_start_run. cbv zeta.
  set (w0 := {| cl := with_running true (cl w); fr := fr w |}).
  destruct (@signals_while_running_calm inputs w0 Hcalm) as (Hout & Hstop).
  rewrite Hout. cbn [outcome final events fst snd cl].
  split; [reflexivity|]. split; [reflexivity|]. split; [reflexivity|].
  split; [|split].
  - cbn [filter is_engine_stop].
    rewrite !filter_app, filter_engine_stop_engine_stop.
    cbn [filter is_engine_stop]. rewrite app_nil_r. exact Hstop.
  - exists (events (Signals.while_running inputs w0)
            ++ engine_stop (cl (final (Signals.while_running inputs w0)))).
    rewrite <- app_assoc. reflexivity.
  - intros Hnone.
    rewrite (@signals_while_running_undisturbed inputs w0 Hnone).
    assert (Hcalm' : Forall calm (map Signals.outside inputs)).
    { apply Forall_map. exact Hcalm. }
    destruct (@while_running_calm _ w0 Hcalm') as (_ & Hsame & Hquiet).
    exists (events (while_running (map Signals.outside inputs) w0)).
    split; [|exact Hquiet].
    unfold engine_stop. rewrite Hsame. reflexivity.
Qed.

Lemma loop_exits_cleanly_witness :
  filter is_engine_stop
    (events (Signals.start [interrupted "t lights on"; interrupted "q"]
               armed))
  = [EvEngineStop] /\
  exists body,
    events (Signals.start (map Signals.undisturbed
                             [typed "t lights on"; typed "R"; typed "";
                              typed "Exit"]) armed)
    = EvPrint (Prompt (PromptWake (Some "hey_jarvis"))) :: body
      ++ [EvEngineStop; EvPrint Goodbye] /\
    filter is_farewell body = [].
Proof.
  split.
  - assert (H : Forall calm_read
                  [interrupted "t lights on"; interrupted "q"]).
    { repeat constructor; intros e He; discriminate He. }
    destruct (@loop_exits_cleanly _ armed H) as (_ & _ & _ & Hstop & _).
    exact Hstop.
  - assert (H : Forall calm_read
                  (map Signals.undisturbed
                     [typed "t lights on"; typed "R"; typed "";
                      typed "Exit"])).
    { repeat constructor; intros e He; discriminate He. }
    destruct (@loop_exits_cleanly _ armed H) as (_ & _ & _ & _ & _ & Hlast).
    apply Hlast. repeat constructor.
Defined.



(** X14. A line that would start a turn, typed while the client is busy,
    is dropped, not queued: the loop says "Still processing", redraws the
    prompt and goes on with the next line from the very same state. *)
Theorem busy_line_is_dropped
    (le : loop_env) (rest : list loop_env) (line : string) (w : world) :
  running (cl w) = true ->
  processing (cl w) = true ->
  input_line le = Ok line ->
  is_quit line = false ->
  is_reset line = false ->
  while_running (le :: rest) w
  = (outcome (while_running rest w), final (while_running rest w),
     [EvPrint StillProcessing; EvPrint (Prompt (prompt_of (cl w)))]
     ++ events (while_running rest w)).
Proof.
  intros Hrun Hbusy Hline Hq Hr.
  rewrite while_running_step by assumption. cbv zeta.
  rewrite InterleavingFacts.iteration_spec, Hline.
  rewrite dispatch_busy by assumption. reflexivity.
Qed.

Lemma busy_line_is_dropped_witness :
  events (while_running [typed "t lights on"; typed ""; typed "q"] idle_busy)
  = [EvPrint StillProcessing; EvPrint (Prompt PromptVoice);
     EvPrint StillProcessing; EvPrint (Prompt PromptVoice)].
Proof.
  rewrite (@busy_line_is_dropped (typed "t lights on")
             [typed ""; typed "q"] "t lights on" idle_busy)
    by reflexivity.
  rewrite (@busy_line_is_dropped (typed "") [typed "q"] "" idle_busy)
    by reflexivity.
  reflexivity.
Defined.



(** ** The flag and the turn in flight *)

Module FlagFacts.

Import Interleaving.

(** What each step does to the flag and to the number of bodies. *)
Lemma step_effect l s s' :
  step l s = Some s' ->
  match l with
  | Line _ | Wake =>
      processing (shared s') = processing (shared s) /\ bodies s' = bodies s
  | Enter _ =>
      processing (shared s') = true /\ bodies s' = bodies s + 1 /\
      pending s' + 1 = pending s
  | Leave _ => processing (shared s') = false
  end.
Proof.
  unfold bodies, pending. intros Hstep.
  destruct l as [le| |i|i]; cbn in Hstep.
  - destruct (alive s && running (shared s)); [|discriminate].
    unfold on_client in Hstep.
    destruct (InterleavingFacts.iteration_threads le
                (mk_world (shared s) None true)) as (Hflag & _ & _).
    destruct (iteration le (mk_world (shared s) None true))
      as [[r w1] t1] eqn:E. cbn in Hflag.
    destruct (InterleavingFacts.threads_of_spawned t1) as [_ Hin].
    assert (Hb : List.length (filter (is_at InBody) (pool s ++ threads_of t1))
                 = List.length (filter (is_at InBody) (pool s))).
    { rewrite filter_app, length_app, Hin. cbn. lia. }
    destruct r as [[|]|e].
    + injection Hstep as <-. cbn. auto.
    + fold (mk_world (cl w1) None true) in Hstep.
      pose proof (InterleavingFacts.stop_keeps_flag
                    (mk_world (cl w1) None true)) as Hs.
      destruct (stop (mk_world (cl w1) None true)) as [[r2 w2] t2].
      injection Hstep as <-. cbn in *. split; [congruence|exact Hb].
    + injection Hstep as <-. cbn. auto.
  - unfold on_client in Hstep. rewrite _on_wake_detected_spec in Hstep.
    cbn [cl mk_world] in Hstep. injection Hstep as <-. cbn [shared pool].
    split; [reflexivity|].
    rewrite filter_app, length_app.
    destruct (processing (shared s)); [destruct (wake_engine (shared s))|];
      cbn; lia.
  - destruct (advance i Spawned InBody (pool s)) as [q|] eqn:E;
      [|discriminate].
    injection Hstep as <-.
    destruct (InterleavingFacts.advance_enter _ _ E) as [H1 H2].
    cbn. split; [reflexivity|]. split; lia.
  - destruct (advance i InBody Finished (pool s)) as [q|] eqn:E;
      [|discriminate].
    unfold on_client in Hstep. rewrite leave_spec in Hstep.
    injection Hstep as <-. reflexivity.
Qed.

Lemma run_unhurried_mirror ls : forall s s',
  single_flight s ->
  (processing (shared s) = true -> bodies s = 1) ->
  run_unhurried ls s = Some s' ->
  single_flight s' /\ (processing (shared s') = true -> bodies s' = 1).
Proof.
  induction ls as [|l ls IH]; intros s s' Hinv Hone Hrun; cbn in Hrun.
  - injection Hrun as <-. auto.
  - destruct (is_trigger l && negb (Nat.eqb (pending s) 0)) eqn:Hcalm;
      [discriminate|].
    destruct (step l s) as [s1|] eqn:Hstep; [|discriminate].
    apply (IH s1 s'); [| |exact Hrun].
    + apply (InterleavingFacts.step_single_flight l Hinv); [|exact Hstep].
      intros Htrig. rewrite Htrig in Hcalm. cbn in Hcalm.
      apply negb_false_iff, Nat.eqb_eq in Hcalm. exact Hcalm.
    + pose proof (step_effect l s Hstep) as He.
      destruct Hinv as [Hsum _].
      destruct l; cbn in He.
      * destruct He as [Hf Hb]. rewrite Hf, Hb. exact Hone.
      * destruct He as [Hf Hb]. rewrite Hf, Hb. exact Hone.
      * destruct He as (_ & Hb & Hp). intros _. lia.
      * rewrite He. discriminate.
Qed.

End FlagFacts.

(** X16. In every schedule in which the triggers are handled one after
    the other, none while a started thread has yet to set the flag, the
    busy flag tells the truth: it is set exactly while a turn body is
    executing, and then there is one. *)
Theorem flag_mirrors_turn_in_flight
    (c : client) (ls : list Interleaving.label) (s : Interleaving.sys) :
  Interleaving.run_unhurried ls (Interleaving.boot c) = Some s ->
  Interleaving.bodies s
  = if processing (Interleaving.shared s) then 1 else 0.
Proof.
  intros Hrun.
  assert (Hboot : Interleaving.single_flight (Interleaving.boot c)).
  { split; [cbn; lia | reflexivity]. }
  destruct (@FlagFacts.run_unhurried_mirror ls (Interleaving.boot c) s Hboot)
    as [[_ Hidle] Hbusy]; [discriminate|exact Hrun|].
  destruct (processing (Interleaving.shared s)); auto.
Qed.

Lemma flag_mirrors_turn_in_flight_witness :
  Interleaving.run_unhurried calm_schedule (Interleaving.boot idle_client)
  = Some calm_state /\
  Interleaving.bodies calm_state = 1.
Proof.
  split; [reflexivity|].
  apply (@flag_mirrors_turn_in_flight idle_client calm_schedule calm_state).
  reflexivity.
Defined.

(** ** Player discovery *)

(** Settles that the candidates before the one picked were passed over,
    from the equations on their probes. *)
Ltac passed_over :=
  let b := fresh "b" in
  let Hb := fresh "Hb" in
  intros b Hb; cbn in Hb;
  repeat (destruct Hb as [<-|Hb];
          [unfold absent, probed; cbn;
           first [left; assumption | right; assumption]|]);
  contradiction.

(** Picks the [n]-th candidate. *)
Ltac pick n :=
  exists (firstn n candidates), (nth n candidates (EmptyString, EmptyString, [])),
         (skipn (S n) candidates);
  split; [reflexivity|];
  repeat (split; [first [reflexivity | assumption]|]);
  passed_over.

(** X17. [_find_player] takes the first program that runs, trying in
    order ffplay under /opt/homebrew/bin, ffplay on the path, mpv under
    /opt/homebrew/bin and mpv on the path.  The command it returns is
    that program with the arguments of its kind, every candidate before
    it was missing or exited with an error, and its own probe ran; it
    returns the empty command only when all four were so passed over;
    and it raises only what the probe of the first candidate not passed
    over raised. *)
Theorem find_player_takes_first_that_runs (probe : list string -> probe_outcome) :
  match _find_player probe with
  | Ok [] => forall c, In c candidates -> absent (probed probe c)
  | Ok cmd =>
      exists before c after,
        candidates = before ++ c :: after /\
        cmd = fst (fst c) :: snd c /\
        probed probe c = Ran /\
        forall b, In b before -> absent (probed probe b)
  | Raise e =>
      exists before c after,
        candidates = before ++ c :: after /\
        probed probe c = ProbeRaises e /\
        forall b, In b before -> absent (probed probe b)
  end.
Proof.
  unfold _find_player. cbn [first_player].
  repeat (match goal with
          | |- context [match probe ?argv with Ran => _ | _ => _ end] =>
              destruct (probe argv) eqn:?
          end; cbn [first_player]);
    cbn -[candidates];
    try solve [pick 0 | pick 1 | pick 2 | pick 3];
    passed_over.
Qed.

Lemma find_player_none probe :
  (forall c, In c candidates -> absent (probed probe c)) ->
  _find_player probe = Ok [].
Proof.
  intros Habs. unfold _find_player. cbn [first_player].
  assert (H1 := Habs _ (or_introl eq_refl)).
  assert (H2 := Habs _ (or_intror (or_introl eq_refl))).
  assert (H3 := Habs _ (or_intror (or_intror (or_introl eq_refl)))).
  assert (H4 := Habs _ (or_intror (or_intror (or_intror (or_introl eq_refl))))).
  unfold absent, probed in H1, H2, H3, H4. cbn in H1, H2, H3, H4.
  destruct H1 as [-> | ->], H2 as [-> | ->], H3 as [-> | ->],
    H4 as [-> | ->]; reflexivity.
Qed.

Lemma report_of_leaves_player r : filter touches_player (report_of r) = [].
Proof.
  destruct r as [[t rp]|e]; [|reflexivity].
  cbn. destruct (truthy t); reflexivity.
Qed.

Lemma _run_voice_mute env w :
  player_cmd (cl w) = [] ->
  filter touches_player (events (_run_voice env w)) = [].
Proof.
  intros Hcmd. rewrite _run_voice_run. cbv zeta. rewrite voice_body_run.
  assert (Hh : forall e, filter touches_player (voice_handler e) = []).
  { intros e. unfold voice_handler. destruct (Exn.is_Exception e); reflexivity. }
  destruct (mic_record env) as [wav|e].
  - destruct (Nat.ltb (List.length wav) 2500); [reflexivity|].
    cbv zeta. cbn [outcome final events fst snd].
    destruct (@_run_pipeline_mute env wav (taken w) Hcmd) as [Hev Hout].
    rewrite Hev. cbn [filter touches_player app].
    rewrite !filter_app, report_of_leaves_player.
    destruct (outcome (_run_pipeline env wav (taken w))) as [u|e];
      rewrite ?Hh; destruct (hub_voice env); reflexivity.
  - cbn [outcome final events fst snd]. cbn [filter touches_player app].
    rewrite !filter_app, Hh. reflexivity.
Qed.

(** X18. A client constructed on a machine where none of the four
    players can be run has an empty player command, and then no voice
    turn it runs, whatever the microphone and the hub do, spawns a
    process, writes to one or closes one. *)
Theorem no_player_no_process (ie : init_env) (text : bool)
    (wake : option string) (c : client) :
  (forall cand, In cand candidates -> absent (probed (probe ie) cand)) ->
  __init__ ie text wake = Ok c ->
  player_cmd c = [] /\
  forall env w, cl w = c ->
    filter touches_player (events (_run_voice env w)) = [].
Proof.
  intros Habs Hinit. unfold __init__ in Hinit.
  rewrite (find_player_none _ Habs) in Hinit.
  destruct (new_hub ie); [|discriminate].
  destruct (new_mic ie); [|discriminate].
  injection Hinit as <-. split; [reflexivity|].
  intros env w Hw. apply _run_voice_mute. rewrite Hw. reflexivity.
Qed.

Lemma no_player_no_process_witness :
  exists c,
    __init__ bare_init false None = Ok c /\
    filter touches_player
      (events (_run_voice deaf_env (mk_world c None true))) = [].
Proof.
  eexists. split; [reflexivity|].
  eapply (@no_player_no_process bare_init false None).
  - intros cand Hc. left. reflexivity.
  - reflexivity.
  - reflexivity.
Defined.

(** ** Start-up *)

(** X19. Without a hub URL, or without an API key, the program ends
    before anything else happens.  The client is constructed first: if
    the constructor raises, the exception leaves [main] before anything is
    printed.  Otherwise, after the banner (and the path of the
    configuration file, if one was loaded) the program names the missing
    variable, the URL first, and returns normally, with no call on the
    hub, no wake engine and no line read.  What counts is the configured
    value unless the command line gives one that is not empty. *)
Theorem missing_configuration (a : Boot.args) (cfg : Boot.config)
    (ie : init_env) (be : Boot.boot_env) (inputs : list Signals.read_env) :
  Boot.override (Boot.arg_hub a) (Boot.NIA_HUB_URL cfg) = EmptyString \/
  Boot.override (Boot.arg_key a) (Boot.NIA_API_KEY cfg) = EmptyString ->
  Boot.main a cfg ie be inputs
  = match __init__ ie (Boot.arg_text a) (Boot.wake_of a) with
    | Raise e => (Raise e, [])
    | Ok _ =>
        (Ok tt,
         map Boot.Setup
           (preamble be
            ++ [Boot.Say
                  (Boot.MissingVariable
                     (match Boot.override (Boot.arg_hub a)
                              (Boot.NIA_HUB_URL cfg) with
                      | EmptyString => "NIA_HUB_URL"
                      | _ => "NIA_API_KEY"
                      end))]))
    end.
Proof.
  intros Hmissing. unfold Boot.main.
  destruct (__init__ ie (Boot.arg_text a) (Boot.wake_of a)) as [c|e];
    [|reflexivity].
  unfold Boot.start_client, Boot.startup, preamble, Boot.overridden.
  cbn [Boot.NIA_HUB_URL Boot.NIA_API_KEY].
  destruct (Str.nonempty (Boot.env_path be));
    destruct (Boot.override (Boot.arg_hub a) (Boot.NIA_HUB_URL cfg)) eqn:Eu;
    try reflexivity;
    destruct Hmissing as [Hm|Hm]; try discriminate; rewrite Hm; reflexivity.
Qed.

Lemma missing_configuration_witness :
  Boot.main blank_key_args keyless_config bare_init good_boot
            [interrupted ""; interrupted "q"]
  = (Ok tt,
     [Boot.Setup (Boot.Say Boot.Banner);
      Boot.Setup (Boot.Say (Boot.ConfigPath ".env"));
      Boot.Setup (Boot.Say (Boot.MissingVariable "NIA_API_KEY"))]) /\
  Boot.main blank_key_args keyless_config broken_init good_boot
            [interrupted ""; interrupted "q"]
  = (Raise boom, []).
Proof.
  split.
  - exact (@missing_configuration blank_key_args keyless_config bare_init
             good_boot [interrupted ""; interrupted "q"]
             (or_intror eq_refl)).
  - exact (@missing_configuration blank_key_args keyless_config broken_init
             good_boot [interrupted ""; interrupted "q"]
             (or_intror eq_refl)).
Defined.

Lemma _connect_no_engine cfg be :
  filter is_engine_event (fst (Boot._connect cfg be)) = [].
Proof.
  unfold Boot._connect, Boot.then_, Boot.say, Boot.call, Boot.unit_.
  destruct (Boot.connect_with_retry be); [|reflexivity].
  destruct (Boot.fetch_device_config be); [|reflexivity].
  destruct (Boot.fetch_ai_config be) as [ai|]; [|reflexivity].
  destruct (Boot.apply_ai_config be); [|reflexivity].
  destruct (Boot.fetch_system_context be); [|reflexivity].
  destruct (Boot.apply_device_config be); [|reflexivity].
  destruct (Boot.first_reset be); [|reflexivity].
  destruct (Str.nonempty (Boot.NIA_ROOM cfg)), ai; reflexivity.
Qed.

(** X20. When the hub cannot be set up, [start] gives up without
    crashing: if [_connect] raises an [Exception], at whichever of its
    calls, the program says that the connection failed, with the
    exception and the URL, and returns normally; no wake engine is
    created and no line is read.  What is not an [Exception] leaves
    [start] as it is. *)
Theorem connection_failure (cfg : Boot.config) (be : Boot.boot_env)
    (inputs : list Signals.read_env) (c : client) (e : exn) :
  Boot.NIA_HUB_URL cfg <> EmptyString ->
  Boot.NIA_API_KEY cfg <> EmptyString ->
  snd (Boot._connect cfg be) = Raise e ->
  Boot.start_client cfg be inputs c
  = (if Exn.is_Exception e then Ok tt else Raise e,
     map Boot.Setup
       (preamble be ++ fst (Boot._connect cfg be)
        ++ if Exn.is_Exception e
           then [Boot.Say (Boot.ConnectionFailed e (Boot.NIA_HUB_URL cfg))]
           else [])) /\
  filter is_engine_event (fst (Boot._connect cfg be)) = [].
Proof.
  intros Hurl Hkey Hfail. split; [|apply _connect_no_engine].
  unfold Boot.start_client, Boot.startup, preamble.
  destruct (Boot.NIA_HUB_URL cfg) as [|u url] eqn:Eu; [contradiction|].
  destruct (Boot.NIA_API_KEY cfg) as [|k key]; [contradiction|].
  destruct (Boot._connect cfg be) as [t r]. cbn in Hfail. subst r.
  unfold Boot.then_, Boot.rescue, Boot.say, Boot.unit_.
  destruct (Str.nonempty (Boot.env_path be)), (Exn.is_Exception e); cbn;
    rewrite ?app_nil_r; reflexivity.
Qed.

Lemma connection_failure_witness :
  Boot.start_client home_config bad_boot [interrupted ""; interrupted "q"]
                    armed_client
  = (Ok tt,
     map Boot.Setup
       [Boot.Say Boot.Banner;
        Boot.Say (Boot.Connecting "https://192.168.39.10:18080");
        Boot.Hub (Boot.ConnectWithRetry 3); Boot.Say (Boot.ToolsLoaded 12);
        Boot.Hub Boot.FetchDeviceConfig; Boot.Hub Boot.FetchAiConfig;
        Boot.Say (Boot.ConnectionFailed boom "https://192.168.39.10:18080")]).
Proof.
  apply (@connection_failure home_config bad_boot
           [interrupted ""; interrupted "q"] armed_client boom).
  - discriminate.
  - discriminate.
  - reflexivity.
Defined.

(** X21. [_connect] calls the hub in one fixed order and stops at the
    first call that raises: connect, fetch device configuration, fetch AI
    configuration, apply AI configuration, fetch system context, apply
    device configuration, reset conversation, each made exactly when all
    those before it returned.  The calls made are those up to and with
    the first that raises, and [_connect] raises what that call raised; it
    returns when none did, having made all seven. *)
Theorem connect_calls_in_order (cfg : Boot.config) (be : Boot.boot_env) :
  (hub_calls (fst (Boot._connect cfg be)), snd (Boot._connect cfg be))
  = until_raise (connect_failures be).
Proof.
  unfold Boot._connect, Boot.then_, Boot.say, Boot.call, Boot.unit_,
    connect_failures, failure.
  destruct (Boot.connect_with_retry be); [|reflexivity].
  destruct (Boot.fetch_device_config be) as [[]|]; [|reflexivity].
  destruct (Boot.fetch_ai_config be) as [ai|]; [|reflexivity].
  destruct (Boot.apply_ai_config be) as [[]|]; [|reflexivity].
  destruct (Boot.fetch_system_context be) as [[]|]; [|reflexivity].
  destruct (Boot.apply_device_config be) as [[]|]; [|reflexivity].
  destruct (Boot.first_reset be) as [[]|]; [|reflexivity].
  destruct (Str.nonempty (Boot.NIA_ROOM cfg)), ai; reflexivity.
Qed.

(** X22. The wake engine is created only for a client that was given a
    wake model and is not in text mode, and it is kept only if its
    [start] returns true.  For a client that starts without engine and
    gets through start-up: with [--text], or without a model, no engine
    is created or started, whatever [--wake] says; otherwise the engine
    is created and started once, and the loop runs with the engine
    installed exactly when [start] returned true.  Nothing else of the
    client changes. *)
Theorem wake_engine_installation (cfg : Boot.config) (be : Boot.boot_env)
    (c c' : client) (t : list Boot.setup_event) :
  wake_engine c = false ->
  Boot.startup cfg be c = (t, Ok (Some c')) ->
  c' = with_wake_engine (wake_engine c') c /\
  filter is_engine_event t
  = match wake_model c with
    | Some (String a s) =>
        if text_mode c then []
        else [Boot.NewEngine (String a s); Boot.EngineStart]
    | _ => []
    end /\
  (wake_engine c' = true <->
   text_mode c = false /\
   (exists a s, wake_model c = Some (String a s)) /\
   Boot.engine_start be = Ok true).
Proof.
  intros Hfresh Hstart. unfold Boot.startup in Hstart.
  pose proof (_connect_no_engine cfg be) as Hquiet.
  destruct (Boot._connect cfg be) as [tc rc]. cbn [fst] in Hquiet.
  unfold Boot.then_, Boot.rescue, Boot.say, Boot.unit_, Boot.wants_engine
    in Hstart.
  assert (Heta : c = with_wake_engine (wake_engine c) c)
    by (destruct c; reflexivity).
  destruct (Str.nonempty (Boot.env_path be));
    (destruct (Boot.NIA_HUB_URL cfg) as [|u url]; [discriminate|]);
    (destruct (Boot.NIA_API_KEY cfg) as [|k key]; [discriminate|]);
    cbn [Str.nonempty negb app] in Hstart;
    (destruct rc as [u0|e]; [|destruct (Exn.is_Exception e); discriminate]);
    cbn [negb] in Hstart;
    destruct (text_mode c) eqn:Etm, (player_cmd c) as [|x cmd],
      (wake_model c) as [[|a s]|] eqn:Ewm;
    cbn [negb andb] in Hstart;
    try (destruct (Boot.new_engine be); [|discriminate]);
    try (destruct (Boot.engine_start be) as [started|]; [|discriminate]);
    cbn in Hstart; injection Hstart as <- <-;
    (split; [first [exact Heta | reflexivity]|]);
    (split;
     [ cbn [filter is_engine_event app];
       rewrite ?app_nil_r, ?filter_app, ?Hquiet; reflexivity |]);
    cbn [wake_engine with_wake_engine]; rewrite ?Hfresh;
    (split;
     [ intros H; first [discriminate H | subst; repeat split; eauto]
     | intros (H1 & (a' & s' & H2) & H3);
       first [discriminate | congruence] ]).
Qed.

Lemma wake_engine_installation_witness :
  exists t c',
    Boot.startup home_config good_boot waking_client = (t, Ok (Some c')) /\
    wake_engine c' = true /\
    filter is_engine_event t
    = [Boot.NewEngine "hey_jarvis"; Boot.EngineStart] /\
    filter is_engine_event
      (fst (Boot.startup home_config good_boot
              (cl typing_with_wake))) = [].
Proof.
  eexists. eexists. split; [reflexivity|].
  match goal with
  | |- wake_engine ?c' = true /\ filter is_engine_event ?t = _ /\ _ =>
      destruct (@wake_engine_installation home_config good_boot
                  waking_client c' t eq_refl eq_refl) as (_ & Hev & Hiff)
  end.
  split; [|split; [exact Hev|]].
  - apply Hiff. split; [reflexivity|]. split; [|reflexivity].
    eexists. eexists. reflexivity.
  - match goal with
    | |- filter is_engine_event (fst ?x) = [] =>
        let y := eval vm_compute in x in
        match y with
        | (?t0, Ok (Some ?c0)) =>
            destruct (@wake_engine_installation home_config good_boot
                        (cl typing_with_wake) c0 t0 eq_refl eq_refl)
              as (_ & Hev0 & _);
            exact Hev0
        end
    end.
Defined.

(** On a machine with mpv on the path, and an ffplay there that does not
    run, the command is the one of mpv. *)
Lemma find_player_on_laptop :
  _find_player only_mpv
  = Ok ["mpv"; "--no-video"; "--no-terminal"; "--no-cache"; "-"].
Proof. reflexivity. Qed.
